(** * win-lsmcp: the LSP client runtime and the symbol index, embedded in Rocq

    The development follows the TypeScript sources:
    - [packages/code-indexer/src/symbolIndex.ts]  (module [SymbolIndex]),
    - [src/lsp/lspClient.ts]                      (modules [Transport], [Client]),
    - [src/lsp/client/lspOperations.ts], [src/tools/lsp/references.ts] and
      the signature help tool                     (module [Tools]).

    Part I holds the model (definitions only), Part II the properties.

    Conventions.  A JavaScript string is a Rocq [string]; each character is
    one UTF-16 code unit in the range 0..255.  A JavaScript number that holds
    an integer is a [Z].  [undefined]/[null] are [None].  A JavaScript [Map]
    that the code iterates over is an insertion-ordered association list
    ([JsMap]); maps and sets that are only looked up are [gmap]/[gset]. *)

From Stdlib Require Import ZArith List Bool Ascii Lia.
From stdpp Require Import base decidable option list gmap strings sorting.

Set Warnings "-register-all".
Open Scope Z_scope.

(* ###################################################################### *)
(** * Part I. The model *)
(* ###################################################################### *)

(** ** JavaScript strings *)
Module Js.

(** [s.startsWith(p)] *)
Fixpoint startsWith (p s : string) : bool :=
  match p, s with
  | EmptyString, _ => true
  | String a p', String b s' => if Ascii.eqb a b then startsWith p' s' else false
  | String _ _, EmptyString => false
  end.

(** Position of the first occurrence of [needle] in [s], if any. *)
Fixpoint find (needle s : string) : option nat :=
  if startsWith needle s then Some 0%nat
  else match s with
       | EmptyString => None
       | String _ s' => S <$> find needle s'
       end.

(** [s.indexOf(needle)]: -1 when there is none. *)
Definition indexOf (s needle : string) : Z :=
  match find needle s with
  | Some i => Z.of_nat i
  | None => -1
  end.

(** [s.includes(needle)] *)
Definition includes (s needle : string) : bool :=
  match find needle s with Some _ => true | None => false end.

Fixpoint take (n : nat) (s : string) : string :=
  match n, s with
  | O, _ => EmptyString
  | S n', String a s' => String a (take n' s')
  | S _, EmptyString => EmptyString
  end.

Fixpoint drop (n : nat) (s : string) : string :=
  match n, s with
  | O, _ => s
  | S n', String _ s' => drop n' s'
  | S _, EmptyString => EmptyString
  end.

(** [s.length] *)
Definition length (s : string) : Z := Z.of_nat (String.length s).

(** [s.substring(a, b)]: both indices are clamped to [0, s.length] and
    swapped when [a > b]. *)
Definition substring (s : string) (a b : Z) : string :=
  let clamp i := Z.to_nat (Z.max 0 (Z.min i (length s))) in
  let lo := Nat.min (clamp a) (clamp b) in
  let hi := Nat.max (clamp a) (clamp b) in
  take (hi - lo) (drop lo s).

(** [s.substring(a)] *)
Definition substringFrom (s : string) (a : Z) : string :=
  substring s a (length s).

(** [s.toLowerCase()] on the code units 0..255: A-Z and the Latin-1 capitals
    U+00C0..U+00DE (U+00D7, the multiplication sign, apart) move up by 32. *)
Definition lowerUnit (c : Ascii.ascii) : Ascii.ascii :=
  let n := Ascii.N_of_ascii c in
  if ((65 <=? n) && (n <=? 90))%N then Ascii.ascii_of_N (n + 32)
  else if ((192 <=? n) && (n <=? 222) && negb (n =? 215))%N
       then Ascii.ascii_of_N (n + 32)
       else c.

Fixpoint toLowerCase (s : string) : string :=
  match s with
  | EmptyString => EmptyString
  | String c s' => String (lowerUnit c) (toLowerCase s')
  end.

(** Every code unit of [s] satisfies [p]. *)
Fixpoint all (p : Ascii.ascii -> bool) (s : string) : bool :=
  match s with
  | EmptyString => true
  | String c s' => p c && all p s'
  end.

(** The character of a decimal digit [0 <= d < 10]. *)
Definition digitChar (d : Z) : Ascii.ascii := Ascii.ascii_of_N (48 + Z.to_N d).

(** [\d] *)
Definition isDigit (c : Ascii.ascii) : bool :=
  let n := Ascii.N_of_ascii c in ((48 <=? n) && (n <=? 57))%N.

Definition digitValue (c : Ascii.ascii) : Z := Z.of_N (Ascii.N_of_ascii c) - 48.

(** The decimal digits of [n >= 0], most significant first.  [fuel] bounds
    the number of digits; [numberToString] gives enough. *)
Fixpoint decimalDigits (fuel : nat) (n : Z) : string :=
  match fuel with
  | O => String (digitChar n) EmptyString
  | S fuel' =>
      if n <? 10 then String (digitChar n) EmptyString
      else decimalDigits fuel' (n / 10)
             +:+ String (digitChar (n mod 10)) EmptyString
  end.

(** [String(n)], as a template literal prints an integer. *)
Definition numberToString (n : Z) : string :=
  if n <? 0 then "-" +:+ decimalDigits (Z.to_nat (- n)) (- n)
  else decimalDigits (Z.to_nat n) n.

(** The longest prefix of digits: what [\d*] takes. *)
Fixpoint takeDigits (s : string) : string :=
  match s with
  | EmptyString => EmptyString
  | String c s' => if isDigit c then String c (takeDigits s') else EmptyString
  end.

Fixpoint parseDigitsFrom (acc : Z) (s : string) : Z :=
  match s with
  | EmptyString => acc
  | String c s' => parseDigitsFrom (10 * acc + digitValue c) s'
  end.

(** [parseInt(s, 10)] for a string of digits. *)
Definition parseDigits (s : string) : Z := parseDigitsFrom 0 s.



(** [s.split("\n")] *)
Fixpoint splitLines (s : string) : list string :=
  match s with
  | EmptyString => [EmptyString]
  | String c s' =>
      if Ascii.eqb c "010"%char then EmptyString :: splitLines s'
      else match splitLines s' with
           | l :: ls => String c l :: ls
           | [] => [String c EmptyString]
           end
  end.

(** [`"${s}"`]: the string between two double quotes. *)
Definition quoted (s : string) : string :=
  String "034"%char (s +:+ String "034"%char EmptyString).

(** Truthiness of an optional string: [undefined] and [""] are falsy. *)
Definition truthy (o : option string) : bool :=
  match o with
  | Some s => negb (bool_decide (s = ""))
  | None => false
  end.

End Js.

(** ** JavaScript [Map], in insertion order *)
Module JsMap.

Section Ops.
Context {K V : Type} `{EqDecision K}.

(** [m.get(k)] *)
Fixpoint get (k : K) (m : list (K * V)) : option V :=
  match m with
  | [] => None
  | (k', v) :: m' => if decide (k' = k) then Some v else get k m'
  end.

(** [m.has(k)] *)
Definition has (k : K) (m : list (K * V)) : bool :=
  match get k m with Some _ => true | None => false end.

Fixpoint replace (k : K) (v : V) (m : list (K * V)) : list (K * V) :=
  match m with
  | [] => []
  | (k', v') :: m' =>
      if decide (k' = k) then (k', v) :: m' else (k', v') :: replace k v m'
  end.

(** [m.set(k, v)]: an existing key keeps its place, a new one goes last. *)
Definition set (k : K) (v : V) (m : list (K * V)) : list (K * V) :=
  if has k m then replace k v m else m ++ [(k, v)].

(** [m.delete(k)] *)
Definition delete (k : K) (m : list (K * V)) : list (K * V) :=
  List.filter (fun kv => negb (bool_decide (kv.1 = k))) m.

(** [m.values()] *)
Definition values (m : list (K * V)) : list V := map snd m.

(** [m.size] *)
Definition size (m : list (K * V)) : Z := Z.of_nat (List.length m).

End Ops.

End JsMap.

(** ** Types of [vscode-languageserver-types] *)
Module Lsp.

Record Position := { line : Z; character : Z }.

Record Range := { start : Position; end_ : Position }.

Record Location := { uri : string; range : Range }.

(** [SymbolKind] is a numeric enumeration (File = 1 ... TypeParameter = 26);
    at run time a kind is the number the server sent. *)
Definition SymbolKind := Z.

Definition SymbolKind_Class : SymbolKind := 5.

Definition SymbolKind_Method : SymbolKind := 6.

Definition SymbolKind_Function : SymbolKind := 12.



End Lsp.

(** Node's [path.resolve], [url.pathToFileURL(..).toString()],
    [path.isAbsolute] and [path.join]: library functions, left abstract. *)
Class PathApi := {
  resolve : string -> string -> string;
  pathToFileURL : string -> string;
  isAbsolute : string -> bool;
  join : string -> string -> string
}.

(** ** packages/code-indexer/src/symbolIndex.ts *)
Module SymbolIndex.
Import Lsp.

Inductive SymbolEntry := mkSymbolEntry {
  name : string;
  kind : SymbolKind;
  location : Location;
  containerName : option string;
  deprecated : option bool;
  detail : option string;
  children : option (list SymbolEntry);
  isExternal : option bool;
  sourceLibrary : option string
}.

Record FileSymbols := {
  fs_uri : string;
  lastModified : Z;
  symbols : list SymbolEntry
}.

Inductive KindQuery :=
| OneKind (k : SymbolKind)
| ManyKinds (ks : list SymbolKind).

Record SymbolQuery := {
  q_name : option string;
  q_kind : option KindQuery;
  q_file : option string;
  q_containerName : option string;
  q_includeChildren : option bool;
  q_includeExternal : option bool;
  q_onlyExternal : option bool;
  q_sourceLibrary : option string
}.

Record SymbolIndexStats := {
  totalFiles : Z;
  totalSymbols : Z;
  indexingTime : Z;
  lastUpdated : Z
}.

(** A file watcher is known by its handle. *)
Definition FSWatcher := Z.

Inductive IndexEvent :=
| fileRemoved (uri : string).

(** [SymbolIndexState].  The indexing queue, the [isIndexing] flag and the
    LSP client are left out: no function below reads or writes them.  The
    event emitter is the list of events emitted so far, [closedWatchers] the
    watchers on which [close()] was called. *)
Record SymbolIndexState := {
  fileIndex : list (string * FileSymbols);
  symbolIndex : list (string * list SymbolEntry);
  kindIndex : list (SymbolKind * list SymbolEntry);
  containerIndex : list (string * list SymbolEntry);
  fileWatchers : list (string * FSWatcher);
  rootPath : string;
  stats : SymbolIndexStats;
  emitted : list IndexEvent;
  closedWatchers : list FSWatcher
}.

Definition entryUri (e : SymbolEntry) : string := uri (location e).

(** [map.get(k)!.push(symbol)] after [if (!map.has(k)) map.set(k, [])]. *)
Definition pushEntry {K : Type} `{EqDecision K} (k : K) (symbol : SymbolEntry)
    (m : list (K * list SymbolEntry)) : list (K * list SymbolEntry) :=
  JsMap.set k (default [] (JsMap.get k m) ++ [symbol]) m.

(** The three derived indices, threaded through [addToIndex]. *)
Record Indices := {
  byName : list (string * list SymbolEntry);
  byKind : list (SymbolKind * list SymbolEntry);
  byContainer : list (string * list SymbolEntry)
}.

(** [addToIndex] of [updateIndices] (and [addSymbolToIndices], its copy). *)
Fixpoint addToIndex (symbol : SymbolEntry) (ix : Indices) : Indices :=
  match symbol with
  | mkSymbolEntry nm kd _ container _ _ kids _ _ =>
      let ix1 := {| byName := pushEntry nm symbol (byName ix);
                    byKind := pushEntry kd symbol (byKind ix);
                    byContainer :=
                      match container with
                      | Some c =>
                          if Js.truthy (Some c)
                          then pushEntry c symbol (byContainer ix)
                          else byContainer ix
                      | None => byContainer ix
                      end |} in
      match kids with
      | Some cs => fold_left (fun acc child => addToIndex child acc) cs ix1
      | None => ix1
      end
  end.

(** [clearFromMap] of [clearFileFromIndices]: one pass over the entries,
    each key either deleted or rebound to its filtered list. *)
Definition clearFromMap {K : Type} `{EqDecision K} (uri : string)
    (m : list (K * list SymbolEntry)) : list (K * list SymbolEntry) :=
  fold_left
    (fun acc kv =>
       let filtered :=
         List.filter (fun e => negb (bool_decide (entryUri e = uri))) kv.2 in
       match filtered with
       | [] => JsMap.delete kv.1 acc
       | _ :: _ => JsMap.set kv.1 filtered acc
       end)
    m m.

Definition clearFileFromIndices (state : SymbolIndexState) (uri : string)
    : SymbolIndexState :=
  {| fileIndex := fileIndex state;
     symbolIndex := clearFromMap uri (symbolIndex state);
     kindIndex := clearFromMap uri (kindIndex state);
     containerIndex := clearFromMap uri (containerIndex state);
     fileWatchers := fileWatchers state;
     rootPath := rootPath state;
     stats := stats state;
     emitted := emitted state;
     closedWatchers := closedWatchers state |}.

Definition updateIndices (state : SymbolIndexState)
    (syms : list SymbolEntry) (uri : string) : SymbolIndexState :=
  let cleared := clearFileFromIndices state uri in
  let ix := fold_left (fun acc s => addToIndex s acc) syms
              {| byName := symbolIndex cleared;
                 byKind := kindIndex cleared;
                 byContainer := containerIndex cleared |} in
  {| fileIndex := fileIndex cleared;
     symbolIndex := byName ix;
     kindIndex := byKind ix;
     containerIndex := byContainer ix;
     fileWatchers := fileWatchers cleared;
     rootPath := rootPath cleared;
     stats := stats cleared;
     emitted := emitted cleared;
     closedWatchers := closedWatchers cleared |}.

(** [countSymbols] of [updateStats]: [symbols.length] plus the count of each
    symbol's children.  Rocq's recursion goes through one entry at a time:
    [countSymbol] counts an entry with its descendants. *)
Fixpoint countSymbol (symbol : SymbolEntry) : Z :=
  match symbol with
  | mkSymbolEntry _ _ _ _ _ _ kids _ _ =>
      1 + match kids with
          | Some cs =>
              (fix sum (l : list SymbolEntry) : Z :=
                 match l with
                 | [] => 0
                 | c :: l' => countSymbol c + sum l'
                 end) cs
          | None => 0
          end
  end.

Definition countSymbols (syms : list SymbolEntry) : Z :=
  fold_right (fun s acc => countSymbol s + acc) 0 syms.

Definition updateStats (state : SymbolIndexState) : SymbolIndexState :=
  let total :=
    fold_left (fun acc fs => acc + countSymbols (symbols fs))
              (JsMap.values (fileIndex state)) 0 in
  {| fileIndex := fileIndex state;
     symbolIndex := symbolIndex state;
     kindIndex := kindIndex state;
     containerIndex := containerIndex state;
     fileWatchers := fileWatchers state;
     rootPath := rootPath state;
     stats := {| totalFiles := JsMap.size (fileIndex state);
                 totalSymbols := total;
                 indexingTime := indexingTime (stats state);
                 lastUpdated := lastUpdated (stats state) |};
     emitted := emitted state;
     closedWatchers := closedWatchers state |}.

Definition removeFileFromIndex `{PathApi} (state : SymbolIndexState)
    (filePath : string) : SymbolIndexState :=
  let uri := pathToFileURL (resolve (rootPath state) filePath) in
  let s1 := clearFileFromIndices state uri in
  let absolutePath := resolve (rootPath state) filePath in
  let s2 :=
    {| fileIndex := JsMap.delete uri (fileIndex s1);
       symbolIndex := symbolIndex s1;
       kindIndex := kindIndex s1;
       containerIndex := containerIndex s1;
       fileWatchers :=
         match JsMap.get absolutePath (fileWatchers s1) with
         | Some _ => JsMap.delete absolutePath (fileWatchers s1)
         | None => fileWatchers s1
         end;
       rootPath := rootPath s1;
       stats := stats s1;
       emitted := emitted s1;
       closedWatchers :=
         match JsMap.get absolutePath (fileWatchers s1) with
         | Some watcher => closedWatchers s1 ++ [watcher]
         | None => closedWatchers s1
         end |} in
  let s3 := updateStats s2 in
  {| fileIndex := fileIndex s3;
     symbolIndex := symbolIndex s3;
     kindIndex := kindIndex s3;
     containerIndex := containerIndex s3;
     fileWatchers := fileWatchers s3;
     rootPath := rootPath s3;
     stats := stats s3;
     emitted := emitted s3 ++ [fileRemoved uri];
     closedWatchers := closedWatchers s3 |}.

Definition positionInRange (position : Position) (range : Range) : bool :=
  if (line position <? line (start range)) || (line position >? line (end_ range))
  then false
  else if (line position =? line (start range))
          && (character position <? character (start range))
  then false
  else if (line position =? line (end_ range))
          && (character position >? character (end_ range))
  then false
  else true.

(** Truthiness of [query.kind]: the number 0 is falsy, an array never is. *)
Definition kindTruthy (k : option KindQuery) : bool :=
  match k with
  | Some (OneKind n) => negb (n =? 0)
  | Some (ManyKinds _) => true
  | None => false
  end.

(** [Array.isArray(query.kind) ? query.kind : [query.kind]] *)
Definition kindsOf (k : option KindQuery) : list SymbolKind :=
  match k with
  | Some (OneKind n) => [n]
  | Some (ManyKinds ks) => ks
  | None => []
  end.

(** [addSymbols] of [querySymbols] for one symbol: the symbol, then its
    descendants unless [includeChildren === false]. *)
Fixpoint addSymbol (withChildren : bool) (symbol : SymbolEntry)
    : list SymbolEntry :=
  match symbol with
  | mkSymbolEntry _ _ _ _ _ _ kids _ _ =>
      symbol ::
      match kids with
      | Some cs =>
          if withChildren
          then (fix each (l : list SymbolEntry) : list SymbolEntry :=
                  match l with
                  | [] => []
                  | c :: l' => addSymbol withChildren c ++ each l'
                  end) cs
          else []
      | None => []
      end
  end.

Definition addSymbols (withChildren : bool) (syms : list SymbolEntry)
    : list SymbolEntry :=
  flat_map (addSymbol withChildren) syms.

(** [addChildren]: every descendant, parents before their children. *)
Definition addChildren (kids : list SymbolEntry) : list SymbolEntry :=
  addSymbols true kids.

(** The external-library filter of [querySymbols] (lines 606-614). *)
Definition externalFilter (query : SymbolQuery) (results : list SymbolEntry)
    : list SymbolEntry :=
  if bool_decide (q_onlyExternal query = Some true)
  then List.filter (fun s => bool_decide (isExternal s = Some true)) results
  else if bool_decide (q_includeExternal query = Some false)
  then List.filter (fun s => negb (bool_decide (isExternal s = Some true))) results
  else results.


(** The candidates [querySymbols] starts from (lines 550-586). *)
Definition candidates (state : SymbolIndexState) (query : SymbolQuery)
    : list SymbolEntry :=
  if Js.truthy (q_name query) then
    let qname := default "" (q_name query) in
    let nameResults := default [] (JsMap.get qname (symbolIndex state)) in
    match nameResults with
    | [] =>
        flat_map
          (fun kv =>
             if Js.includes (Js.toLowerCase kv.1) (Js.toLowerCase qname)
             then kv.2 else [])
          (symbolIndex state)
    | _ :: _ => nameResults
    end
  else if kindTruthy (q_kind query) then
    flat_map (fun k => default [] (JsMap.get k (kindIndex state)))
             (kindsOf (q_kind query))
  else if Js.truthy (q_containerName query) then
    default [] (JsMap.get (default "" (q_containerName query))
                          (containerIndex state))
  else
    flat_map
      (fun fs =>
         addSymbols (negb (bool_decide (q_includeChildren query = Some false)))
                    (symbols fs))
      (JsMap.values (fileIndex state)).

Definition querySymbols `{PathApi} (state : SymbolIndexState)
    (query : SymbolQuery) : list SymbolEntry :=
  let r0 := candidates state query in
  let r1 :=
    if Js.truthy (q_file query) then
      let fileUri :=
        pathToFileURL (resolve (rootPath state) (default "" (q_file query))) in
      List.filter (fun s => bool_decide (entryUri s = fileUri)) r0
    else r0 in
  let r2 :=
    if Js.truthy (q_containerName query) && Js.truthy (q_name query) then
      List.filter
        (fun s => bool_decide (containerName s = q_containerName query)) r1
    else r1 in
  let r3 :=
    if Js.truthy (q_name query) && kindTruthy (q_kind query) then
      List.filter
        (fun s => bool_decide (kind s ∈ kindsOf (q_kind query))) r2
    else r2 in
  let r4 := externalFilter query r3 in
  let r5 :=
    if Js.truthy (q_sourceLibrary query) then
      List.filter
        (fun s => bool_decide (sourceLibrary s = q_sourceLibrary query)) r4
    else r4 in
  if bool_decide (q_includeChildren query = Some true) then
    r5 ++ flat_map
            (fun s => match children s with
                      | Some cs => addChildren cs
                      | None => []
                      end) r5
  else r5.

Definition getFileSymbols `{PathApi} (state : SymbolIndexState)
    (filePath : string) : list SymbolEntry :=
  let uri := pathToFileURL (resolve (rootPath state) filePath) in
  match JsMap.get uri (fileIndex state) with
  | Some fileSymbols => symbols fileSymbols
  | None => []
  end.

(** The body of [findSymbol]'s loop for one symbol: [None] when the position
    is outside its range, else the match found among its children, else the
    symbol itself. *)
Fixpoint findAt (position : Position) (symbol : SymbolEntry)
    : option SymbolEntry :=
  match symbol with
  | mkSymbolEntry _ _ loc _ _ _ kids _ _ =>
      if positionInRange position (range loc) then
        match kids with
        | Some cs =>
            match (fix loop (l : list SymbolEntry) : option SymbolEntry :=
                     match l with
                     | [] => None
                     | c :: l' =>
                         match findAt position c with
                         | Some found => Some found
                         | None => loop l'
                         end
                     end) cs with
            | Some child => Some child
            | None => Some symbol
            end
        | None => Some symbol
        end
      else None
  end.

(** The range of a symbol holds the position, or does not. *)
Definition inside (position : Position) (s : SymbolEntry) : Prop :=
  positionInRange position (range (location s)) = true.

Definition outside (position : Position) (s : SymbolEntry) : Prop :=
  positionInRange position (range (location s)) = false.

(** [findSymbol] of [getSymbolAtPosition]: the first symbol of the list, in
    order, whose range holds the position, refined by its children. *)
Fixpoint findSymbol (position : Position) (syms : list SymbolEntry)
    : option SymbolEntry :=
  match syms with
  | [] => None
  | symbol :: rest =>
      match findAt position symbol with
      | Some found => Some found
      | None => findSymbol position rest
      end
  end.

Definition getSymbolAtPosition `{PathApi} (state : SymbolIndexState)
    (filePath : string) (position : Position) : option SymbolEntry :=
  findSymbol position (getFileSymbols state filePath).



(** [createSymbolIndexState] *)
Definition createSymbolIndexState `{PathApi} (root : string)
    : SymbolIndexState :=
  {| fileIndex := [];
     symbolIndex := [];
     kindIndex := [];
     containerIndex := [];
     fileWatchers := [];
     rootPath := resolve root "";
     stats := {| totalFiles := 0; totalSymbols := 0;
                 indexingTime := 0; lastUpdated := 0 |};
     emitted := [];
     closedWatchers := [] |}.

(** [markSymbolsAsExternal] for one symbol *)
Fixpoint markSymbolAsExternal (libraryName : string) (symbol : SymbolEntry)
    : SymbolEntry :=
  match symbol with
  | mkSymbolEntry nm kd loc container depr det kids _ _ =>
      mkSymbolEntry nm kd loc container depr det
        (match kids with
         | Some cs => Some (map (markSymbolAsExternal libraryName) cs)
         | None => None
         end)
        (Some true) (Some libraryName)
  end.

Definition markSymbolsAsExternal (syms : list SymbolEntry)
    (libraryName : string) : list SymbolEntry :=
  map (markSymbolAsExternal libraryName) syms.

(** The body of the loop of [indexExternalLibrariesForState] (lines 795-817)
    for one file of a library whose name is already extracted. *)
Definition addExternalFile (state : SymbolIndexState)
    (fileSymbols : FileSymbols) (libraryName : string) : SymbolIndexState :=
  let externalSymbols :=
    markSymbolsAsExternal (symbols fileSymbols) libraryName in
  let ix := fold_left (fun acc s => addToIndex s acc) externalSymbols
              {| byName := symbolIndex state;
                 byKind := kindIndex state;
                 byContainer := containerIndex state |} in
  {| fileIndex :=
       JsMap.set (fs_uri fileSymbols)
         {| fs_uri := fs_uri fileSymbols;
            lastModified := lastModified fileSymbols;
            symbols := externalSymbols |} (fileIndex state);
     symbolIndex := byName ix;
     kindIndex := byKind ix;
     containerIndex := byContainer ix;
     fileWatchers := fileWatchers state;
     rootPath := rootPath state;
     stats := stats state;
     emitted := emitted state;
     closedWatchers := closedWatchers state |}.

(** The synchronous part of [indexFile] once the symbols of a file are
    known (lines 427-435): store the record, then rebuild the indices. *)
Definition storeFileSymbols (state : SymbolIndexState) (uri : string)
    (now : Z) (entries : list SymbolEntry) : SymbolIndexState :=
  let s1 :=
    {| fileIndex :=
         JsMap.set uri {| fs_uri := uri; lastModified := now;
                          symbols := entries |} (fileIndex state);
       symbolIndex := symbolIndex state;
       kindIndex := kindIndex state;
       containerIndex := containerIndex state;
       fileWatchers := fileWatchers state;
       rootPath := rootPath state;
       stats := stats state;
       emitted := emitted state;
       closedWatchers := closedWatchers state |} in
  updateIndices s1 entries uri.

(** The queries [{ name }], [{ kind }] and [{}]. *)
Definition nameQuery (nm : string) : SymbolQuery :=
  {| q_name := Some nm; q_kind := None; q_file := None;
     q_containerName := None; q_includeChildren := None;
     q_includeExternal := None; q_onlyExternal := None;
     q_sourceLibrary := None |}.

Definition kindQuery (k : SymbolKind) : SymbolQuery :=
  {| q_name := None; q_kind := Some (OneKind k); q_file := None;
     q_containerName := None; q_includeChildren := None;
     q_includeExternal := None; q_onlyExternal := None;
     q_sourceLibrary := None |}.

Definition everything : SymbolQuery :=
  {| q_name := None; q_kind := None; q_file := None;
     q_containerName := None; q_includeChildren := None;
     q_includeExternal := None; q_onlyExternal := None;
     q_sourceLibrary := None |}.

(** The query [{ onlyExternal: true }]. *)
Definition onlyExternalQuery : SymbolQuery :=
  {| q_name := None; q_kind := None; q_file := None;
     q_containerName := None; q_includeChildren := None;
     q_includeExternal := None; q_onlyExternal := Some true;
     q_sourceLibrary := None |}.

(** [getIndexStats] *)
Definition getIndexStats (state : SymbolIndexState) : SymbolIndexStats :=
  stats state.

End SymbolIndex.

(** ** The framed transport of [src/lsp/lspClient.ts] *)
Module Transport.

Definition CRLF : string := String "013"%char (String "010"%char EmptyString).

Definition headerTerminator : string := CRLF +:+ CRLF.

(** [Buffer.byteLength(s)]: the length of the UTF-8 encoding.  A code unit
    below 128 takes one byte, one in 128..255 two. *)
Fixpoint byteLength (s : string) : Z :=
  match s with
  | EmptyString => 0
  | String c s' =>
      (if (Ascii.N_of_ascii c <? 128)%N then 1 else 2) + byteLength s'
  end.

(** What [sendMessage] writes for a serialized message (lines 237-238). *)
Definition encodeFrame (content : string) : string :=
  "Content-Length: " +:+ Js.numberToString (byteLength content)
    +:+ headerTerminator +:+ content.

(** What consecutive calls of [sendMessage] write, as one stream. *)
Definition encodeFrames (contents : list string) : string :=
  fold_right (fun content rest => encodeFrame content +:+ rest) EmptyString
    contents.

(** [header.match(/Content-Length: (\d+)/)]: the digits captured by the
    leftmost match, if there is one. *)
Fixpoint matchContentLength (header : string) : option string :=
  let here :=
    if Js.startsWith "Content-Length: " header
    then match Js.takeDigits (Js.drop 16 header) with
         | EmptyString => None
         | String c ds => Some (String c ds)
         end
    else None in
  match here with
  | Some digits => Some digits
  | None =>
      match header with
      | EmptyString => None
      | String _ header' => matchContentLength header'
      end
  end.

(** The reader's share of [LSPClientState]. *)
Record ReaderState := {
  buffer : string;
  contentLength : Z
}.

Section Reader.
Context {Message : Type}.
(** [JSON.parse(body) as LSPMessage]; [None] when it throws. *)
Variable JSON_parse : string -> option Message.

(** What one pass of the reader does, in order: a message handed to
    [handleMessage], or one of the two debug lines. *)
Inductive ReaderEvent :=
| Delivered (message : Message)
| InvalidHeader (header : string)
| ParseFailure (body : string).

Inductive Iteration :=
| Return (st : ReaderState)
| Continue (st : ReaderState) (events : list ReaderEvent).

(** The second half of the loop body (lines 172-186), once a body length is
    known. *)
Definition readBody (st : ReaderState) : Iteration :=
  if Js.length (buffer st) <? contentLength st then Return st
  else
    let messageBody := Js.substring (buffer st) 0 (contentLength st) in
    let st' := {| buffer := Js.substringFrom (buffer st) (contentLength st);
                  contentLength := -1 |} in
    match JSON_parse messageBody with
    | Some message => Continue st' [Delivered message]
    | None => Continue st' [ParseFailure messageBody]
    end.

(** The loop body of [processBuffer] (lines 153-186). *)
Definition iteration (st : ReaderState) : Iteration :=
  if contentLength st =? -1 then
    let headerEnd := Js.indexOf (buffer st) headerTerminator in
    if headerEnd =? -1 then Return st
    else
      let header := Js.substring (buffer st) 0 headerEnd in
      match matchContentLength header with
      | None =>
          Continue {| buffer := Js.substringFrom (buffer st) (headerEnd + 4);
                      contentLength := contentLength st |}
                   [InvalidHeader header]
      | Some digits =>
          readBody {| buffer := Js.substringFrom (buffer st) (headerEnd + 4);
                      contentLength := Js.parseDigits digits |}
      end
  else readBody st.

(** [while (state.buffer.length > 0) { ... }], at most [fuel] times round. *)
Fixpoint processBufferLoop (fuel : nat) (st : ReaderState)
    : option (ReaderState * list ReaderEvent) :=
  if Js.length (buffer st) >? 0 then
    match fuel with
    | O => None
    | S fuel' =>
        match iteration st with
        | Return st' => Some (st', [])
        | Continue st' events =>
            match processBufferLoop fuel' st' with
            | Some (st'', later) => Some (st'', events ++ later)
            | None => None
            end
        end
    end
  else Some (st, []).

(** [processBuffer]: every round but one in two shortens the buffer, so
    twice its length and two rounds more are enough. *)
Definition processBuffer (st : ReaderState)
    : option (ReaderState * list ReaderEvent) :=
  processBufferLoop (2 * String.length (buffer st) + 2) st.

(** The [data] listener of [start] (lines 396-399). *)
Definition onData (st : ReaderState) (chunk : string)
    : option (ReaderState * list ReaderEvent) :=
  processBuffer {| buffer := buffer st +:+ chunk;
                   contentLength := contentLength st |}.

End Reader.

Arguments ReaderEvent : clear implicits.
Arguments Iteration : clear implicits.

(** What bounds the rounds the reader still has to make: the length of the
    buffer counts twice, a pending body length once. *)
Definition roundsLeft (st : ReaderState) : nat :=
  (2 * String.length (buffer st)
   + (if (contentLength st =? -1)%Z then 0 else 1))%nat.

(** The reader of a client that has read nothing yet (lines 140-141). *)
Definition initialReader : ReaderState :=
  {| buffer := EmptyString; contentLength := -1 |}.

End Transport.

(** ** JSON values *)
Module Json.

(** A JSON value.  Numbers are the integers; an object lists its own
    properties in insertion order. *)
Inductive Json :=
| JNull
| JBool (b : bool)
| JNum (n : Z)
| JStr (s : string)
| JArr (items : list Json)
| JObj (fields : list (string * Json)).

(** JavaScript truthiness. *)
Definition truthy (j : Json) : bool :=
  match j with
  | JNull => false
  | JBool b => b
  | JNum n => negb (n =? 0)
  | JStr s => negb (bool_decide (s = ""))
  | JArr _ => true
  | JObj _ => true
  end.

(** [j.key] for a property that only an object can have: [None] is
    [undefined]. *)
Definition prop (j : Json) (key : string) : option Json :=
  match j with
  | JObj fields => JsMap.get key fields
  | _ => None
  end.

Definition hexDigit (n : N) : ascii :=
  if (n <? 10)%N then ascii_of_N (48 + n) else ascii_of_N (87 + n).

(** [QuoteJSONString] for one code unit. *)
Definition escapeUnit (c : ascii) : string :=
  let n := N_of_ascii c in
  if (n =? 34)%N then String "\"%char (String "034"%char EmptyString)
  else if (n =? 92)%N then String "\"%char (String "\"%char EmptyString)
  else if (n =? 8)%N then String "\"%char "b"
  else if (n =? 9)%N then String "\"%char "t"
  else if (n =? 10)%N then String "\"%char "n"
  else if (n =? 12)%N then String "\"%char "f"
  else if (n =? 13)%N then String "\"%char "r"
  else if (n <? 32)%N
  then String "\"%char
         ("u00" +:+ String (hexDigit (n / 16))
                      (String (hexDigit (n mod 16)) EmptyString))
  else String c EmptyString.

Fixpoint escapeUnits (s : string) : string :=
  match s with
  | EmptyString => EmptyString
  | String c s' => escapeUnit c +:+ escapeUnits s'
  end.

Definition quoteString (s : string) : string :=
  String "034"%char (escapeUnits s +:+ String "034"%char EmptyString).

(** [JSON.stringify(j)] *)
Fixpoint stringify (j : Json) : string :=
  match j with
  | JNull => "null"
  | JBool true => "true"
  | JBool false => "false"
  | JNum n => Js.numberToString n
  | JStr s => quoteString s
  | JArr items =>
      "[" +:+
      (fix each (l : list Json) : string :=
         match l with
         | [] => EmptyString
         | x :: l' =>
             stringify x +:+
             match l' with
             | [] => EmptyString
             | _ :: _ => "," +:+ each l'
             end
         end) items +:+ "]"
  | JObj fields =>
      "{" +:+
      (fix each (l : list (string * Json)) : string :=
         match l with
         | [] => EmptyString
         | (k, v) :: l' =>
             quoteString k +:+ ":" +:+ stringify v +:+
             match l' with
             | [] => EmptyString
             | _ :: _ => "," +:+ each l'
             end
         end) fields +:+ "}"
  end.

(** A property that is left out when its value is [undefined]. *)
Definition field (key : string) (value : option Json) : list (string * Json) :=
  match value with
  | Some v => [(key, v)]
  | None => []
  end.

End Json.

(** ** The client of [src/lsp/lspClient.ts] *)
Module Client.
Import Json.

(** *** Messages and errors *)

Record ResponseError := {
  code : Z;
  message : string;
  data : option Json
}.

(** [LSPMessage]; [jsonrpc] is always ["2.0"]. *)
Record LSPMessage := {
  id : option Z;
  method : option string;
  params : option Json;
  result : option Json;
  error : option ResponseError
}.

Definition errorToJson (e : ResponseError) : Json :=
  JObj ([("code", JNum (code e)); ("message", JStr (message e))]
        ++ field "data" (data e)).

Definition messageToJson (m : LSPMessage) : Json :=
  JObj ([("jsonrpc", JStr "2.0")]
        ++ field "id" (JNum <$> id m)
        ++ field "method" (JStr <$> method m)
        ++ field "params" (params m)
        ++ field "result" (result m)
        ++ field "error" (errorToJson <$> error m)).

(** A JavaScript [Error]: its message, and the [code] property that the
    callers of the client test.  [new Error(msg)] has no [code]. *)
Record JsError := {
  errorMessage : string;
  errorCode : option Z
}.

Definition newError (msg : string) : JsError :=
  {| errorMessage := msg; errorCode := None |}.

(** [ErrorContext] of [mcp/utils/errorHandler.ts] *)
Record ErrorContext := {
  operation : option string;
  language : option string;
  filePath : option string;
  symbolName : option string;
  details : option Json
}.

(** [formatError] of [mcp/utils/errorHandler.ts], which is not among the
    sources: any function of the error and its context. *)
Class ErrorFormatter := {
  formatError : JsError -> ErrorContext -> string
}.

(** [getLanguageIdFromPath] of [lsp/languageDetection.ts], likewise. *)
Class LanguageDetection := {
  getLanguageIdFromPath : string -> option string
}.

(** [JSON.parse(body) as LSPMessage]; [None] when it throws. *)
Class JsonParser := {
  JSON_parse : string -> option LSPMessage
}.

(** How a call ends: it returns (a promise resolves) or it throws (a promise
    is rejected). *)
Inductive Completion (A : Type) :=
| Normal (value : A)
| Throw (e : JsError).

Arguments Normal {A} value.
Arguments Throw {A} e.

(** *** The state *)

(** What the closures of one [sendRequest] call hold. *)
Record PendingRequest := {
  pendingMethod : string;
  pendingParams : option Json
}.

(** The timer armed by [setTimeout(.., delay)] for one request. *)
Record RequestTimer := {
  delay : Z;
  timerRequest : PendingRequest
}.

(** The server process: what was written to its standard input, when it has
    one. *)
Record ChildProcess := {
  stdin : option (list string);
  killed : bool
}.

Inductive ClientEvent :=
| diagnosticsEvent (payload : Json)
| messageEvent (m : LSPMessage).

(** [LSPClientState] and the variables [createLSPClient] closes over:
    [openDocuments]; [timers], the armed request timers by request id;
    [settled], the outcome of each promise returned by [sendRequest] that
    has one; [emitted], the events emitted so far. *)
Record LSPClientState := {
  process : option ChildProcess;
  messageId : Z;
  responseHandlers : gmap Z PendingRequest;
  reader : Transport.ReaderState;
  diagnostics : gmap string (list Json);
  rootPath : string;
  languageId : string;
  openDocuments : gset string;
  timers : gmap Z RequestTimer;
  settled : gmap Z (Completion Json);
  emitted : list ClientEvent
}.

(** A computation on the client: state passing, with exceptions that leave
    the state as it was when they were raised. *)
Definition M (A : Type) : Type :=
  LSPClientState -> LSPClientState * Completion A.

Definition ret {A : Type} (a : A) : M A := fun st => (st, Normal a).

Definition throw {A : Type} (e : JsError) : M A := fun st => (st, Throw e).

Definition bind {A B : Type} (m : M A) (k : A -> M B) : M B :=
  fun st =>
    match m st with
    | (st', Normal a) => k a st'
    | (st', Throw e) => (st', Throw e)
    end.

(** [try { m } catch (e) { handler(e) }] *)
Definition tryCatch {A : Type} (m : M A) (handler : JsError -> M A) : M A :=
  fun st =>
    match m st with
    | (st', Normal a) => (st', Normal a)
    | (st', Throw e) => handler e st'
    end.


Definition gets {A : Type} (f : LSPClientState -> A) : M A :=
  fun st => (st, Normal (f st)).

Definition modify (f : LSPClientState -> LSPClientState) : M unit :=
  fun st => (f st, Normal tt).

Declare Scope client_scope.
Delimit Scope client_scope with client.
Bind Scope client_scope with M.

Notation "x <- m ;; k" := (bind m (fun x => k))
  (at level 20, m at level 99, k at level 200, only parsing) : client_scope.

Notation "m ;; k" := (bind m (fun _ => k))
  (at level 100, k at level 200, right associativity, only parsing)
  : client_scope.

Open Scope client_scope.

(** Field updates. *)
Definition withProcess (p : option ChildProcess) (st : LSPClientState)
    : LSPClientState :=
  {| process := p; messageId := messageId st;
     responseHandlers := responseHandlers st; reader := reader st;
     diagnostics := diagnostics st; rootPath := rootPath st;
     languageId := languageId st; openDocuments := openDocuments st;
     timers := timers st; settled := settled st; emitted := emitted st |}.

Definition withMessageId (n : Z) (st : LSPClientState) : LSPClientState :=
  {| process := process st; messageId := n;
     responseHandlers := responseHandlers st; reader := reader st;
     diagnostics := diagnostics st; rootPath := rootPath st;
     languageId := languageId st; openDocuments := openDocuments st;
     timers := timers st; settled := settled st; emitted := emitted st |}.

Definition withResponseHandlers (h : gmap Z PendingRequest)
    (st : LSPClientState) : LSPClientState :=
  {| process := process st; messageId := messageId st;
     responseHandlers := h; reader := reader st;
     diagnostics := diagnostics st; rootPath := rootPath st;
     languageId := languageId st; openDocuments := openDocuments st;
     timers := timers st; settled := settled st; emitted := emitted st |}.

Definition withReader (r : Transport.ReaderState) (st : LSPClientState)
    : LSPClientState :=
  {| process := process st; messageId := messageId st;
     responseHandlers := responseHandlers st; reader := r;
     diagnostics := diagnostics st; rootPath := rootPath st;
     languageId := languageId st; openDocuments := openDocuments st;
     timers := timers st; settled := settled st; emitted := emitted st |}.

Definition withDiagnostics (d : gmap string (list Json))
    (st : LSPClientState) : LSPClientState :=
  {| process := process st; messageId := messageId st;
     responseHandlers := responseHandlers st; reader := reader st;
     diagnostics := d; rootPath := rootPath st;
     languageId := languageId st; openDocuments := openDocuments st;
     timers := timers st; settled := settled st; emitted := emitted st |}.

Definition withOpenDocuments (o : gset string) (st : LSPClientState)
    : LSPClientState :=
  {| process := process st; messageId := messageId st;
     responseHandlers := responseHandlers st; reader := reader st;
     diagnostics := diagnostics st; rootPath := rootPath st;
     languageId := languageId st; openDocuments := o;
     timers := timers st; settled := settled st; emitted := emitted st |}.

Definition withTimers (t : gmap Z RequestTimer) (st : LSPClientState)
    : LSPClientState :=
  {| process := process st; messageId := messageId st;
     responseHandlers := responseHandlers st; reader := reader st;
     diagnostics := diagnostics st; rootPath := rootPath st;
     languageId := languageId st; openDocuments := openDocuments st;
     timers := t; settled := settled st; emitted := emitted st |}.

Definition withSettled (s : gmap Z (Completion Json)) (st : LSPClientState)
    : LSPClientState :=
  {| process := process st; messageId := messageId st;
     responseHandlers := responseHandlers st; reader := reader st;
     diagnostics := diagnostics st; rootPath := rootPath st;
     languageId := languageId st; openDocuments := openDocuments st;
     timers := timers st; settled := s; emitted := emitted st |}.

Definition withEmitted (e : list ClientEvent) (st : LSPClientState)
    : LSPClientState :=
  {| process := process st; messageId := messageId st;
     responseHandlers := responseHandlers st; reader := reader st;
     diagnostics := diagnostics st; rootPath := rootPath st;
     languageId := languageId st; openDocuments := openDocuments st;
     timers := timers st; settled := settled st; emitted := e |}.

(** The process after [stdin?.write(frame)]. *)
Definition afterWrite (frame : string) (p : ChildProcess) : ChildProcess :=
  {| stdin := (fun w => w ++ [frame]) <$> stdin p; killed := killed p |}.

(** What has been written to the server so far ([[]] without a process or
    without a standard input). *)
Definition written (st : LSPClientState) : list string :=
  match process st with
  | Some p => default [] (stdin p)
  | None => []
  end.

(** The frame [sendMessage] writes for a message. *)
Definition frameOf (m : LSPMessage) : string :=
  Transport.encodeFrame (stringify (messageToJson m)).

Definition notification (method : string) (params : option Json)
    : LSPMessage :=
  {| id := None; method := Some method; params := params;
     result := None; error := None |}.

Definition request (id : Z) (method : string) (params : option Json)
    : LSPMessage :=
  {| id := Some id; method := Some method; params := params;
     result := None; error := None |}.

(** Request ids are handed out in increasing order: an id above
    [messageId] has no promise, no handler and no timer yet. *)
Definition freshIds (st : LSPClientState) : Prop :=
  forall n, messageId st < n ->
    settled st !! n = None /\ responseHandlers st !! n = None
    /\ timers st !! n = None.

(** A client that can send requests: a server process is attached and the
    request ids above [messageId] are unused. *)
Definition ready (st : LSPClientState) : Prop :=
  is_Some (process st) /\ freshIds st.

(** [state.eventEmitter.emit(...)] *)
Definition emit (e : ClientEvent) : M unit :=
  modify (fun st => withEmitted (emitted st ++ [e]) st).

(** [resolve(v)] or [reject(e)] of the promise of request [id]: a promise
    settles once. *)
Definition settle (id : Z) (outcome : Completion Json) (st : LSPClientState)
    : LSPClientState :=
  match settled st !! id with
  | Some _ => st
  | None => withSettled (<[id := outcome]> (settled st)) st
  end.

(** [createLSPClient(config)] (lines 135-149) *)
Definition createLSPClient (configProcess : option ChildProcess)
    (configRootPath : string) (configLanguageId : option string)
    : LSPClientState :=
  {| process := configProcess;
     messageId := 0;
     responseHandlers := ∅;
     reader := Transport.initialReader;
     diagnostics := ∅;
     rootPath := configRootPath;
     languageId := if Js.truthy configLanguageId
                   then default "" configLanguageId else "plaintext";
     openDocuments := ∅;
     timers := ∅;
     settled := ∅;
     emitted := [] |}.

(** The [exit] listener of [start] (lines 406-421); the rest of it writes
    debug lines. *)
Definition onExit (exitCode : option Z) : M unit :=
  modify (withProcess None).

(** *** Sending *)

Section Operations.
Context `{ErrorFormatter} `{LanguageDetection} `{JsonParser}.

(** [sendMessage] (lines 222-239).  The debug line for F# is left out. *)
Definition sendMessage (message : LSPMessage) : M unit :=
  fun st =>
    match process st with
    | None => (st, Throw (newError "LSP server not started"))
    | Some p =>
        (withProcess (Some (afterWrite (frameOf message) p)) st, Normal tt)
    end.

(** [sendNotification] (lines 297-304) *)
Definition sendNotification (method : string) (params : option Json)
    : M unit :=
  sendMessage (notification method params).

(** The error of the timer callback of [sendRequest] (lines 257-269). *)
Definition timeoutError (languageId method : string) (params : option Json)
    : JsError :=
  newError
    (formatError
       (newError ("Request '" +:+ method +:+ "' timed out after 30 seconds"))
       {| operation := Some method;
          language := Some languageId;
          filePath := None;
          symbolName := None;
          details := Some (JObj ([("method", JStr method)]
                                 ++ field "params" params)) |}).

(** The error a response handler rejects with (lines 276-287). *)
Definition responseFailure (languageId method : string) (e : ResponseError)
    : JsError :=
  newError
    (formatError
       (newError (message e))
       {| operation := Some method;
          language := Some languageId;
          filePath := None;
          symbolName := None;
          details := Some (JObj ([("errorCode", JNum (code e))]
                                 ++ field "errorData" (data e))) |}).

(** [sendRequest] up to the point where it returns its promise
    (lines 245-294): the next id, the timer, the response handler, the
    message.  An exception of [sendMessage] rejects the promise.  The value
    returned is the request id, which stands for the promise. *)
Definition sendRequestStart (method : string) (params : option Json)
    : M Z :=
  fun st =>
    let id := messageId st + 1 in
    let request := {| pendingMethod := method; pendingParams := params |} in
    let st1 := withMessageId id st in
    let st2 :=
      withTimers (<[id := {| delay := 30000; timerRequest := request |}]>
                    (timers st1)) st1 in
    let st3 :=
      withResponseHandlers (<[id := request]> (responseHandlers st2)) st2 in
    match sendMessage (Client.request id method params) st3 with
    | (st4, Normal _) => (st4, Normal id)
    | (st4, Throw e) => (settle id (Throw e) st4, Normal id)
    end.

(** The timer callback of request [id] (lines 255-270), when its timer is
    still armed. *)
Definition onRequestTimeout (id : Z) (st : LSPClientState) : LSPClientState :=
  match timers st !! id with
  | None => st
  | Some timer =>
      let st1 := withTimers (delete id (timers st)) st in
      let st2 :=
        withResponseHandlers (delete id (responseHandlers st1)) st1 in
      settle id
        (Throw (timeoutError (languageId st2)
                  (pendingMethod (timerRequest timer))
                  (pendingParams (timerRequest timer))))
        st2
  end.

(** The response handler registered for request [id] (lines 272-291). *)
Definition responseHandler (id : Z) (request : PendingRequest)
    (response : LSPMessage) (st : LSPClientState) : LSPClientState :=
  let st1 := withTimers (delete id (timers st)) st in
  let st2 := withResponseHandlers (delete id (responseHandlers st1)) st1 in
  match error response with
  | Some e =>
      settle id
        (Throw (responseFailure (languageId st2) (pendingMethod request) e))
        st2
  | None =>
      (* [resolve(undefined)] cannot arise from [handleMessage], which
         requires a result or an error; JSON has no [undefined]. *)
      settle id (Normal (default JNull (result response))) st2
  end.

(** *** Receiving *)

(** [params.diagnostics.filter((d) => d && d.range)] *)
Definition validDiagnostic (d : Json) : bool :=
  truthy d && match prop d "range" with
              | Some r => truthy r
              | None => false
              end.

(** [handleMessage] (lines 190-220).  A diagnostics notification whose
    [uri] is not a string would bind a key that no call of the client can
    look up; the model leaves the map as it is then. *)
Definition handleMessage (message : LSPMessage) : M unit :=
  if bool_decide (is_Some (id message))
     && (bool_decide (is_Some (result message))
         || bool_decide (is_Some (error message)))
  then
    (* a response *)
    fun st =>
      match id message ≫= (fun n => (n,.) <$> responseHandlers st !! n) with
      | Some (n, request) =>
          let st1 := responseHandler n request message st in
          (withResponseHandlers (delete n (responseHandlers st1)) st1,
           Normal tt)
      | None => (st, Normal tt)
      end
  else if Js.truthy (method message) then
    (* a notification, or a request of the server *)
    (if bool_decide (method message = Some "textDocument/publishDiagnostics")
        && match params message with
           | Some p => truthy p
           | None => false
           end
     then
       let p := default JNull (params message) in
       match prop p "diagnostics" with
       | Some (JArr items) =>
           let validDiagnostics := List.filter validDiagnostic items in
           modify (fun st =>
                     match prop p "uri" with
                     | Some (JStr uri) =>
                         withDiagnostics
                           (<[uri := validDiagnostics]> (diagnostics st)) st
                     | _ => st
                     end) ;;
           emit (diagnosticsEvent
                   (match p with
                    | JObj fields =>
                        JObj (JsMap.set "diagnostics"
                                (JArr validDiagnostics) fields)
                    | _ => p
                    end))
       | Some JNull =>
           throw (newError
                    "Cannot read properties of null (reading 'filter')")
       | Some _ =>
           throw (newError "params.diagnostics.filter is not a function")
       | None =>
           throw (newError
                    "Cannot read properties of undefined (reading 'filter')")
       end
     else ret tt) ;;
    emit (messageEvent message)
  else ret tt.

(** The [data] listener (lines 396-399) with [processBuffer]: each message
    the reader delivers goes to [handleMessage]; an exception of the handler
    is caught with those of [JSON.parse] (lines 181-186). *)
Definition onData (chunk : string) (st : LSPClientState)
    : option LSPClientState :=
  match Transport.onData JSON_parse (reader st) chunk with
  | None => None
  | Some (reader', events) =>
      Some
        (fold_left
           (fun acc event =>
              match event with
              | Transport.Delivered message => fst (handleMessage message acc)
              | _ => acc
              end)
           events (withReader reader' st))
  end.

(** *** Requests *)

(** How the server answers a request: with a result, with an error, or not
    at all before the request's timer fires. *)
Inductive ServerReply :=
| ReplyResult (r : Json)
| ReplyError (e : ResponseError)
| NoReply.

(** [await sendRequest(method, params)], the server's answer given: the
    request is sent, the answer (or the timer) is handled, and the promise
    is read. *)
Definition sendRequest (method : string) (params : option Json)
    (reply : ServerReply) : M Json :=
  fun st =>
    match sendRequestStart method params st with
    | (st1, Throw e) => (st1, Throw e)
    | (st1, Normal id) =>
        match settled st1 !! id with
        | Some outcome => (st1, outcome)
        | None =>
            let st2 :=
              match reply with
              | ReplyResult r =>
                  fst (handleMessage
                         {| id := Some id; method := None; params := None;
                            result := Some r; error := None |} st1)
              | ReplyError e =>
                  fst (handleMessage
                         {| id := Some id; method := None; params := None;
                            result := None; error := Some e |} st1)
              | NoReply => onRequestTimeout id st1
              end in
            (st2, default (Throw (newError "the promise is pending"))
                          (settled st2 !! id))
        end
    end.

(** What the caller of [sendRequest] gets for each answer. *)
Definition replyOutcome (languageId method : string) (params : option Json)
    (reply : ServerReply) : Completion Json :=
  match reply with
  | ReplyResult r => Normal r
  | ReplyError e => Throw (responseFailure languageId method e)
  | NoReply => Throw (timeoutError languageId method params)
  end.

(** *** Documents *)

(** [DidOpenTextDocumentParams] as [openDocument] builds them. *)
Definition didOpenParams (uri languageId text : string) : Json :=
  JObj [("textDocument",
         JObj [("uri", JStr uri);
               ("languageId", JStr languageId);
               ("version", JNum 1);
               ("text", JStr text)])].

(** [languageId || getLanguageIdFromPath(uri) || state.languageId] *)
Definition actualLanguageId (uri : string) (languageId' : option string)
    (st : LSPClientState) : string :=
  if Js.truthy languageId' then default "" languageId'
  else if Js.truthy (getLanguageIdFromPath uri)
  then default "" (getLanguageIdFromPath uri)
  else languageId st.

(** [openDocument] (lines 444-459) *)
Definition openDocument (uri text : string) (languageId' : option string)
    : M unit :=
  language <- gets (actualLanguageId uri languageId') ;;
  sendNotification "textDocument/didOpen"
    (Some (didOpenParams uri language text)) ;;
  modify (fun st => withOpenDocuments ({[uri]} ∪ openDocuments st) st).

(** [DidCloseTextDocumentParams] *)
Definition didCloseParams (uri : string) : Json :=
  JObj [("textDocument", JObj [("uri", JStr uri)])].

(** [closeDocument] (lines 461-471) *)
Definition closeDocument (uri : string) : M unit :=
  sendNotification "textDocument/didClose" (Some (didCloseParams uri)) ;;
  modify (fun st => withDiagnostics (delete uri (diagnostics st)) st) ;;
  modify (fun st => withOpenDocuments (openDocuments st ∖ {[uri]}) st).

(** [isDocumentOpen] (lines 473-475) *)
Definition isDocumentOpen (uri : string) (st : LSPClientState) : bool :=
  bool_decide (uri ∈ openDocuments st).

(** [updateDocument] (lines 477-486) *)
Definition updateDocument (uri text : string) (version : Z) : M unit :=
  sendNotification "textDocument/didChange"
    (Some (JObj [("textDocument",
                  JObj [("uri", JStr uri); ("version", JNum version)]);
                 ("contentChanges", JArr [JObj [("text", JStr text)]])])).

(** [getDiagnostics] (lines 563-567) *)
Definition getDiagnostics (uri : string) (st : LSPClientState) : list Json :=
  default [] (diagnostics st !! uri).

Definition positionJson (position : Lsp.Position) : Json :=
  JObj [("line", JNum (Lsp.line position));
        ("character", JNum (Lsp.character position))].

Definition textDocumentPosition (uri : string) (position : Lsp.Position)
    : Json :=
  JObj [("textDocument", JObj [("uri", JStr uri)]);
        ("position", positionJson position)].

(** [findReferences] (lines 488-504): [result ?? []] *)
Definition findReferences (uri : string) (position : Lsp.Position)
    (reply : ServerReply) : M Json :=
  r <- sendRequest "textDocument/references"
         (Some (JObj [("textDocument", JObj [("uri", JStr uri)]);
                      ("position", positionJson position);
                      ("context",
                       JObj [("includeDeclaration", JBool true)])]))
         reply ;;
  ret (match r with JNull => JArr [] | _ => r end).

(** [getHover] (lines 551-561) *)
Definition getHover (uri : string) (position : Lsp.Position)
    (reply : ServerReply) : M Json :=
  sendRequest "textDocument/hover"
    (Some (textDocumentPosition uri position)) reply.


(** [prepareRename] (lines 719-740).  [result && "range" in result]: the
    [in] operator throws on a value that is no object, and the [catch]
    answers null. *)
Definition prepareRename (uri : string) (position : Lsp.Position)
    (reply : ServerReply) : M Json :=
  tryCatch
    (r <- sendRequest "textDocument/prepareRename"
            (Some (textDocumentPosition uri position)) reply ;;
     if truthy r then
       match r with
       | JObj fields =>
           match JsMap.get "range" fields with
           | Some range => ret range
           | None => ret r
           end
       | JArr _ => ret r
       | _ => throw (newError
                       "Cannot use 'in' operator to search for 'range'")
       end
     else ret r)
    (fun _ => ret JNull).

(** The test both [rename] and its caller apply to an exception. *)
Definition isMethodNotFound (e : JsError) : bool :=
  Js.includes (errorMessage e) "Unhandled method"
  || Js.includes (errorMessage e) "Method not found"
  || bool_decide (errorCode e = Some (-32601)).

(** [rename] (lines 742-770) *)
Definition rename (uri : string) (position : Lsp.Position) (newName : string)
    (reply : ServerReply) : M Json :=
  tryCatch
    (sendRequest "textDocument/rename"
       (Some (JObj [("textDocument", JObj [("uri", JStr uri)]);
                    ("position", positionJson position);
                    ("newName", JStr newName)]))
       reply)
    (fun e => if isMethodNotFound e then ret JNull else throw e).

(** *** Responses as the server sends them *)

Definition resultResponse (n : Z) (r : Json) : LSPMessage :=
  {| id := Some n; method := None; params := None;
     result := Some r; error := None |}.

Definition errorResponse (n : Z) (e : ResponseError) : LSPMessage :=
  {| id := Some n; method := None; params := None;
     result := None; error := Some e |}.

(** *** Other requests *)

(** [String(j)] for a primitive value. *)
Definition display (j : Json) : string :=
  match j with
  | JNull => "null"
  | JBool true => "true"
  | JBool false => "false"
  | JNum n => Js.numberToString n
  | JStr s => s
  | JArr _ => ""
  | JObj _ => "[object Object]"
  end.

(** The [TypeError] of [key in value] for a value that is no object. *)
Definition notAnObject (key : string) (value : Json) : JsError :=
  newError ("Cannot use 'in' operator to search for '" +:+ key +:+ "' in "
            +:+ display value).

(** [getDefinition] (lines 506-549).  The debug lines are left out.  The
    last test, for a range and a uri, comes after the one for a uri and
    never holds. *)
Definition getDefinition (uri : string) (position : Lsp.Position)
    (reply : ServerReply) : M Json :=
  r <- sendRequest "textDocument/definition"
         (Some (textDocumentPosition uri position)) reply ;;
  if negb (truthy r) then ret (JArr [])
  else
    match r with
    | JArr _ => ret r
    | JObj fields =>
        if JsMap.has "uri" fields then ret (JArr [r]) else ret (JArr [])
    | _ => throw (notAnObject "uri" r)
    end.

(** [pullDiagnostics] (lines 569-592).  The diagnostics map of the model
    holds arrays: [items] that are truthy and no array are returned as they
    are, and the map is left as it was. *)
Definition pullDiagnostics (uri : string) (reply : ServerReply) : M Json :=
  pulled <-
    tryCatch
      (r <- sendRequest "textDocument/diagnostic"
              (Some (JObj [("textDocument", JObj [("uri", JStr uri)])]))
              reply ;;
       match (if truthy r then prop r "items" else None) with
       | Some items =>
           if truthy items then
             modify (fun st =>
                       match items with
                       | JArr list =>
                           withDiagnostics (<[uri := list]> (diagnostics st))
                                           st
                       | _ => st
                       end) ;;
             ret (Some items)
           else ret None
       | None => ret None
       end)
      (fun _ => ret None) ;;
  match pulled with
  | Some items => ret items
  | None => gets (fun st => JArr (getDiagnostics uri st))
  end.

(** [stop] (lines 872-895).  The process is killed unless it was killed
    already, and dropped from the state either way. *)
Definition stop (reply : ServerReply) : M unit :=
  fun st =>
    match process st with
    | None => (st, Normal tt)
    | Some _ =>
        let st1 :=
          fst (tryCatch
                 (sendRequest "shutdown" None reply ;;
                  sendNotification "exit" None)
                 (fun _ => ret tt) st) in
        (withProcess None st1, Normal tt)
    end.

End Operations.

End Client.

(** ** The tool handlers built on the client *)
Module Tools.
Import Json Client.
Open Scope client_scope.

(** The files on disk, by absolute path. *)
Definition Files := gmap string string.

(** [line: number | string] *)
Inductive LineArg :=
| LineNumber (n : Z)
| LineText (s : string).

(** [Result<T, string>] of neverthrow *)
Inductive ToolResult (A : Type) :=
| ok (value : A)
| err (message : string).

Arguments ok {A} value.
Arguments err {A} message.

Record ServerCharacteristics := {
  documentOpenDelay : Z;
  operationTimeout : Z
}.

Record Reference := {
  refFilePath : string;
  refLine : Z;
  refColumn : Z;
  refText : string;
  refPreview : string
}.

Record FileChange := {
  changeLine : Z;
  changeColumn : Z;
  oldText : string;
  newText : string
}.

Record RenameSymbolSuccess := {
  successMessage : string;
  changedFiles : list (string * list FileChange)
}.

(** Functions of the repository that are not among the sources
    ([shared/errors], [config/serverCharacteristics.ts],
    [shared/fileUtils.ts], [core/textUtils/*], the line and symbol
    validators of the client package): any functions of these types. *)
Class MissingHelpers := {
  (** what [withErrorHandling(fn, context)] makes of the outcome of [fn] *)
  withErrorHandling :
    forall T : Type, Completion T -> ErrorContext -> Completion T;
  getServerCharacteristics :
    string -> option ServerCharacteristics -> ServerCharacteristics;
  resolveLineParameter : list string -> LineArg -> Completion Z;
  (** content, uri *)
  readFileWithUri : Files -> string -> string -> Completion (string * string);
  (** lineIndex, symbolIndex *)
  validateLineAndSymbol :
    string -> LineArg -> string -> string -> Completion (Z * Z);
  (** [{ error }] or [{ targetLine, lineText }] *)
  parseLineNumber : string -> LineArg -> string + Z * string;
  (** [{ error }] or [{ characterIndex }] *)
  findSymbolInLine : string -> string -> string + Z;
  (** [{ error }] or [{ lineIndex, characterIndex }] *)
  findTargetInFile : list string -> string -> string + Z * Z
}.

(** Functions of the sources that only build text or walk and rewrite the
    disk.  They are parameters here: the properties below depend on whether
    they return or throw, not on the text they build. *)
Class Rendering := {
  (** [formatSignatureHelp] *)
  formatSignatureHelp : Json -> Completion string;
  (** the loop of [findReferencesWithLSP] that renders each location *)
  renderReferences : Files -> string -> Json -> Completion (list Reference);
  (** [findProjectFiles] *)
  findProjectFiles : Files -> string -> list string;
  (** [applyWorkspaceEdit]: the files after it, and its outcome *)
  applyWorkspaceEdit :
    Files -> string -> Json -> Files * Completion RenameSymbolSuccess;
  (** the text [lspRenameSymbolTool.execute] builds on success *)
  formatRenameOutput : string -> RenameSymbolSuccess -> string
}.

(** [fs.access], [fs.readFile], [readFileSync] *)
Definition readFile (files : Files) (path : string) : Completion string :=
  match files !! path with
  | Some content => Normal content
  | None =>
      Throw (newError ("ENOENT: no such file or directory, open '"
                       +:+ path +:+ "'"))
  end.


(** A value computed without the client, inside a client computation. *)
Definition lift {A : Type} (c : Completion A) : M A := fun st => (st, c).

(** *** lsp/client/lspOperations.ts: [withLSPOperation] *)

(** [LSPOperationOptions<T>].  The operation is a computation on the client;
    [client] is the client the state belongs to. *)
Record LSPOperationOptions (T : Type) := {
  fileUri : string;
  fileContent : string;
  optLanguageId : option string;
  waitTime : option Z;
  timeout : option Z;
  operation : M T;
  errorContext : option ErrorContext;
  serverCharacteristics : option ServerCharacteristics
}.

Arguments fileUri {T}.
Arguments fileContent {T}.
Arguments optLanguageId {T}.
Arguments waitTime {T}.
Arguments timeout {T}.
Arguments operation {T}.
Arguments errorContext {T}.
Arguments serverCharacteristics {T}.

Section Handlers.
Context `{ErrorFormatter} `{LanguageDetection} `{JsonParser} `{PathApi}
        `{MissingHelpers} `{Rendering}.

(** Which promise of [Promise.race] settles first. *)
Inductive Race :=
| OperationFirst
| TimerFirst.

Definition emptyContext : ErrorContext :=
  {| Client.operation := None; language := None; filePath := None;
     symbolName := None; details := None |}.

(** [withLSPOperation] (lines 55-99).  When the timer wins the race the
    operation goes on in the background: the state returned is the one
    after it, the outcome is the timer's. *)
Definition withLSPOperation {T : Type} (options : LSPOperationOptions T)
    (race : Race) : M T :=
  languageOfClient <- gets languageId ;;
  let characteristics :=
    getServerCharacteristics
      (if Js.truthy (Some languageOfClient) then languageOfClient
       else "unknown")
      (serverCharacteristics options) in
  let timeout' := default (operationTimeout characteristics) (timeout options) in
  let context := default emptyContext (errorContext options) in
  let actualLanguageId :=
    if Js.truthy (optLanguageId options)
    then default "" (optLanguageId options)
    else if Js.truthy (Some languageOfClient) then languageOfClient
    else "plaintext" in
  openDocument (fileUri options) (fileContent options) (Some actualLanguageId) ;;
  fun st =>
    let (st', outcome) := operation options st in
    let handled :=
      withErrorHandling T outcome
        {| Client.operation :=
             if Js.truthy (Client.operation context)
             then Client.operation context else Some "lsp_operation";
           language := language context;
           filePath := filePath context;
           symbolName := symbolName context;
           details := details context |} in
    match race with
    | OperationFirst => (st', handled)
    | TimerFirst =>
        (st', Throw (newError ("LSP operation timed out after "
                               +:+ Js.numberToString timeout' +:+ "ms")))
    end.

(** *** The signature help tool: [handleGetSignatureHelp] *)

(** [lines[lineIndex]] *)
Definition lineAt (lines : list string) (lineIndex : Z) : option string :=
  if lineIndex <? 0 then None else lines !! Z.to_nat lineIndex.


Definition place (filePath : string) (lineIndex character : Z) : string :=
  filePath +:+ ":" +:+ Js.numberToString (lineIndex + 1) +:+ ":"
    +:+ Js.numberToString (character + 1).


(** *** tools/lsp/references.ts: [findReferencesWithLSP] *)

Record FindReferencesRequest := {
  frRoot : string;
  frFilePath : string;
  frLine : LineArg;
  frSymbolName : string
}.

Record FindReferencesSuccess := {
  frMessage : string;
  references : list Reference
}.

Definition lineJson (line : LineArg) : Json :=
  match line with
  | LineNumber n => JNum n
  | LineText s => JStr s
  end.

(** [readFileWithMetadata] (lines 11-18): the content and the URI of what
    [readFileWithUri] gives. *)
Definition readFileWithMetadata (files : Files) (root filePath : string)
    : Completion (string * string) :=
  readFileWithUri files root filePath.

(** [findReferencesWithLSP] (lines 49-164), for a client that is there. *)
Definition findReferencesWithLSP (files : Files)
    (request : FindReferencesRequest) (reply : ServerReply)
    : M (ToolResult FindReferencesSuccess) :=
  tryCatch
    (match readFileWithMetadata files (frRoot request) (frFilePath request) with
     | Throw error =>
         ret (err (formatError error
                     {| Client.operation := Some "find references";
                        language := Some "lsp";
                        filePath := Some (frFilePath request);
                        symbolName := None;
                        details := None |}))
     | Normal (fileContent, fileUri) =>
         match validateLineAndSymbol fileContent (frLine request)
                 (frSymbolName request) (frFilePath request) with
         | Throw error =>
             ret (err (formatError error
                         {| Client.operation := Some "symbol validation";
                            language := None;
                            filePath := Some (frFilePath request);
                            symbolName := Some (frSymbolName request);
                            details :=
                              Some (JObj [("line", lineJson (frLine request))])
                         |}))
         | Normal (targetLine, symbolPosition) =>
             openDocument fileUri fileContent None ;;
             locations <-
               findReferences fileUri
                 {| Lsp.line := targetLine; Lsp.character := symbolPosition |}
                 reply ;;
             refs <- lift (renderReferences files (frRoot request) locations) ;;
             ret (ok {| frMessage :=
                          "Found "
                          +:+ Js.numberToString (Z.of_nat (length refs))
                          +:+ " reference"
                          +:+ (if (length refs =? 1)%nat then "" else "s")
                          +:+ " to "
                          +:+ Js.quoted (frSymbolName request);
                        references := refs |})
         end
     end)
    (fun error =>
       ret (err (formatError error
                   {| Client.operation := Some "find references";
                      language := Some "lsp";
                      filePath := Some (frFilePath request);
                      symbolName := Some (frSymbolName request);
                      details := None |}))).

(** *** The rename tool (second half of lsp/client/lspOperations.ts) *)

Record RenameSymbolRequest := {
  rnRoot : string;
  rnFilePath : string;
  rnLine : option LineArg;
  rnTarget : string;
  rnNewName : string
}.

(** [for (const x of xs) { body(x) }] *)
Fixpoint forEach {A : Type} (xs : list A) (body : A -> M unit) : M unit :=
  match xs with
  | [] => ret tt
  | x :: xs' => body x ;; forEach xs' body
  end.

(** The test of the [catch] around [client.rename] (lines 374-378). *)
Definition renameUnsupported (e : JsError) : bool :=
  bool_decide (errorCode e = Some (-32601))
  || Js.includes (errorMessage e) "Unhandled method"
  || Js.includes (errorMessage e) "Method not found".

(** [performRenameAtPosition] (lines 319-415).  The value is the files on
    disk when it returns, with its result: an exception raised once
    [applyWorkspaceEdit] has run reaches the same final [catch] as any
    other, with the files as [applyWorkspaceEdit] left them. *)
Definition performRenameAtPosition (files : Files)
    (request : RenameSymbolRequest) (fileUri fileContent : string)
    (targetLine symbolPosition : Z) (prepareReply renameReply : ServerReply)
    : M (Files * ToolResult RenameSymbolSuccess) :=
  let target := resolve (rnRoot request) (rnFilePath request) in
  let projectFiles := findProjectFiles files (rnRoot request) in
  let position :=
    {| Lsp.line := targetLine; Lsp.character := symbolPosition |} in
  tryCatch
    (forEach projectFiles
       (fun file =>
          if negb (bool_decide (file = target))
          then tryCatch
                 (content <- lift (readFile files file) ;;
                  openDocument ("file://" +:+ file) content None)
                 (fun _ => ret tt)
          else ret tt) ;;
     openDocument fileUri fileContent None ;;
     prepared <-
       tryCatch (r <- prepareRename fileUri position prepareReply ;;
                 ret (Some r))
                (fun _ => ret None) ;;
     match prepared with
     | Some JNull =>
         ret (files,
              err ("Cannot rename symbol at line "
                   +:+ Js.numberToString (targetLine + 1) +:+ ", column "
                   +:+ Js.numberToString (symbolPosition + 1)))
     | _ =>
       renamed <-
         tryCatch
           (w <- rename fileUri position (rnNewName request) renameReply ;;
            ret (inl w : Json + string))
           (fun error =>
              if renameUnsupported error
              then ret (inr "LSP server doesn't support rename operation")
              else throw error) ;;
       match renamed with
       | inr message => ret (files, err message)
       | inl workspaceEdit =>
           if negb (truthy workspaceEdit)
           then ret (files, err "No changes from LSP rename operation")
           else
             match applyWorkspaceEdit files (rnRoot request) workspaceEdit with
             | (files', Throw error) =>
                 ret (files', err (errorMessage error))
             | (files', Normal result) =>
                 tryCatch
                   (closeDocument fileUri ;;
                    forEach projectFiles
                      (fun file =>
                         if negb (bool_decide (file = target))
                         then tryCatch (closeDocument ("file://" +:+ file))
                                       (fun _ => ret tt)
                         else ret tt) ;;
                    ret (files', ok result))
                   (fun error => ret (files', err (errorMessage error)))
             end
       end
     end)
    (fun error => ret (files, err (errorMessage error))).

(** [performRenameWithLine] (lines 272-314) *)
Definition performRenameWithLine (files : Files)
    (request : RenameSymbolRequest) (line : LineArg)
    (prepareReply renameReply : ServerReply)
    : M (Files * ToolResult RenameSymbolSuccess) :=
  let absolutePath := resolve (rnRoot request) (rnFilePath request) in
  match readFile files absolutePath with
  | Throw error => ret (files, err (errorMessage error))
  | Normal fileContent =>
      let fileUri := "file://" +:+ absolutePath in
      match parseLineNumber fileContent line with
      | inl lineError =>
          ret (files,
               err ("Line parameter "
                    +:+ Js.quoted (match line with
                                   | LineNumber n => Js.numberToString n
                                   | LineText s => s
                                   end)
                    +:+ " not found in " +:+ rnFilePath request +:+ ": "
                    +:+ lineError))
      | inr (targetLine, lineText) =>
          match findSymbolInLine lineText (rnTarget request) with
          | inl symbolError =>
              ret (files,
                   err ("Symbol " +:+ Js.quoted (rnTarget request)
                        +:+ " not found on line "
                        +:+ Js.numberToString (targetLine + 1) +:+ ": "
                        +:+ symbolError))
          | inr symbolPosition =>
              performRenameAtPosition files request fileUri fileContent
                targetLine symbolPosition prepareReply renameReply
          end
      end
  end.

(** [performRenameWithoutLine] (lines 238-267) *)
Definition performRenameWithoutLine (files : Files)
    (request : RenameSymbolRequest) (prepareReply renameReply : ServerReply)
    : M (Files * ToolResult RenameSymbolSuccess) :=
  let absolutePath := resolve (rnRoot request) (rnFilePath request) in
  match readFile files absolutePath with
  | Throw error => ret (files, err (errorMessage error))
  | Normal fileContent =>
      let fileUri := "file://" +:+ absolutePath in
      match findTargetInFile (Js.splitLines fileContent) (rnTarget request) with
      | inl targetError =>
          ret (files, err (targetError +:+ " in " +:+ rnFilePath request))
      | inr (targetLine, symbolPosition) =>
          performRenameAtPosition files request fileUri fileContent
            targetLine symbolPosition prepareReply renameReply
      end
  end.

(** [handleRenameSymbol] (lines 609-621) *)
Definition handleRenameSymbol (files : Files) (request : RenameSymbolRequest)
    (prepareReply renameReply : ServerReply)
    : M (Files * ToolResult RenameSymbolSuccess) :=
  match rnLine request with
  | Some line =>
      performRenameWithLine files request line prepareReply renameReply
  | None => performRenameWithoutLine files request prepareReply renameReply
  end.

(** What a call of the [rename_symbol] tool leaves behind: the client, the
    files, and the text it returns or the error it throws (lines 663-685). *)
Record ToolRun := {
  clientAfter : LSPClientState;
  filesAfter : Files;
  outcome : Completion string
}.

(** [lspRenameSymbolTool.execute] *)
Definition renameSymbolTool (files : Files) (request : RenameSymbolRequest)
    (prepareReply renameReply : ServerReply) (st : LSPClientState)
    : ToolRun :=
  match handleRenameSymbol files request prepareReply renameReply st with
  | (st', Normal (files', ok success)) =>
      {| clientAfter := st'; filesAfter := files';
         outcome := Normal (formatRenameOutput (rnRoot request) success) |}
  | (st', Normal (files', err message)) =>
      {| clientAfter := st'; filesAfter := files';
         outcome := Throw (newError message) |}
  | (st', Throw error) =>
      {| clientAfter := st'; filesAfter := files; outcome := Throw error |}
  end.

End Handlers.

(** *** lsp/client/lspOperations.ts: [withBatchLSPOperation] *)

(** [BatchLSPOperationOptions<T>]; a file is its URI and its content. *)
Record BatchLSPOperationOptions (T : Type) := {
  batchFiles : list (string * string);
  batchLanguageId : option string;
  batchWaitTime : option Z;
  batchOperation : M T;
  batchErrorContext : option ErrorContext
}.

Arguments batchFiles {T}.
Arguments batchLanguageId {T}.
Arguments batchWaitTime {T}.
Arguments batchOperation {T}.
Arguments batchErrorContext {T}.

Section Batch.
Context `{ErrorFormatter} `{LanguageDetection} `{JsonParser}
        `{MissingHelpers}.

(** [withBatchLSPOperation] (lines 144-178).  The server characteristics
    give the time to wait and nothing else. *)
Definition withBatchLSPOperation {T : Type}
    (options : BatchLSPOperationOptions T) : M T :=
  languageOfClient <- gets languageId ;;
  let context := default emptyContext (batchErrorContext options) in
  let actualLanguageId :=
    if Js.truthy (batchLanguageId options)
    then default "" (batchLanguageId options)
    else if Js.truthy (Some languageOfClient) then languageOfClient
    else "plaintext" in
  forEach (batchFiles options)
    (fun file => openDocument file.1 file.2 (Some actualLanguageId)) ;;
  fun st =>
    let (st', outcome) := batchOperation options st in
    (st',
     withErrorHandling T outcome
       {| Client.operation :=
            if Js.truthy (Client.operation context)
            then Client.operation context else Some "batch_lsp_operation";
          language := language context;
          filePath := filePath context;
          symbolName := symbolName context;
          details := details context |}).

End Batch.

End Tools.

(** ** Text edits of the rename tool ([lsp/client/lspOperations.ts]) *)
Module Edits.
Import Lsp Client Tools.

(** [TextEdit] of [vscode-languageserver-types] *)
Record TextEdit := {
  editRange : Range;
  newText : string
}.

(** The edit that replaces what lies between two positions. *)
Definition textEdit (startLine startCol endLine endCol : Z) (text : string)
    : TextEdit :=
  {| editRange :=
       {| start := {| line := startLine; character := startCol |};
          end_ := {| line := endLine; character := endCol |} |};
     newText := text |}.

Definition LF : string := String "010"%char EmptyString.

(** [lines.join("\n")] *)
Fixpoint joinLines (lines : list string) : string :=
  match lines with
  | [] => EmptyString
  | [only] => only
  | text :: rest => text +:+ LF +:+ joinLines rest
  end.

(** The [TypeError] of [lines[i].substring(..)] when [lines[i]] is
    [undefined]. *)
Definition undefinedLine : JsError :=
  newError "Cannot read properties of undefined (reading 'substring')".

(** The comparison function of the sort (lines 558-563): by start line, then
    by start column, the later position first. *)
Definition compareEdits (a b : TextEdit) : Z :=
  if negb (line (start (editRange a)) =? line (start (editRange b)))
  then line (start (editRange b)) - line (start (editRange a))
  else character (start (editRange b)) - character (start (editRange a)).

(** [[...edits].sort(compare)].  [Array.prototype.sort] is stable: an edit
    goes before the first edit it is not to follow, and edits that compare
    equal keep their order. *)
Fixpoint insertEdit (edit : TextEdit) (sorted : list TextEdit)
    : list TextEdit :=
  match sorted with
  | [] => [edit]
  | next :: rest =>
      if compareEdits edit next <=? 0 then edit :: sorted
      else next :: insertEdit edit rest
  end.

Definition sortEdits (edits : list TextEdit) : list TextEdit :=
  fold_right insertEdit [] edits.

(** [lines.splice(at, count, ...inserted)] for an index [at] of the array:
    a negative count removes nothing. *)
Definition splice (lines : list string) (at_ count : Z)
    (inserted : list string) : list string :=
  take (Z.to_nat at_) lines ++ inserted
    ++ drop (Z.to_nat at_ + Z.to_nat (Z.max 0 count)) lines.

(** The body of the loop of [applyTextEditsToContent] (lines 569-602) for
    one edit. *)
Definition applyTextEdit (lines : list string) (edit : TextEdit)
    : Completion (list string) :=
  let startLine := line (start (editRange edit)) in
  let startCol := character (start (editRange edit)) in
  let endLine := line (end_ (editRange edit)) in
  let endCol := character (end_ (editRange edit)) in
  if startLine =? endLine then
    match lineAt lines startLine with
    | None => Throw undefinedLine
    | Some text =>
        Normal (<[Z.to_nat startLine :=
                    Js.substring text 0 startCol +:+ newText edit
                      +:+ Js.substringFrom text endCol]> lines)
    end
  else
    let newLines := Js.splitLines (newText edit) in
    match lineAt lines startLine with
    | None => Throw undefinedLine
    | Some first =>
        let before := Js.substring first 0 startCol in
        match lineAt lines endLine with
        | None => Throw undefinedLine
        | Some last =>
            let after := Js.substringFrom last endCol in
            let insertLines :=
              match newLines with
              | [] => [before +:+ after]  (* [split] gives no empty array *)
              | [only] => [before +:+ only +:+ after]
              | firstNew :: more =>
                  (before +:+ firstNew) :: removelast more
                    ++ [List.last more EmptyString +:+ after]
              end in
            Normal (splice lines startLine (endLine - startLine + 1)
                           insertLines)
        end
    end.

(** The loop over the sorted edits: an exception ends it. *)
Fixpoint applyTextEdits (lines : list string) (sorted : list TextEdit)
    : Completion (list string) :=
  match sorted with
  | [] => Normal lines
  | edit :: rest =>
      match applyTextEdit lines edit with
      | Normal lines' => applyTextEdits lines' rest
      | Throw e => Throw e
      end
  end.

(** [applyTextEditsToContent] (lines 556-604) *)
Definition applyTextEditsToContent (content : string) (edits : list TextEdit)
    : Completion string :=
  match applyTextEdits (Js.splitLines content) (sortEdits edits) with
  | Normal lines => Normal (joinLines lines)
  | Throw e => Throw e
  end.

(** The text an edit replaces (lines 525-535).  A line between the first
    and the last that is not there reads [undefined]. *)
Definition oldTextOf (lines : list string) (edit : TextEdit)
    : Completion string :=
  let startLine := line (start (editRange edit)) in
  let startCol := character (start (editRange edit)) in
  let endLine := line (end_ (editRange edit)) in
  let endCol := character (end_ (editRange edit)) in
  if startLine =? endLine then
    match lineAt lines startLine with
    | None => Throw undefinedLine
    | Some text => Normal (Js.substring text startCol endCol)
    end
  else
    match lineAt lines startLine with
    | None => Throw undefinedLine
    | Some first =>
        let between :=
          map (fun i => LF +:+ default "undefined"
                                 (lineAt lines (startLine + 1 + Z.of_nat i)))
              (seq 0 (Z.to_nat (endLine - (startLine + 1)))) in
        match lineAt lines endLine with
        | None => Throw undefinedLine
        | Some last =>
            Normal (Js.substringFrom first startCol
                    +:+ fold_right String.append EmptyString between
                    +:+ LF +:+ Js.substring last 0 endCol)
        end
    end.

(** [processTextEdits] (lines 513-551): the changes of one file, in the
    order of the edits, with 1-based positions. *)
Fixpoint processTextEdits (lines : list string) (edits : list TextEdit)
    : Completion (list FileChange) :=
  match edits with
  | [] => Normal []
  | edit :: rest =>
      match oldTextOf lines edit with
      | Throw e => Throw e
      | Normal old =>
          match processTextEdits lines rest with
          | Throw e => Throw e
          | Normal changes =>
              Normal ({| changeLine := line (start (editRange edit)) + 1;
                         changeColumn :=
                           character (start (editRange edit)) + 1;
                         oldText := old;
                         Tools.newText := newText edit |} :: changes)
          end
      end
  end.

(** *** [applyWorkspaceEdit] *)

(** An element of [documentChanges]: a [TextDocumentEdit] (what
    [TextDocumentEdit.is] accepts) with the URI of its document, or a
    resource operation (create, rename or delete a file). *)
Inductive DocumentChange :=
| textDocumentEdit (uri : string) (edits : list TextEdit)
| resourceOperation.

(** [WorkspaceEdit]; [changes] lists its properties in the order of
    [Object.entries]. *)
Record WorkspaceEdit := {
  changes : option (list (string * list TextEdit));
  documentChanges : option (list DocumentChange)
}.

(** [uri.replace("file://", "")]: the first occurrence goes. *)
Definition stripFileScheme (uri : string) : string :=
  match Js.find "file://" uri with
  | Some i => Js.take i uri +:+ Js.drop (i + 7) uri
  | None => uri
  end.

(** The documents the two loops of [applyWorkspaceEdit] go through, in
    their order, with their edits: the entries of [changes] with a URI that
    is not empty, then the text document edits with such a URI. *)
Definition changeTargets (edit : WorkspaceEdit)
    : list (string * list TextEdit) :=
  List.filter (fun entry => Js.truthy (Some entry.1))
              (default [] (changes edit)).

Definition documentChangeTargets (edit : WorkspaceEdit)
    : list (string * list TextEdit) :=
  flat_map (fun change =>
              match change with
              | textDocumentEdit uri edits =>
                  if Js.truthy (Some uri) then [(uri, edits)] else []
              | resourceOperation => []
              end)
           (default [] (documentChanges edit)).

(** The first part (lines 427-447): the lines of every file that is to be
    edited, read before anything is written. *)
Fixpoint collectFileContents (files : Files) (always : bool)
    (targets : list (string * list TextEdit))
    (contents : list (string * list string))
    : Completion (list (string * list string)) :=
  match targets with
  | [] => Normal contents
  | (uri, _) :: rest =>
      let filePath := stripFileScheme uri in
      if always || negb (JsMap.has filePath contents) then
        match readFile files filePath with
        | Throw e => Throw e
        | Normal content =>
            collectFileContents files always rest
              (JsMap.set filePath (Js.splitLines content) contents)
        end
      else collectFileContents files always rest contents
  end.

(** [existingFile.changes.push(...)] on the entry found for the file, or
    [changedFiles.push(fileChanges)]. *)
Definition recordChanges (merge : bool) (filePath : string)
    (fileChanges : list FileChange)
    (changedFiles : list (string * list FileChange))
    : list (string * list FileChange) :=
  if merge && JsMap.has filePath changedFiles
  then JsMap.replace filePath
         (default [] (JsMap.get filePath changedFiles) ++ fileChanges)
         changedFiles
  else changedFiles ++ [(filePath, fileChanges)].

(** One of the two loops that apply the edits (lines 450-492): the disk and
    the changed files so far, and the exception that ended the loop if one
    did. *)
Fixpoint applyTargets (contents : list (string * list string))
    (merge : bool) (targets : list (string * list TextEdit))
    (files : Files) (changedFiles : list (string * list FileChange))
    : Files * Completion (list (string * list FileChange)) :=
  match targets with
  | [] => (files, Normal changedFiles)
  | (uri, edits) :: rest =>
      let filePath := stripFileScheme uri in
      match JsMap.get filePath contents with
      | None => applyTargets contents merge rest files changedFiles
      | Some lines =>
          match processTextEdits lines edits with
          | Throw e => (files, Throw e)
          | Normal [] => applyTargets contents merge rest files changedFiles
          | Normal (change :: more) =>
              let changedFiles' :=
                recordChanges merge filePath (change :: more) changedFiles in
              match applyTextEditsToContent (joinLines lines) edits with
              | Throw e => (files, Throw e)
              | Normal newContent =>
                  applyTargets contents merge rest
                    (<[filePath := newContent]> files) changedFiles'
              end
          end
      end
  end.

(** [applyWorkspaceEdit] (lines 420-508): the disk after it, and its
    result.  The root is not used. *)
Definition applyWorkspaceEdit (files : Files) (_root : string)
    (edit : WorkspaceEdit) : Files * Completion RenameSymbolSuccess :=
  match collectFileContents files true (changeTargets edit) [] with
  | Throw e => (files, Throw e)
  | Normal contents1 =>
      match collectFileContents files false (documentChangeTargets edit)
              contents1 with
      | Throw e => (files, Throw e)
      | Normal contents =>
          match applyTargets contents false (changeTargets edit) files [] with
          | (files1, Throw e) => (files1, Throw e)
          | (files1, Normal changed1) =>
              match applyTargets contents true (documentChangeTargets edit)
                      files1 changed1 with
              | (files2, Throw e) => (files2, Throw e)
              | (files2, Normal changedFiles) =>
                  let totalChanges :=
                    fold_left (fun sum file => sum + Z.of_nat (length file.2))
                              changedFiles 0 in
                  (files2,
                   Normal
                     {| successMessage :=
                          "Successfully renamed symbol in "
                          +:+ Js.numberToString
                                (Z.of_nat (length changedFiles))
                          +:+ " file(s) with "
                          +:+ Js.numberToString totalChanges
                          +:+ " change(s)";
                        Tools.changedFiles := changedFiles |})
              end
          end
      end
  end.

End Edits.

(** ** The pool of language server processes ([lspProcessPool]) *)
Module Pool.
Import Client.

(** A client with its server process, known by a handle, and the number of
    holders the pool counts for it. *)
Record PooledLSPClient := {
  client : Z;
  refCount : Z
}.

(** [poolState], with the clients on which [stop()] was called so far, in
    the order of the calls.  A promise of [initPromises] stands for a
    creation that is under way. *)
Record LSPProcessPoolState := {
  pool : list (string * PooledLSPClient);
  initPromises : gset string;
  stopped : list Z
}.

Definition emptyPool : LSPProcessPoolState :=
  {| pool := []; initPromises := ∅; stopped := [] |}.

(** How far a call of [acquire] gets before it has to wait. *)
Inductive Acquired :=
| Shared (pooled : PooledLSPClient)   (* the pooled client, counted once more *)
| Joined                              (* the promise of a creation under way *)
| Creating.                           (* a creation of its own *)

(** [acquire] up to its [await] (lines 69-85). *)
Definition acquireStart (root : string) (st : LSPProcessPoolState)
    : LSPProcessPoolState * Acquired :=
  match JsMap.get root (pool st) with
  | Some existing =>
      let counted := {| client := client existing;
                        refCount := refCount existing + 1 |} in
      ({| pool := JsMap.set root counted (pool st);
          initPromises := initPromises st;
          stopped := stopped st |},
       Shared counted)
  | None =>
      if bool_decide (root ∈ initPromises st) then (st, Joined)
      else ({| pool := pool st;
               initPromises := {[root]} ∪ initPromises st;
               stopped := stopped st |},
            Creating)
  end.

(** The rest of the call that started the creation (lines 87-93), once
    [createClient] has settled: with a client, whose count is 1, or with an
    exception. *)
Definition creationSettled (root : string) (created : Completion Z)
    (st : LSPProcessPoolState)
    : LSPProcessPoolState * Completion PooledLSPClient :=
  match created with
  | Normal handle =>
      let pooled := {| client := handle; refCount := 1 |} in
      ({| pool := JsMap.set root pooled (pool st);
          initPromises := initPromises st ∖ {[root]};
          stopped := stopped st |},
       Normal pooled)
  | Throw e =>
      ({| pool := pool st;
          initPromises := initPromises st ∖ {[root]};
          stopped := stopped st |},
       Throw e)
  end.

(** [await acquire(root)] when no other call of the pool runs in between;
    [created] is what [createClient] gives if it is called. *)
Definition acquire (root : string) (created : Completion Z)
    (st : LSPProcessPoolState)
    : LSPProcessPoolState * Completion PooledLSPClient :=
  match acquireStart root st with
  | (st', Shared pooled) => (st', Normal pooled)
  | (st', Joined) =>
      (* the promise of the creation under way: it settles as the creation
         does, and the pool is updated by the call that started it *)
      match created with
      | Normal handle =>
          (st', Normal {| client := handle; refCount := 1 |})
      | Throw e => (st', Throw e)
      end
  | (st', Creating) => creationSettled root created st'
  end.

(** [cleanup] (lines 61-67): [stop()] is called, what it throws is
    ignored. *)
Definition cleanup (pooled : PooledLSPClient) (st : LSPProcessPoolState)
    : LSPProcessPoolState :=
  {| pool := pool st; initPromises := initPromises st;
     stopped := stopped st ++ [client pooled] |}.

(** [release] (lines 96-108) *)
Definition release (root : string) (st : LSPProcessPoolState)
    : LSPProcessPoolState :=
  match JsMap.get root (pool st) with
  | None => st
  | Some pooled =>
      let counted := {| client := client pooled;
                        refCount := refCount pooled - 1 |} in
      if refCount counted <=? 0 then
        cleanup counted
          {| pool := JsMap.delete root (pool st);
             initPromises := initPromises st;
             stopped := stopped st |}
      else
        {| pool := JsMap.set root counted (pool st);
           initPromises := initPromises st;
           stopped := stopped st |}
  end.

(** [shutdown] (lines 110-119): every client of the pool is taken out and
    stopped, in the order of the pool. *)
Definition shutdown (st : LSPProcessPoolState) : LSPProcessPoolState :=
  fold_left
    (fun acc entry =>
       cleanup entry.2
         {| pool := JsMap.delete entry.1 (pool acc);
            initPromises := initPromises acc;
            stopped := stopped acc |})
    (pool st) st.

(** The pool counts at least one holder for each of its clients. *)
Definition counted (st : LSPProcessPoolState) : Prop :=
  forall root pooled,
    JsMap.get root (pool st) = Some pooled -> 1 <= refCount pooled.

End Pool.

(** ** Display helpers ([formatFilePath]) *)
Module Format.

(** [s.endsWith(suffix)] *)
Definition endsWith (s suffix : string) : bool :=
  (String.length suffix <=? String.length s)%nat
  && bool_decide
       (Js.drop (String.length s - String.length suffix) s = suffix).

(** [s.slice(a)] for an index [a] that is not negative. *)
Definition sliceFrom (s : string) (a : Z) : string := Js.drop (Z.to_nat a) s.

(** [formatFilePath]: the path under a root it starts with. *)
Definition formatFilePath (absolutePath root : string) : string :=
  if Js.startsWith root absolutePath then
    let offset :=
      if endsWith root "/" then Js.length root else Js.length root + 1 in
    sliceFrom absolutePath offset
  else absolutePath.

End Format.

(** ** Sample data for the counterexamples and witnesses *)
Module Samples.
Import Lsp SymbolIndex.

(** Paths as on a POSIX host, for an absolute root and a plain relative
    path. *)
Definition posixPaths : PathApi :=
  {| resolve := fun root p =>
       if bool_decide (p = "") then root else root +:+ "/" +:+ p;
     pathToFileURL := fun p => "file://" +:+ p;
     isAbsolute := fun p => Js.startsWith "/" p;
     join := fun a b => a +:+ "/" +:+ b |}.

Definition pos (l c : Z) : Position := {| line := l; character := c |}.

Definition span (l1 c1 l2 c2 : Z) : Range :=
  {| start := pos l1 c1; end_ := pos l2 c2 |}.

Definition leaf (nm : string) (kd : SymbolKind) (u : string) (r : Range)
    : SymbolEntry :=
  mkSymbolEntry nm kd {| uri := u; range := r |} None None None None None None.

(** [a.ts]: two functions side by side on line 0, [first] ending where
    [second] starts. *)
Definition aUri : string := "file:///proj/a.ts".

Definition first : SymbolEntry := leaf "first" SymbolKind_Function aUri (span 0 0 0 14).

Definition second : SymbolEntry := leaf "second" SymbolKind_Function aUri (span 0 14 0 28).

(** A declaration of the library [neverthrow]. *)
Definition okUri : string := "file:///proj/node_modules/neverthrow/index.d.ts".

Definition okDecl : SymbolEntry := leaf "ok" SymbolKind_Function okUri (span 3 0 3 40).

Definition emptyIndex : SymbolIndexState :=
  @createSymbolIndexState posixPaths "/proj".

(** The index after [a.ts] was indexed. *)
Definition indexWithA : SymbolIndexState :=
  storeFileSymbols emptyIndex aUri 0 [first; second].

(** ... and after the external library was indexed too. *)
Definition indexWithLibrary : SymbolIndexState :=
  addExternalFile indexWithA
    {| fs_uri := okUri; lastModified := 0; symbols := [okDecl] |} "neverthrow".



(** *** A client *)

Import Json Client.

(** A formatter that keeps the message and names the operation. *)
Definition sampleFormatter : ErrorFormatter :=
  {| formatError := fun e context =>
       "Error: " +:+ errorMessage e +:+
       match operation context with
       | Some op => " (" +:+ op +:+ ")"
       | None => ""
       end |}.

Definition sampleDetection : LanguageDetection :=
  {| getLanguageIdFromPath := fun path =>
       if Js.includes path ".ts" then Some "typescript" else None |}.

Definition sampleProcess : ChildProcess :=
  {| stdin := Some []; killed := false |}.

Definition tsClient : LSPClientState :=
  createLSPClient (Some sampleProcess) "/proj" (Some "typescript").

(** A diagnostic whose range is empty: it starts and ends at 0:0. *)
Definition emptyRangeDiagnostic : Json :=
  JObj [("range",
         JObj [("start", positionJson (pos 0 0));
               ("end", positionJson (pos 0 0))]);
        ("severity", JNum 1);
        ("message", JStr "Unexpected end of input")].

(** A diagnostic without a range. *)
Definition rangelessDiagnostic : Json :=
  JObj [("severity", JNum 2); ("message", JStr "no position")].

Definition publishDiagnostics (uri : string) (items : list Json)
    : LSPMessage :=
  notification "textDocument/publishDiagnostics"
    (Some (JObj [("uri", JStr uri); ("diagnostics", JArr items)])).

(** [// café]: the last code unit is U+00E9. *)
Definition accentedText : string := "// caf" +:+ String "233"%char EmptyString.

Definition didOpenAccented : LSPMessage :=
  notification "textDocument/didOpen"
    (Some (didOpenParams aUri "typescript" accentedText)).

Definition exitNotification : LSPMessage := notification "exit" None.

(** A parser that knows the serialization of these two messages. *)
Definition sampleParser : JsonParser :=
  {| JSON_parse := fun body =>
       if bool_decide (body = stringify (messageToJson exitNotification))
       then Some exitNotification
       else if bool_decide (body = stringify (messageToJson didOpenAccented))
       then Some didOpenAccented
       else None |}.

Definition openA : M unit :=
  @openDocument sampleDetection aUri "const a = 1;" None.

Definition didOpenA : string :=
  frameOf (notification "textDocument/didOpen"
             (Some (didOpenParams aUri "typescript" "const a = 1;"))).

(** *** The tools *)

Import Tools.

(** The first line of [lines] that contains [target], from line [index]
    on, with the column. *)
Fixpoint firstOccurrence (lines : list string) (target : string) (index : Z)
    : option (Z * Z) :=
  match lines with
  | [] => None
  | text :: rest =>
      if Js.includes text target
      then Some (index, Js.indexOf text target)
      else firstOccurrence rest target (index + 1)
  end.

(** Stand-ins for the helpers that are not among the sources: lines are
    given by 1-based number, symbols are found by their first occurrence,
    errors pass through unchanged. *)
Definition sampleHelpers : MissingHelpers :=
  {| withErrorHandling := fun _ outcome _ => outcome;
     getServerCharacteristics := fun _ override =>
       default {| documentOpenDelay := 1000; operationTimeout := 30000 |}
               override;
     resolveLineParameter := fun _ line =>
       match line with
       | LineNumber n => Normal (n - 1)
       | LineText _ => Throw (newError "Line not found")
       end;
     readFileWithUri := fun files root path =>
       match readFile files (root +:+ "/" +:+ path) with
       | Normal content => Normal (content, "file://" +:+ root +:+ "/" +:+ path)
       | Throw e => Throw e
       end;
     validateLineAndSymbol := fun content line symbol _ =>
       match line with
       | LineNumber n =>
           match firstOccurrence
                   (drop (Z.to_nat (n - 1)) (Js.splitLines content))
                   symbol (n - 1) with
           | Some (found, column) =>
               if found =? n - 1 then Normal (found, column)
               else Throw (newError "Symbol not found on line")
           | None => Throw (newError "Symbol not found on line")
           end
       | LineText _ => Throw (newError "Line not found")
       end;
     parseLineNumber := fun content line =>
       match line with
       | LineNumber n =>
           match Js.splitLines content !! Z.to_nat (n - 1) with
           | Some text => inr (n - 1, text)
           | None => inl "Line out of range"
           end
       | LineText _ => inl "Line not found"
       end;
     findSymbolInLine := fun text target =>
       if Js.includes text target then inr (Js.indexOf text target)
       else inl "Symbol not found";
     findTargetInFile := fun lines target =>
       match firstOccurrence lines target 0 with
       | Some place => inr place
       | None => inl "Symbol not found"
       end |}.

(** A project of two files. *)
Definition sampleFiles : Files :=
  <["/proj/a.ts" := "const a = 1;"]>
    (<["/proj/b.ts" := "import './a';"]> ∅).

(** Stand-ins for the text builders and the walk of the disk: the project
    is its two files, an edit is applied without a change. *)
Definition sampleRendering : Rendering :=
  {| formatSignatureHelp := fun _ => Normal "Signature: f(x)";
     renderReferences := fun _ _ _ => Normal [];
     findProjectFiles := fun _ root => [root +:+ "/a.ts"; root +:+ "/b.ts"];
     applyWorkspaceEdit := fun files _ _ =>
       (files,
        Normal {| successMessage := "Successfully renamed symbol";
                  changedFiles := [] |});
     formatRenameOutput := fun _ success => successMessage success |}.

(** [lsp_find_references] for [a] on line 1 of [a.ts]. *)
Definition referencesOfA : FindReferencesRequest :=
  {| frRoot := "/proj"; frFilePath := "a.ts"; frLine := LineNumber 1;
     frSymbolName := "a" |}.

(** A hover on [a] through [withLSPOperation], the server answering
    null. *)
Definition hoverOnA : LSPOperationOptions Json :=
  {| fileUri := aUri;
     fileContent := "const a = 1;";
     optLanguageId := None;
     waitTime := None;
     timeout := None;
     operation := @getHover sampleFormatter aUri (pos 0 6) (ReplyResult JNull);
     errorContext := None;
     serverCharacteristics := None |}.

(** The stored diagnostics of the two files of the project, through
    [withBatchLSPOperation]. *)
Definition diagnosticsOfProject : BatchLSPOperationOptions (list Json) :=
  {| batchFiles := [(aUri, "const a = 1;");
                    ("file:///proj/b.ts", "import './a';")];
     batchLanguageId := None;
     batchWaitTime := None;
     batchOperation :=
       gets (fun st => getDiagnostics aUri st
                       ++ getDiagnostics "file:///proj/b.ts" st);
     batchErrorContext := None |}.

(** [rename_symbol] of [a] to [b] in [a.ts], no line given. *)
Definition renameAToB : RenameSymbolRequest :=
  {| rnRoot := "/proj"; rnFilePath := "a.ts"; rnLine := None;
     rnTarget := "a"; rnNewName := "b" |}.

(** The answer of a server that accepts the position for a rename. *)
Definition renameRange : list (string * Json) :=
  [("start", positionJson (pos 0 6)); ("end", positionJson (pos 0 7))].

(** The answer of a server that has no [textDocument/rename]. *)
Definition methodNotFound : ResponseError :=
  {| code := -32601; message := "Method not found"; data := None |}.

(** *** Edits *)

Import Edits.

(** One line in which [a] occurs twice, and the two edits that rename it
    to [n]. *)
Definition incrementText : string := "const a = a + 1;".

Definition renameFirst : TextEdit := textEdit 0 6 0 7 "n".

Definition renameSecond : TextEdit := textEdit 0 10 0 11 "n".

(** A disk with the one file [inc.ts], and the edit that renames [a] in
    it. *)
Definition incrementFiles : Files := <["/proj/inc.ts" := incrementText]> ∅.

Definition renameInIncrement : WorkspaceEdit :=
  {| changes := Some [("file:///proj/inc.ts", [renameFirst; renameSecond])];
     documentChanges := None |}.


End Samples.

(* ###################################################################### *)
(** * Part II. Properties *)
(* ###################################################################### *)

(** ** Lookups in an insertion-ordered map *)
Module JsMapFacts.

Section Lookups.
Context {K V : Type} `{EqDecision K}.
Implicit Types (k : K) (v : V) (m : list (K * V)).

Lemma get_replace_eq k v m :
  JsMap.has k m = true -> JsMap.get k (JsMap.replace k v m) = Some v.
Proof.
  unfold JsMap.has.
  induction m as [|[k' v'] m IH]; simpl; [discriminate|].
  destruct (decide (k' = k)) as [->|Hne]; simpl.
  - intros _. now rewrite decide_True.
  - intros Hhas. rewrite decide_False by assumption. now apply IH.
Qed.

Lemma get_replace_ne k k' v m :
  k <> k' -> JsMap.get k' (JsMap.replace k v m) = JsMap.get k' m.
Proof.
  intros Hne.
  induction m as [|[k0 v0] m IH]; simpl; [reflexivity|].
  destruct (decide (k0 = k)) as [->|Hk0]; simpl.
  - now rewrite !decide_False by assumption.
  - destruct (decide (k0 = k')); [reflexivity | apply IH].
Qed.

Lemma get_app k m m' :
  JsMap.get k (m ++ m') =
  match JsMap.get k m with Some v => Some v | None => JsMap.get k m' end.
Proof.
  induction m as [|[k0 v0] m IH]; simpl; [reflexivity|].
  destruct (decide (k0 = k)); [reflexivity | apply IH].
Qed.

Lemma get_set_eq k v m : JsMap.get k (JsMap.set k v m) = Some v.
Proof.
  unfold JsMap.set.
  destruct (JsMap.has k m) eqn:Hhas.
  - now apply get_replace_eq.
  - rewrite get_app. unfold JsMap.has in Hhas.
    destruct (JsMap.get k m); [discriminate|].
    simpl. now rewrite decide_True.
Qed.

Lemma get_set_ne k k' v m :
  k <> k' -> JsMap.get k' (JsMap.set k v m) = JsMap.get k' m.
Proof.
  intros Hne. unfold JsMap.set.
  destruct (JsMap.has k m).
  - now apply get_replace_ne.
  - rewrite get_app. destruct (JsMap.get k' m); [reflexivity|].
    simpl. now rewrite decide_False.
Qed.

Lemma get_delete_eq k m : JsMap.get k (JsMap.delete k m) = None.
Proof.
  unfold JsMap.delete.
  induction m as [|[k0 v0] m IH]; simpl; [reflexivity|].
  destruct (bool_decide_reflect (k0 = k)) as [->|Hne]; simpl; [apply IH|].
  now rewrite decide_False.
Qed.

Lemma get_delete_ne k k' m :
  k <> k' -> JsMap.get k' (JsMap.delete k m) = JsMap.get k' m.
Proof.
  intros Hne. unfold JsMap.delete.
  induction m as [|[k0 v0] m IH]; simpl; [reflexivity|].
  destruct (bool_decide_reflect (k0 = k)) as [->|Hk0]; simpl.
  - now rewrite decide_False.
  - destruct (decide (k0 = k')); [reflexivity | apply IH].
Qed.

Lemma get_Some_In k v m : JsMap.get k m = Some v -> In (k, v) m.
Proof.
  induction m as [|[k0 v0] m IH]; simpl; [discriminate|].
  destruct (decide (k0 = k)) as [->|Hne].
  - intros [= ->]. now left.
  - intros Hget. right. now apply IH.
Qed.

End Lookups.

End JsMapFacts.

(** ** The symbol index *)
Module SymbolIndexFacts.
Import Lsp SymbolIndex JsMapFacts.

(** *** Removal of a file *)

Section Clearing.
Context {K : Type} `{EqDecision K}.
Implicit Types (m acc : list (K * list SymbolEntry)).

(** An entry survives the filter of [clearFromMap] only with another URI. *)
Lemma kept_entries_elsewhere (u : string) (entries : list SymbolEntry) :
  Forall (fun e => entryUri e <> u)
         (List.filter (fun e => negb (bool_decide (entryUri e = u))) entries).
Proof.
  apply List.Forall_forall. intros e He.
  apply List.filter_In in He as [_ He].
  destruct (bool_decide_reflect (entryUri e = u)); [discriminate | assumption].
Qed.

(** While the pass of [clearFromMap] is under way, a key is bound to a
    filtered list or is still to be visited. *)
Lemma clearing_pass (u : string) (todo : list (K * list SymbolEntry)) :
  forall acc,
    (forall k es, JsMap.get k acc = Some es ->
       Forall (fun e => entryUri e <> u) es \/ exists es', In (k, es') todo) ->
    forall k es,
      JsMap.get k
        (fold_left
           (fun acc kv =>
              let filtered :=
                List.filter (fun e => negb (bool_decide (entryUri e = u))) kv.2 in
              match filtered with
              | [] => JsMap.delete kv.1 acc
              | _ :: _ => JsMap.set kv.1 filtered acc
              end) todo acc) = Some es ->
      Forall (fun e => entryUri e <> u) es.
Proof.
  induction todo as [|[k0 es0] todo IH]; intros acc Hinv k es; simpl.
  - intros Hget. destruct (Hinv _ _ Hget) as [Hclean|[? []]]. exact Hclean.
  - apply IH. clear k es. intros k es.
    pose proof (kept_entries_elsewhere u es0) as Hkept.
    destruct (List.filter _ es0) as [|e1 kept] eqn:Hfilter.
    + destruct (decide (k0 = k)) as [->|Hne].
      * rewrite get_delete_eq. discriminate.
      * rewrite get_delete_ne by assumption. intros Hget.
        destruct (Hinv _ _ Hget) as [Hclean|[es' Hin]]; [now left|].
        right. exists es'. destruct Hin as [[= ? ?]|Hin]; [congruence | exact Hin].
    + destruct (decide (k0 = k)) as [->|Hne].
      * rewrite get_set_eq. intros [= <-]. now left.
      * rewrite get_set_ne by assumption. intros Hget.
        destruct (Hinv _ _ Hget) as [Hclean|[es' Hin]]; [now left|].
        right. exists es'. destruct Hin as [[= ? ?]|Hin]; [congruence | exact Hin].
Qed.

Lemma clearFromMap_elsewhere (u : string) m k es :
  JsMap.get k (clearFromMap u m) = Some es ->
  Forall (fun e => entryUri e <> u) es.
Proof.
  unfold clearFromMap. apply clearing_pass.
  intros k' es' Hget. right. exists es'. now apply get_Some_In.
Qed.

End Clearing.

(** C8.  After [removeFileFromIndex state p], whatever list the name index,
    the kind index or the container index binds to a key holds no entry
    whose location URI is the file URI of [p], and the file index has no
    record for that URI. *)
Theorem removeFileFromIndex_leaves_no_entry `{PathApi}
    (state : SymbolIndexState) (filePath : string) :
  let uri := pathToFileURL (resolve (rootPath state) filePath) in
  let state' := removeFileFromIndex state filePath in
  (forall nm es, JsMap.get nm (symbolIndex state') = Some es ->
     Forall (fun e => entryUri e <> uri) es) /\
  (forall kd es, JsMap.get kd (kindIndex state') = Some es ->
     Forall (fun e => entryUri e <> uri) es) /\
  (forall c es, JsMap.get c (containerIndex state') = Some es ->
     Forall (fun e => entryUri e <> uri) es) /\
  JsMap.get uri (fileIndex state') = None.
Proof.
  cbn zeta. unfold removeFileFromIndex, updateStats, clearFileFromIndices; simpl.
  repeat split.
  - intros nm es. apply clearFromMap_elsewhere.
  - intros kd es. apply clearFromMap_elsewhere.
  - intros c es. apply clearFromMap_elsewhere.
  - apply get_delete_eq.
Qed.

(** *** The external-library filter *)





(** *** Positions and ranges *)

(** Induction over a symbol tree: a property holds of every entry if it
    holds of an entry as soon as it holds of the entry's children. *)
Lemma SymbolEntry_tree_ind (P : SymbolEntry -> Prop) :
  (forall s,
      match children s with Some cs => Forall P cs | None => True end -> P s) ->
  forall s, P s.
Proof.
  intros step. fix IH 1. intros s. apply step.
  destruct s as [nm kd loc ct dp dt kids ex sl]; simpl.
  destruct kids as [cs|]; [|exact I].
  induction cs as [|c cs IHcs]; constructor; [apply IH | exact IHcs].
Qed.

(** [findSymbol] as the source writes it. *)
Lemma findSymbol_cons (position : Position) (symbol : SymbolEntry)
    (rest : list SymbolEntry) :
  findSymbol position (symbol :: rest) =
  if positionInRange position (range (location symbol)) then
    match children symbol with
    | Some cs =>
        match findSymbol position cs with
        | Some child => Some child
        | None => Some symbol
        end
    | None => Some symbol
    end
  else findSymbol position rest.
Proof.
  destruct symbol as [nm kd loc ct dp dt kids ex sl]; simpl.
  destruct (positionInRange position (range loc)); [|reflexivity].
  destruct kids as [cs|]; [|reflexivity].
  match goal with
  | |- match match ?loop cs with Some _ => _ | None => _ end
             with Some _ => _ | None => _ end = _ =>
      assert (Hloop : forall l, loop l = findSymbol position l)
  end.
  { induction l as [|c l IHl]; [reflexivity|]. simpl. now rewrite IHl. }
  rewrite Hloop. now destruct (findSymbol position cs).
Qed.

Lemma findSymbol_nil (position : Position) : findSymbol position [] = None.
Proof. reflexivity. Qed.



(** Whatever [findSymbol] returns holds the position. *)
Lemma findSymbol_inside (position : Position) :
  forall syms r, findSymbol position syms = Some r -> inside position r.
Proof.
  assert (Hone : forall s rest r,
             findSymbol position (s :: rest) = Some r ->
             (forall r', findSymbol position rest = Some r' -> inside position r') ->
             inside position r).
  { intros s. induction s as [s IHkids] using SymbolEntry_tree_ind.
    intros rest r. rewrite findSymbol_cons.
    destruct (positionInRange position (range (location s))) eqn:Hin.
    - intros Hfound _. destruct (children s) as [cs|].
      + destruct (findSymbol position cs) as [child|] eqn:Hcs.
        * injection Hfound as <-.
          clear Hin. revert child Hcs.
          induction IHkids as [|c cs Hc _ IHcs]; intros child Hcs.
          -- discriminate.
          -- apply (Hc cs child Hcs). exact IHcs.
        * now injection Hfound as <-.
      + now injection Hfound as <-.
    - intros Hfound Hrest. now apply Hrest. }
  induction syms as [|s rest IHrest]; intros r Hr.
  - discriminate.
  - apply (Hone s rest r Hr). exact IHrest.
Qed.

Lemma findSymbol_outside (position : Position) (syms : list SymbolEntry) :
  Forall (outside position) syms -> findSymbol position syms = None.
Proof.
  induction 1 as [|s rest Hs _ IH]; [reflexivity|].
  rewrite findSymbol_cons. unfold outside in Hs. now rewrite Hs.
Qed.

(** A symbol of the list that holds the position makes the search succeed. *)
Lemma findSymbol_finds (position : Position) (syms : list SymbolEntry)
    (s : SymbolEntry) :
  In s syms -> inside position s ->
  exists r, findSymbol position syms = Some r.
Proof.
  intros Hin Hs. induction syms as [|a rest IH]; [contradiction|].
  rewrite findSymbol_cons.
  destruct (positionInRange position (range (location a))) eqn:Ha.
  - destruct (children a) as [cs|]; [|eauto].
    destruct (findSymbol position cs); eauto.
  - destruct Hin as [->|Hin]; [|now apply IH].
    unfold inside in Hs. congruence.
Qed.









(** *** The claims on the sample index *)

Section OnSamples.
Import Samples.

(** Removing [a.ts] from the sample index leaves the library's symbol as the
    only entry of the name index. *)
Example removeFileFromIndex_sample :
  map fst (symbolIndex (@removeFileFromIndex posixPaths indexWithLibrary "a.ts"))
  = ["ok"].
Proof. reflexivity. Qed.





End OnSamples.

End SymbolIndexFacts.

(** ** The client *)
Module ClientFacts.
Import Json Client.
Open Scope client_scope.

(** *** Sending *)

Lemma sendMessage_attached (m : LSPMessage) (st : LSPClientState)
    (p : ChildProcess) :
  process st = Some p ->
  sendMessage m st =
  (withProcess (Some (afterWrite (frameOf m) p)) st, Normal tt).
Proof. intros Hp. unfold sendMessage. now rewrite Hp. Qed.

Lemma sendMessage_detached (m : LSPMessage) (st : LSPClientState) :
  process st = None ->
  sendMessage m st = (st, Throw (newError "LSP server not started")).
Proof. intros Hp. unfold sendMessage. now rewrite Hp. Qed.

(** Sending changes the process and nothing else. *)
Lemma sendMessage_frame (m : LSPMessage) (st : LSPClientState) :
  let st' := fst (sendMessage m st) in
  messageId st' = messageId st /\
  responseHandlers st' = responseHandlers st /\
  diagnostics st' = diagnostics st /\
  openDocuments st' = openDocuments st /\
  timers st' = timers st /\
  settled st' = settled st /\
  languageId st' = languageId st /\
  (is_Some (process st') <-> is_Some (process st)).
Proof.
  unfold sendMessage. destruct (process st) as [p|] eqn:Hp; simpl.
  - repeat split; eauto.
  - rewrite Hp. repeat split; intros [? [=]].
Qed.

(** *** Documents *)

(** C6, as the code has it.  [openDocument] does not consult the set of open
    documents.  With a server process attached it returns normally, writes
    one [textDocument/didOpen] notification (version 1) and adds the URI to
    the set, whether or not the URI was in it; without a process it throws
    before it touches the state. *)
Theorem openDocument_ignores_open_set `{LanguageDetection}
    (st : LSPClientState) (uri text : string) (language : option string) :
  (forall p, process st = Some p ->
     openDocument uri text language st =
     (withOpenDocuments ({[uri]} ∪ openDocuments st)
        (withProcess
           (Some (afterWrite
                    (frameOf
                       (notification "textDocument/didOpen"
                          (Some (didOpenParams uri
                                   (actualLanguageId uri language st) text))))
                    p)) st),
      Normal tt)) /\
  (process st = None ->
     openDocument uri text language st =
     (st, Throw (newError "LSP server not started"))).
Proof.
  split.
  - intros p Hp.
    unfold openDocument, bind, gets, sendNotification, modify.
    now rewrite (sendMessage_attached _ _ p Hp).
  - intros Hp.
    unfold openDocument, bind, gets, sendNotification, modify.
    now rewrite (sendMessage_detached _ _ Hp).
Qed.

Lemma closeDocument_attached (st : LSPClientState) (uri : string)
    (p : ChildProcess) :
  process st = Some p ->
  closeDocument uri st =
  (withOpenDocuments (openDocuments st ∖ {[uri]})
     (withDiagnostics (delete uri (diagnostics st))
        (withProcess
           (Some (afterWrite
                    (frameOf (notification "textDocument/didClose"
                                (Some (didCloseParams uri)))) p)) st)),
   Normal tt).
Proof.
  intros Hp. unfold closeDocument, bind, sendNotification, modify.
  now rewrite (sendMessage_attached _ _ p Hp).
Qed.

Lemma closeDocument_detached (st : LSPClientState) (uri : string) :
  process st = None ->
  closeDocument uri st = (st, Throw (newError "LSP server not started")).
Proof.
  intros Hp. unfold closeDocument, bind, sendNotification, modify.
  now rewrite (sendMessage_detached _ _ Hp).
Qed.

(** C10, as the code has it.  With a server process attached
    [closeDocument] returns normally for every URI, opened or not; without
    one it throws and leaves the state alone.  Either way a second call in
    a row leaves the set of open documents and the diagnostics map as the
    first call left them. *)
Theorem closeDocument_total_when_attached (st : LSPClientState)
    (uri : string) :
  (is_Some (process st) -> snd (closeDocument uri st) = Normal tt) /\
  (process st = None ->
     closeDocument uri st = (st, Throw (newError "LSP server not started"))) /\
  (let once := fst (closeDocument uri st) in
   let twice := fst (closeDocument uri once) in
   openDocuments twice = openDocuments once /\
   diagnostics twice = diagnostics once).
Proof.
  split; [|split].
  - intros [p Hp]. now rewrite (closeDocument_attached _ _ p Hp).
  - apply closeDocument_detached.
  - cbn zeta. destruct (process st) as [p|] eqn:Hp.
    + rewrite (closeDocument_attached _ _ p Hp). cbn [fst].
      erewrite closeDocument_attached by reflexivity. cbn.
      split; [|apply delete_delete_eq].
      apply set_eq. intros x. rewrite !elem_of_difference. tauto.
    + rewrite (closeDocument_detached _ _ Hp). cbn [fst].
      now rewrite (closeDocument_detached _ _ Hp).
Qed.

(** *** Diagnostics *)

Lemma validDiagnostic_spec (d : Json) :
  validDiagnostic d = true <->
  truthy d = true /\ exists r, prop d "range" = Some r /\ truthy r = true.
Proof.
  unfold validDiagnostic. rewrite andb_true_iff.
  destruct (prop d "range") as [r|]; split.
  - intros [Hd Hr]. eauto.
  - intros [Hd (r' & [= <-] & Hr)]. auto.
  - intros [_ [=]].
  - intros [_ (r' & [=] & _)].
Qed.

(** C5, as the code has it.  On [textDocument/publishDiagnostics] the client
    keeps, in order, the diagnostics that are truthy and have a truthy
    [range] property, in the stored snapshot of the URI and in the
    [diagnostics] event alike; a diagnostic whose [range] is an object stays,
    whatever its start and end. *)
Theorem publishDiagnostics_keeps_ranged `{ErrorFormatter}
    (st : LSPClientState)
    (fields : list (string * Json)) (uri : string) (items : list Json) :
  JsMap.get "uri" fields = Some (JStr uri) ->
  JsMap.get "diagnostics" fields = Some (JArr items) ->
  let message :=
    notification "textDocument/publishDiagnostics" (Some (JObj fields)) in
  let valid := List.filter validDiagnostic items in
  let st' := fst (handleMessage message st) in
  snd (handleMessage message st) = Normal tt /\
  diagnostics st' !! uri = Some valid /\
  emitted st' =
    emitted st ++
    [diagnosticsEvent (JObj (JsMap.set "diagnostics" (JArr valid) fields));
     messageEvent message] /\
  (forall d, In d valid <->
     In d items /\ truthy d = true /\
     exists r, prop d "range" = Some r /\ truthy r = true) /\
  (forall fs r, In (JObj fs) items -> JsMap.get "range" fs = Some (JObj r) ->
     In (JObj fs) valid).
Proof.
  intros Huri Hitems message valid st'.
  assert (Hrun : handleMessage message st =
                 (withEmitted
                    ((emitted st ++
                      [diagnosticsEvent
                         (JObj (JsMap.set "diagnostics" (JArr valid) fields))])
                     ++ [messageEvent message])
                    (withDiagnostics (<[uri := valid]> (diagnostics st)) st),
                  Normal tt)).
  { unfold handleMessage, message, notification; simpl.
    rewrite Hitems. unfold bind, modify, emit; simpl.
    now rewrite Huri. }
  subst st'. rewrite Hrun; simpl.
  split; [reflexivity|]. split; [apply lookup_insert_eq|].
  split; [now rewrite <- app_assoc|]. split.
  - intros d. unfold valid. rewrite List.filter_In, validDiagnostic_spec.
    reflexivity.
  - intros fs r Hin Hrange. unfold valid. apply List.filter_In.
    split; [exact Hin|]. apply validDiagnostic_spec.
    split; [reflexivity|]. exists (JObj r). now split.
Qed.

(** *** Requests and their timers *)

Lemma settle_fresh (id : Z) (outcome : Completion Json)
    (st : LSPClientState) :
  settled st !! id = None ->
  settle id outcome st = withSettled (<[id := outcome]> (settled st)) st.
Proof. intros Hfresh. unfold settle. now rewrite Hfresh. Qed.

Lemma sendRequestStart_attached (method : string) (params : option Json)
    (st : LSPClientState) (p : ChildProcess) :
  process st = Some p ->
  let id := messageId st + 1 in
  let pending := {| pendingMethod := method; pendingParams := params |} in
  sendRequestStart method params st =
  (withProcess
     (Some (afterWrite (frameOf (Client.request id method params)) p))
     (withResponseHandlers (<[id := pending]> (responseHandlers st))
        (withTimers
           (<[id := {| delay := 30000; timerRequest := pending |}]> (timers st))
           (withMessageId id st))),
   Normal id).
Proof.
  intros Hp. cbn zeta. unfold sendRequestStart.
  erewrite sendMessage_attached by exact Hp. reflexivity.
Qed.


(** *** The claims on the sample clients *)

Section OnSamples.
Import Samples.

Lemma tsClient_fresh : freshIds tsClient.
Proof. intros n _. repeat split; apply lookup_empty. Qed.

(** C5 as stated fails.  A diagnostic with the empty range 0:0-0:0 is in the
    stored snapshot and in the event; the null entry and the one without a
    range are not. *)
Lemma empty_range_diagnostic_is_kept :
  let st' :=
    fst (@handleMessage sampleFormatter
           (publishDiagnostics aUri
              [emptyRangeDiagnostic; JNull; rangelessDiagnostic]) tsClient) in
  prop emptyRangeDiagnostic "range" =
    Some (JObj [("start", positionJson (pos 0 0));
                ("end", positionJson (pos 0 0))]) /\
  getDiagnostics aUri st' = [emptyRangeDiagnostic] /\
  head (emitted st') =
    Some (diagnosticsEvent
            (JObj [("uri", JStr aUri);
                   ("diagnostics", JArr [emptyRangeDiagnostic])])).
Proof. repeat split. Qed.

Lemma publishDiagnostics_keeps_ranged_witness :
  getDiagnostics aUri
    (fst (@handleMessage sampleFormatter
            (publishDiagnostics aUri [rangelessDiagnostic; emptyRangeDiagnostic])
            tsClient))
  = [emptyRangeDiagnostic].
Proof.
  destruct (@publishDiagnostics_keeps_ranged sampleFormatter tsClient
              [("uri", JStr aUri);
               ("diagnostics", JArr [rangelessDiagnostic; emptyRangeDiagnostic])]
              aUri [rangelessDiagnostic; emptyRangeDiagnostic]
              eq_refl eq_refl)
    as (_ & Hstored & _).
  unfold getDiagnostics, publishDiagnostics. now rewrite Hstored.
Defined.

(** C6 as stated fails.  Opening [a.ts] twice in a row succeeds twice, and
    two [didOpen] notifications for it are written, nothing in between. *)
Lemma openDocument_twice :
  snd (openA tsClient) = Normal tt /\
  isDocumentOpen aUri (fst (openA tsClient)) = true /\
  snd (openA (fst (openA tsClient))) = Normal tt /\
  written (fst (openA (fst (openA tsClient)))) = [didOpenA; didOpenA].
Proof. repeat split. Qed.

Lemma openDocument_ignores_open_set_witness :
  process tsClient = Some sampleProcess /\
  snd (openA (fst (openA tsClient))) = Normal tt.
Proof.
  split; [reflexivity|].
  assert (Hp : process (fst (openA tsClient))
               = Some {| stdin := Some [didOpenA]; killed := false |})
    by reflexivity.
  unfold openA at 1.
  now rewrite (proj1 (@openDocument_ignores_open_set sampleDetection
                        (fst (openA tsClient)) aUri "const a = 1;" None)
                 _ Hp).
Defined.

(** C10 as stated fails.  Once the server process has exited,
    [closeDocument] throws. *)
Lemma closeDocument_after_exit :
  closeDocument aUri (fst (onExit (Some 0) tsClient)) =
  (fst (onExit (Some 0) tsClient), Throw (newError "LSP server not started")).
Proof. reflexivity. Qed.

Lemma closeDocument_total_when_attached_witness :
  is_Some (process tsClient) /\
  snd (closeDocument "file:///proj/never-opened.ts" tsClient) = Normal tt.
Proof.
  assert (Hp : is_Some (process tsClient)) by (eexists; reflexivity).
  split; [exact Hp|].
  exact (proj1 (closeDocument_total_when_attached tsClient
                  "file:///proj/never-opened.ts") Hp).
Defined.

End OnSamples.

End ClientFacts.

(** ** JavaScript strings *)
Module JsFacts.

#[local] Arguments String.append _ _ : simpl nomatch.

Lemma append_nil_r (s : string) : s +:+ EmptyString = s.
Proof. induction s as [|c s IH]; simpl; [reflexivity | now rewrite IH]. Qed.

Lemma append_assoc (a b c : string) : (a +:+ b) +:+ c = a +:+ (b +:+ c).
Proof. induction a as [|x a IH]; simpl; [reflexivity | now rewrite IH]. Qed.

Lemma length_append (a b : string) :
  String.length (a +:+ b) = (String.length a + String.length b)%nat.
Proof. induction a as [|x a IH]; simpl; [reflexivity | now rewrite IH]. Qed.

Lemma take_append (a b : string) : Js.take (String.length a) (a +:+ b) = a.
Proof. induction a as [|x a IH]; simpl; [reflexivity | now rewrite IH]. Qed.

Lemma drop_append (a b : string) : Js.drop (String.length a) (a +:+ b) = b.
Proof. induction a as [|x a IH]; simpl; [reflexivity | exact IH]. Qed.

Lemma take_all (s : string) (n : nat) :
  (String.length s <= n)%nat -> Js.take n s = s.
Proof.
  revert n. induction s as [|c s IH]; intros [|n] Hn; simpl in *;
    try reflexivity; try lia.
  rewrite IH by lia. reflexivity.
Qed.

Lemma drop_all (s : string) (n : nat) :
  (String.length s <= n)%nat -> Js.drop n s = EmptyString.
Proof.
  revert n. induction s as [|c s IH]; intros [|n] Hn; simpl in *;
    try reflexivity; try lia.
  apply IH. lia.
Qed.

Lemma length_drop (s : string) (n : nat) :
  String.length (Js.drop n s) = (String.length s - n)%nat.
Proof.
  revert n. induction s as [|c s IH]; intros [|n]; simpl; try reflexivity.
  apply IH.
Qed.

Lemma length_take (s : string) (n : nat) :
  String.length (Js.take n s) = Nat.min n (String.length s).
Proof.
  revert n. induction s as [|c s IH]; intros [|n]; simpl; try reflexivity.
  now rewrite IH.
Qed.

(** [s.substring(0, n)] and [s.substring(n)] for [0 <= n <= s.length] *)
Lemma substring_prefix (s : string) (n : nat) :
  (n <= String.length s)%nat ->
  Js.substring s 0 (Z.of_nat n) = Js.take n s.
Proof.
  intros Hn. unfold Js.substring, Js.length.
  replace (Z.to_nat (Z.max 0 (Z.min 0 (Z.of_nat (String.length s)))))
    with 0%nat by lia.
  replace (Z.to_nat (Z.max 0 (Z.min (Z.of_nat n) (Z.of_nat (String.length s)))))
    with n by lia.
  rewrite Nat.min_0_l, Nat.max_0_l, Nat.sub_0_r. reflexivity.
Qed.

Lemma substringFrom_suffix (s : string) (n : nat) :
  (n <= String.length s)%nat ->
  Js.substringFrom s (Z.of_nat n) = Js.drop n s.
Proof.
  intros Hn. unfold Js.substringFrom, Js.substring, Js.length.
  replace (Z.to_nat (Z.max 0 (Z.min (Z.of_nat n) (Z.of_nat (String.length s)))))
    with n by lia.
  replace (Z.to_nat
             (Z.max 0 (Z.min (Z.of_nat (String.length s))
                             (Z.of_nat (String.length s)))))
    with (String.length s) by lia.
  rewrite Nat.min_l, Nat.max_r by lia.
  apply take_all. rewrite length_drop. lia.
Qed.

(** A substring is never longer than the string. *)
Lemma length_substringFrom (s : string) (a : Z) :
  (String.length (Js.substringFrom s a) <= String.length s)%nat.
Proof.
  unfold Js.substringFrom, Js.substring.
  rewrite length_take, length_drop. lia.
Qed.

Lemma length_substringFrom_exact (s : string) (n : nat) :
  (n <= String.length s)%nat ->
  String.length (Js.substringFrom s (Z.of_nat n)) = (String.length s - n)%nat.
Proof.
  intros Hn. rewrite substringFrom_suffix by exact Hn. apply length_drop.
Qed.

(** *** Searching *)

Lemma startsWith_append (p s : string) : Js.startsWith p (p +:+ s) = true.
Proof.
  induction p as [|c p IH]; simpl; [reflexivity|].
  now rewrite Ascii.eqb_refl.
Qed.

Lemma startsWith_length (p s : string) :
  Js.startsWith p s = true -> (String.length p <= String.length s)%nat.
Proof.
  revert s. induction p as [|c p IH]; intros [|d s]; simpl; try lia;
    try discriminate.
  destruct (Ascii.eqb c d); [|discriminate].
  intros Hs. apply IH in Hs. lia.
Qed.

(** A match lies within the string. *)
Lemma find_bound (needle s : string) (i : nat) :
  Js.find needle s = Some i ->
  (i + String.length needle <= String.length s)%nat.
Proof.
  revert i. induction s as [|c s IH]; intros i; simpl.
  - destruct (Js.startsWith needle EmptyString) eqn:Hstart; [|discriminate].
    intros [= <-]. apply startsWith_length in Hstart. simpl in *. lia.
  - destruct (Js.startsWith needle (String c s)) eqn:Hstart.
    + intros [= <-]. apply startsWith_length in Hstart. simpl in *. lia.
    + destruct (Js.find needle s) as [j|]; [|discriminate].
      intros [= <-]. specialize (IH j eq_refl). simpl. lia.
Qed.

(** Code units that differ from the first one of the needle are skipped. *)
Lemma find_skip (c0 : ascii) (needle' before s : string) :
  Js.all (fun c => negb (Ascii.eqb c0 c)) before = true ->
  Js.find (String c0 needle') (before +:+ s) =
  (fun i => (String.length before + i)%nat) <$> Js.find (String c0 needle') s.
Proof.
  induction before as [|c before IH]; simpl; intros Hbefore.
  - now destruct (Js.find (String c0 needle') s).
  - apply andb_true_iff in Hbefore as [Hc Hbefore].
    apply negb_true_iff in Hc. rewrite Hc.
    fold (Js.find (String c0 needle') (before +:+ s)).
    rewrite IH by exact Hbefore.
    now destruct (Js.find (String c0 needle') s).
Qed.

Lemma find_here (needle s : string) :
  Js.find needle (needle +:+ s) = Some 0%nat.
Proof.
  destruct needle as [|c needle]; [now destruct s|].
  cbn [Js.find String.append].
  change (String c (needle +:+ s)) with (String c needle +:+ s).
  now rewrite startsWith_append.
Qed.

(** *** Decimal numbers *)

Lemma digitValue_digitChar (d : Z) :
  0 <= d < 10 -> Js.digitValue (Js.digitChar d) = d.
Proof.
  intros Hd.
  assert (Hcases : d = 0 \/ d = 1 \/ d = 2 \/ d = 3 \/ d = 4 \/ d = 5 \/
                   d = 6 \/ d = 7 \/ d = 8 \/ d = 9) by lia.
  repeat destruct Hcases as [-> | Hcases]; try reflexivity.
  now subst.
Qed.

Lemma isDigit_digitChar (d : Z) :
  0 <= d < 10 -> Js.isDigit (Js.digitChar d) = true.
Proof.
  intros Hd.
  assert (Hcases : d = 0 \/ d = 1 \/ d = 2 \/ d = 3 \/ d = 4 \/ d = 5 \/
                   d = 6 \/ d = 7 \/ d = 8 \/ d = 9) by lia.
  repeat destruct Hcases as [-> | Hcases]; try reflexivity.
  now subst.
Qed.

Lemma all_append (p : ascii -> bool) (a b : string) :
  Js.all p (a +:+ b) = Js.all p a && Js.all p b.
Proof.
  induction a as [|x a IH]; simpl; [reflexivity|].
  now rewrite IH, andb_assoc.
Qed.

(** A predicate that follows from another holds wherever that one does. *)
Lemma all_impl (p q : ascii -> bool) (s : string) :
  (forall c, p c = true -> q c = true) ->
  Js.all p s = true -> Js.all q s = true.
Proof.
  intros Hpq. induction s as [|c s IH]; simpl; [reflexivity|].
  rewrite !andb_true_iff. intros [Hc Hs]. auto.
Qed.

Lemma parseDigitsFrom_append (acc : Z) (a b : string) :
  Js.parseDigitsFrom acc (a +:+ b) =
  Js.parseDigitsFrom (Js.parseDigitsFrom acc a) b.
Proof.
  revert acc. induction a as [|x a IH]; intros acc; simpl; [reflexivity|].
  apply IH.
Qed.

(** The digits printed for [n] are digits, there is at least one, and they
    read back as [n]. *)
Lemma decimalDigits_spec (fuel : nat) (n : Z) :
  0 <= n <= Z.of_nat fuel ->
  Js.all Js.isDigit (Js.decimalDigits fuel n) = true /\
  Js.decimalDigits fuel n <> EmptyString /\
  Js.parseDigits (Js.decimalDigits fuel n) = n.
Proof.
  revert n. induction fuel as [|fuel IH]; intros n Hn.
  - assert (n = 0) as -> by lia. simpl. repeat split. discriminate.
  - simpl. destruct (Z.ltb_spec n 10) as [Hlt|Hge].
    + repeat split.
      * simpl. now rewrite isDigit_digitChar by lia.
      * discriminate.
      * unfold Js.parseDigits; simpl. rewrite digitValue_digitChar by lia. lia.
    + assert (Hq : 0 <= n / 10 <= Z.of_nat fuel).
      { split; [apply Z.div_pos; lia|].
        assert (n / 10 < n) by (apply Z.div_lt; lia). lia. }
      destruct (IH _ Hq) as (Hall & Hne & Hparse).
      assert (Hr : 0 <= n mod 10 < 10) by (apply Z.mod_pos_bound; lia).
      repeat split.
      * rewrite all_append, Hall. simpl.
        now rewrite isDigit_digitChar by exact Hr.
      * destruct (Js.decimalDigits fuel (n / 10)); [contradiction | discriminate].
      * unfold Js.parseDigits in *. rewrite parseDigitsFrom_append, Hparse.
        simpl. rewrite digitValue_digitChar by exact Hr.
        rewrite (Z.div_mod n 10) at 3 by lia. lia.
Qed.

Lemma numberToString_nonneg (n : Z) :
  0 <= n -> Js.numberToString n = Js.decimalDigits (Z.to_nat n) n.
Proof.
  intros Hn. unfold Js.numberToString.
  destruct (Z.ltb_spec n 0); [lia | reflexivity].
Qed.

Lemma numberToString_spec (n : Z) :
  0 <= n ->
  Js.all Js.isDigit (Js.numberToString n) = true /\
  Js.numberToString n <> EmptyString /\
  Js.parseDigits (Js.numberToString n) = n.
Proof.
  intros Hn. rewrite numberToString_nonneg by exact Hn.
  apply decimalDigits_spec. lia.
Qed.

(** [\d+] takes a whole string of digits, up to the first other unit. *)
Lemma takeDigits_all (s rest : string) :
  Js.all Js.isDigit s = true ->
  Js.takeDigits rest = EmptyString ->
  Js.takeDigits (s +:+ rest) = s.
Proof.
  intros Hs Hrest. induction s as [|c s IH]; simpl in *; [exact Hrest|].
  apply andb_true_iff in Hs as [Hc Hs]. rewrite Hc, IH by exact Hs.
  reflexivity.
Qed.

End JsFacts.

(** ** The framed transport *)
Module TransportFacts.
Import Transport JsFacts.

#[local] Arguments String.append _ _ : simpl nomatch.

Lemma byteLength_bounds (s : string) :
  Js.length s <= byteLength s <= 2 * Js.length s.
Proof.
  unfold Js.length. induction s as [|c s IH]; simpl String.length; simpl byteLength.
  - lia.
  - destruct (N_of_ascii c <? 128)%N; lia.
Qed.

Lemma byteLength_append (a b : string) :
  byteLength (a +:+ b) = byteLength a + byteLength b.
Proof. induction a as [|c a IH]; simpl; [reflexivity | rewrite IH; lia]. Qed.

(** The byte length is the length exactly when every unit is below 128. *)
Lemma byteLength_ascii (s : string) :
  Js.all (fun c => (N_of_ascii c <? 128)%N) s = true <->
  byteLength s = Js.length s.
Proof.
  unfold Js.length. induction s as [|c s IH]; simpl.
  - split; reflexivity.
  - pose proof (byteLength_bounds s) as Hb. unfold Js.length in Hb.
    destruct (N_of_ascii c <? 128)%N; simpl.
    + rewrite IH. lia.
    + split; [discriminate | lia].
Qed.

(** *** Reading the header [sendMessage] writes *)

Lemma matchContentLength_digits (ds : string) :
  Js.all Js.isDigit ds = true ->
  ds <> EmptyString ->
  matchContentLength ("Content-Length: " +:+ ds) = Some ds.
Proof.
  intros Hall Hne.
  assert (Hdigits : Js.takeDigits ds = ds).
  { rewrite <- (append_nil_r ds) at 1. now apply takeDigits_all. }
  simpl. rewrite Hdigits. destruct ds; [contradiction | reflexivity].
Qed.

Lemma digit_not_CR (c : ascii) :
  Js.isDigit c = true -> negb (Ascii.eqb "013" c) = true.
Proof.
  intros Hc. apply negb_true_iff, Ascii.eqb_neq. intros <-. discriminate Hc.
Qed.

Lemma headerEnd_found (header tail : string) :
  Js.all (fun c => negb (Ascii.eqb "013" c)) header = true ->
  Js.indexOf (header +:+ headerTerminator +:+ tail) headerTerminator
  = Z.of_nat (String.length header).
Proof.
  intros Hheader.
  assert (Hfind : Js.find headerTerminator
                    (header +:+ headerTerminator +:+ tail)
                  = Some (String.length header)).
  { change headerTerminator with (String "013" (String "010" CRLF)).
    rewrite find_skip by exact Hheader.
    rewrite find_here. simpl. f_equal. lia. }
  unfold Js.indexOf. now rewrite Hfind.
Qed.

Lemma header_cut (header tail : string) :
  Js.substring (header +:+ headerTerminator +:+ tail) 0
    (Z.of_nat (String.length header)) = header /\
  Js.substringFrom (header +:+ headerTerminator +:+ tail)
    (Z.of_nat (String.length header) + 4) = tail.
Proof.
  split.
  - rewrite substring_prefix by (rewrite length_append; apply Nat.le_add_r).
    apply take_append.
  - rewrite <- append_assoc.
    replace (Z.of_nat (String.length header) + 4)
      with (Z.of_nat (String.length (header +:+ headerTerminator)))
      by (rewrite length_append; simpl; lia).
    rewrite substringFrom_suffix by (rewrite !length_append; lia).
    apply drop_append.
Qed.

(** One round on a buffer that starts with the header of a frame of [n]
    bytes: the header is consumed, and the body is read against [n]. *)
Lemma iteration_on_header {Message : Type}
    (parse : string -> option Message) (n : Z) (tail : string) :
  0 <= n ->
  iteration parse
    {| buffer := "Content-Length: " +:+ Js.numberToString n
                   +:+ headerTerminator +:+ tail;
       contentLength := -1 |} =
  readBody parse {| buffer := tail; contentLength := n |}.
Proof.
  intros Hn.
  destruct (numberToString_spec n Hn) as (Hall & Hne & Hparse).
  set (header := "Content-Length: " +:+ Js.numberToString n).
  assert (Hheader : Js.all (fun c => negb (Ascii.eqb "013" c)) header = true).
  { unfold header. rewrite all_append. apply andb_true_iff. split.
    - reflexivity.
    - now apply (all_impl Js.isDigit); [exact digit_not_CR|]. }
  replace ("Content-Length: " +:+ Js.numberToString n
             +:+ headerTerminator +:+ tail)
    with (header +:+ headerTerminator +:+ tail)
    by (unfold header; now rewrite append_assoc).
  unfold iteration; cbn [buffer contentLength].
  change (-1 =? -1) with true; cbv iota.
  rewrite (headerEnd_found header tail Hheader).
  destruct (Z.eqb_spec (Z.of_nat (String.length header)) (-1)); [lia|].
  destruct (header_cut header tail) as [-> ->].
  unfold header. rewrite matchContentLength_digits by assumption.
  now rewrite Hparse.
Qed.

Lemma length_positive (c : ascii) (s : string) :
  (Js.length (String c s) >? 0) = true.
Proof. unfold Js.length. simpl String.length. apply Z.gtb_lt. lia. Qed.

(** *** One frame *)

Section OneFrame.
Context {Message : Type}.
Variable parse : string -> option Message.
Variable content : string.

Lemma frame_first_round :
  iteration parse
    {| buffer := encodeFrame content; contentLength := -1 |} =
  readBody parse
    {| buffer := content; contentLength := byteLength content |}.
Proof.
  pose proof (byteLength_bounds content) as Hb. unfold Js.length in Hb.
  unfold encodeFrame.
  apply iteration_on_header. lia.
Qed.

Lemma onData_encodeFrame :
  onData parse initialReader (encodeFrame content) =
  match readBody parse
          {| buffer := content; contentLength := byteLength content |} with
  | Return st => Some (st, [])
  | Continue st events =>
      match processBufferLoop parse
              (2 * String.length (encodeFrame content) + 1) st with
      | Some (st', later) => Some (st', events ++ later)
      | None => None
      end
  end.
Proof.
  unfold onData, processBuffer; simpl buffer; simpl contentLength.
  change (EmptyString +:+ encodeFrame content) with (encodeFrame content).
  replace (2 * String.length (encodeFrame content) + 2)%nat
    with (S (2 * String.length (encodeFrame content) + 1)) by lia.
  cbn [processBufferLoop]. cbn [buffer].
  replace (Js.length (encodeFrame content) >? 0) with true
    by (symmetry; apply length_positive).
  now rewrite frame_first_round.
Qed.

(** A frame whose content is ASCII is read back whole: the message is
    delivered and the reader is as before. *)
Theorem ascii_frame_delivered (message : Message) :
  byteLength content = Js.length content ->
  parse content = Some message ->
  onData parse initialReader (encodeFrame content) =
  Some (initialReader, [Delivered message]).
Proof.
  intros Hascii Hparse. rewrite onData_encodeFrame.
  unfold readBody; simpl. rewrite Hascii, Z.ltb_irrefl.
  unfold Js.length.
  rewrite substring_prefix, substringFrom_suffix, take_all, drop_all, Hparse
    by lia.
  replace (2 * String.length (encodeFrame content) + 1)%nat
    with (S (2 * String.length (encodeFrame content))) by lia.
  reflexivity.
Qed.

(** C1, where it fails.  The writer announces the length of the content in
    bytes of UTF-8, the reader compares it with the number of UTF-16 units
    it holds.  For a frame whose content has a unit above 127 the first is
    the larger: once the whole frame has arrived nothing is delivered, and
    the reader waits for data that is not to come. *)
Theorem non_ascii_frame_stalls :
  Js.length content < byteLength content ->
  onData parse initialReader (encodeFrame content) =
  Some ({| buffer := content; contentLength := byteLength content |}, []).
Proof.
  intros Hlong. rewrite onData_encodeFrame.
  unfold readBody; simpl.
  now rewrite (proj2 (Z.ltb_lt _ _) Hlong).
Qed.

End OneFrame.

(** *** The reader always returns *)

Section Termination.
Context {Message : Type}.
Variable parse : string -> option Message.

Lemma readBody_continues (st st' : ReaderState)
    (events : list (ReaderEvent Message)) :
  readBody parse st = Continue st' events ->
  contentLength st' = -1 /\
  (String.length (buffer st') <= String.length (buffer st))%nat.
Proof.
  unfold readBody.
  destruct (Js.length (buffer st) <? contentLength st); [discriminate|].
  destruct (parse _); intros [= <- _]; simpl;
    (split; [reflexivity | apply length_substringFrom]).
Qed.

(** A round that does not return leaves fewer rounds to make. *)
Lemma iteration_continues (st st' : ReaderState)
    (events : list (ReaderEvent Message)) :
  iteration parse st = Continue st' events ->
  (roundsLeft st' < roundsLeft st)%nat.
Proof.
  unfold iteration, roundsLeft.
  destruct (Z.eqb_spec (contentLength st) (-1)) as [Hcl|Hcl].
  - unfold Js.indexOf.
    destruct (Js.find headerTerminator (buffer st)) as [i|] eqn:Hfind;
      [|discriminate].
    apply find_bound in Hfind. simpl String.length in Hfind.
    destruct (Z.eqb_spec (Z.of_nat i) (-1)); [lia|].
    assert (Hcut : String.length
                     (Js.substringFrom (buffer st) (Z.of_nat i + 4))
                   = (String.length (buffer st) - (i + 4))%nat).
    { replace (Z.of_nat i + 4) with (Z.of_nat (i + 4)) by lia.
      apply length_substringFrom_exact. lia. }
    destruct (matchContentLength _) as [digits|].
    + intros Hbody. apply readBody_continues in Hbody as [-> Hlen].
      simpl in Hlen. rewrite Hcut in Hlen. simpl. lia.
    + intros [= <- _]; simpl. rewrite Hcut, Hcl. simpl. lia.
  - intros Hbody. apply readBody_continues in Hbody as [-> Hlen].
    simpl. lia.
Qed.

Lemma processBufferLoop_returns (fuel : nat) :
  forall st, (roundsLeft st < fuel)%nat ->
             is_Some (processBufferLoop parse fuel st).
Proof.
  induction fuel as [|fuel IH]; intros st Hfuel; [lia|].
  simpl. destruct (Js.length (buffer st) >? 0); [|eauto].
  destruct (iteration parse st) as [st'|st' events] eqn:Hround; [eauto|].
  apply iteration_continues in Hround.
  destruct (IH st' ltac:(lia)) as [[st'' later] ->]. eauto.
Qed.

(** [processBuffer] never runs out of rounds: for every state of the reader
    it returns a state and the events of the pass. *)
Theorem processBuffer_returns (st : ReaderState) :
  is_Some (processBuffer parse st).
Proof.
  apply processBufferLoop_returns. unfold roundsLeft.
  destruct (contentLength st =? -1); lia.
Qed.

End Termination.

(** *** The client's own frames *)

Section OnSamples.
Import Json Client Samples.

(** What [sendMessage] writes is the frame of the serialized message. *)
Lemma sendMessage_writes_frame (m : LSPMessage) (st : LSPClientState)
    (p : ChildProcess) (w : list string) :
  process st = Some p -> stdin p = Some w ->
  written (fst (sendMessage m st))
  = w ++ [encodeFrame (stringify (messageToJson m))].
Proof.
  intros Hp Hw. unfold sendMessage, written. rewrite Hp; simpl.
  now rewrite Hw.
Qed.

(** The frame of the [exit] notification comes back as the message. *)
Lemma exit_frame_delivered :
  Transport.onData (@JSON_parse sampleParser) initialReader (frameOf exitNotification)
  = Some (initialReader, [Delivered exitNotification]).
Proof. apply ascii_frame_delivered; vm_compute; reflexivity. Defined.

(** The [didOpen] of a document that holds the text [// café] is one unit
    shorter than its [Content-Length]. *)
Lemma non_ascii_frame_stalls_witness :
  let content := stringify (messageToJson didOpenAccented) in
  Js.length content = 158 /\
  byteLength content = 159 /\
  written (fst (@openDocument sampleDetection aUri accentedText None tsClient))
  = [encodeFrame content] /\
  Transport.onData (@JSON_parse sampleParser) initialReader (encodeFrame content)
  = Some ({| buffer := content; contentLength := 159 |}, []).
Proof.
  cbn zeta. split; [vm_compute; reflexivity|].
  split; [vm_compute; reflexivity|]. split; [vm_compute; reflexivity|].
  rewrite (non_ascii_frame_stalls (@JSON_parse sampleParser)
             (stringify (messageToJson didOpenAccented)))
    by (vm_compute; reflexivity).
  vm_compute; reflexivity.
Defined.

(** The frame that follows is lost with it: its first unit goes into the
    body, which no longer parses, and what is left of its header is
    discarded as invalid. *)
Example frame_after_non_ascii_is_lost :
  snd <$> Transport.onData (@JSON_parse sampleParser) initialReader
            (frameOf didOpenAccented +:+ frameOf exitNotification)
  = Some [ParseFailure (stringify (messageToJson didOpenAccented) +:+ "C");
          InvalidHeader "ontent-Length: 33"].
Proof. vm_compute. reflexivity. Qed.

End OnSamples.

End TransportFacts.

(** ** Requests and their answers *)
Module RequestFacts.
Import Json Client ClientFacts.
Open Scope client_scope.

(** *** The monad *)

Lemma bind_normal {A B : Type} (m : M A) (k : A -> M B)
    (st st' : LSPClientState) (a : A) :
  m st = (st', Normal a) -> bind m k st = k a st'.
Proof. intros Hm. unfold bind. now rewrite Hm. Qed.

Lemma bind_throw {A B : Type} (m : M A) (k : A -> M B)
    (st st' : LSPClientState) (e : JsError) :
  m st = (st', Throw e) -> bind m k st = (st', Throw e).
Proof. intros Hm. unfold bind. now rewrite Hm. Qed.

Lemma tryCatch_normal {A : Type} (m : M A) (handler : JsError -> M A)
    (st st' : LSPClientState) (a : A) :
  m st = (st', Normal a) -> tryCatch m handler st = (st', Normal a).
Proof. intros Hm. unfold tryCatch. now rewrite Hm. Qed.

Lemma tryCatch_throw {A : Type} (m : M A) (handler : JsError -> M A)
    (st st' : LSPClientState) (e : JsError) :
  m st = (st', Throw e) -> tryCatch m handler st = handler e st'.
Proof. intros Hm. unfold tryCatch. now rewrite Hm. Qed.

(** *** A later state of the same session *)

Section Requests.
Context `{ErrorFormatter} `{LanguageDetection} `{JsonParser}.

Lemma openDocument_attached (st : LSPClientState) (p : ChildProcess)
    (uri text : string) (language : option string) :
  process st = Some p ->
  exists st',
    openDocument uri text language st = (st', Normal tt) /\
    is_Some (process st') /\
    openDocuments st' = {[uri]} ∪ openDocuments st.
Proof.
  intros Hp. eexists. split.
  - unfold openDocument, sendNotification, bind, gets, modify.
    erewrite sendMessage_attached by exact Hp. reflexivity.
  - split; [eexists|]; reflexivity.
Qed.

Lemma openDocument_ready (st : LSPClientState) (uri text : string)
    (language : option string) :
  ready st ->
  exists st',
    openDocument uri text language st = (st', Normal tt) /\
    ready st' /\
    languageId st' = languageId st /\
    openDocuments st' = {[uri]} ∪ openDocuments st.
Proof.
  intros [[p Hp] Hfresh]. eexists. split.
  - unfold openDocument, sendNotification, bind, gets, modify.
    erewrite sendMessage_attached by exact Hp. reflexivity.
  - split; [split; [eexists; reflexivity | exact Hfresh] |].
    split; reflexivity.
Qed.


(** With a server attached and unused ids ahead, [await sendRequest(..)]
    gives what the answer says; the session goes on with the next id, the
    same language and the same open documents. *)
Lemma sendRequest_ready (st : LSPClientState) (method : string)
    (params : option Json) (reply : ServerReply) :
  ready st ->
  exists st',
    sendRequest method params reply st =
      (st', replyOutcome (languageId st) method params reply) /\
    ready st' /\
    languageId st' = languageId st /\
    openDocuments st' = openDocuments st /\
    messageId st' = messageId st + 1.
Proof.
  intros [[p Hp] Hfresh].
  destruct (Hfresh (messageId st + 1) ltac:(lia)) as (Hsettled & _ & _).
  assert (Hstart := sendRequestStart_attached method params st p Hp).
  cbn zeta in Hstart.
  assert (Hlater : forall st' : LSPClientState,
            is_Some (process st') ->
            (forall n, messageId st + 1 < n ->
               settled st' !! n = settled st !! n /\
               responseHandlers st' !! n = responseHandlers st !! n /\
               timers st' !! n = timers st !! n) ->
            messageId st' = messageId st + 1 ->
            ready st').
  { intros st' Hp' Hsame Hid. split; [exact Hp'|]. intros n Hn.
    rewrite Hid in Hn. destruct (Hsame n Hn) as (-> & -> & ->).
    apply Hfresh. lia. }
  destruct reply as [r|e|]; cbn [replyOutcome]; eexists; split.
  - unfold sendRequest. rewrite Hstart; simpl. rewrite Hsettled.
    unfold handleMessage, responseHandler; simpl.
    rewrite lookup_insert_eq; simpl.
    rewrite settle_fresh by exact Hsettled; simpl.
    rewrite lookup_insert_eq; simpl. reflexivity.
  - split; [|repeat split]. apply Hlater; [eexists; reflexivity | | reflexivity].
    intros n Hn; simpl.
    rewrite ?lookup_delete_ne, ?lookup_insert_ne by lia; auto.
  - unfold sendRequest. rewrite Hstart; simpl. rewrite Hsettled.
    unfold handleMessage, responseHandler; simpl.
    rewrite lookup_insert_eq; simpl.
    rewrite settle_fresh by exact Hsettled; simpl.
    rewrite lookup_insert_eq; simpl. reflexivity.
  - split; [|repeat split]. apply Hlater; [eexists; reflexivity | | reflexivity].
    intros n Hn; simpl.
    rewrite ?lookup_delete_ne, ?lookup_insert_ne by lia; auto.
  - unfold sendRequest. rewrite Hstart; simpl. rewrite Hsettled.
    unfold onRequestTimeout; simpl.
    rewrite lookup_insert_eq; simpl.
    rewrite settle_fresh by exact Hsettled; simpl.
    rewrite lookup_insert_eq; simpl. reflexivity.
  - split; [|repeat split]. apply Hlater; [eexists; reflexivity | | reflexivity].
    intros n Hn; simpl.
    rewrite ?lookup_delete_ne, ?lookup_insert_ne by lia; auto.
Qed.

End Requests.
End RequestFacts.

(** ** The tool handlers *)
Module ToolsFacts.
Import Json Client Tools ClientFacts RequestFacts.
Open Scope client_scope.

Section Handlers.
Context `{ErrorFormatter} `{LanguageDetection} `{JsonParser} `{PathApi}
        `{MissingHelpers} `{Rendering}.

(** *** Documents opened for an analysis *)

(** The references tool opens the document, asks, and returns: whatever
    the server answers, the document is open afterwards. *)
Lemma findReferencesWithLSP_state (files : Files)
    (request : FindReferencesRequest) (reply : ServerReply)
    (st : LSPClientState) (fileContent fileUri : string)
    (targetLine symbolPosition : Z) :
  ready st ->
  readFileWithUri files (frRoot request) (frFilePath request)
    = Normal (fileContent, fileUri) ->
  validateLineAndSymbol fileContent (frLine request) (frSymbolName request)
    (frFilePath request) = Normal (targetLine, symbolPosition) ->
  let st' := fst (findReferencesWithLSP files request reply st) in
  ready st' /\ openDocuments st' = {[fileUri]} ∪ openDocuments st.
Proof.
  intros Hready Hread Hvalid.
  destruct (openDocument_ready st fileUri fileContent None Hready)
    as (st1 & Hopen & Hready1 & Hlang1 & Hdocs1).
  destruct (sendRequest_ready st1 "textDocument/references"
              (Some (JObj [("textDocument", JObj [("uri", JStr fileUri)]);
                           ("position",
                            positionJson {| Lsp.line := targetLine;
                                            Lsp.character := symbolPosition |});
                           ("context",
                            JObj [("includeDeclaration", JBool true)])]))
              reply Hready1)
    as (st2 & Hsend & Hready2 & Hlang2 & Hdocs2 & _).
  cbn zeta. unfold findReferencesWithLSP, readFileWithMetadata.
  rewrite Hread, Hvalid.
  unfold tryCatch. rewrite (bind_normal _ _ _ _ _ Hopen).
  unfold findReferences, bind. rewrite Hsend.
  destruct (replyOutcome (languageId st1) "textDocument/references" _ reply)
    as [r|e]; simpl.
  - unfold lift, ret.
    destruct (renderReferences files (frRoot request) _) as [refs|e]; simpl;
      (split; [exact Hready2 | now rewrite Hdocs2, Hdocs1]).
  - split; [exact Hready2 | now rewrite Hdocs2, Hdocs1].
Qed.

(** C2, the references tool.  [findReferencesWithLSP] opens the document
    and never closes it: once the file is read and the symbol located, the
    document is open when the tool returns, whether the server answered with
    a result, with an error, or not at all. *)
Theorem findReferencesWithLSP_leaves_document_open (files : Files)
    (request : FindReferencesRequest) (reply : ServerReply)
    (st : LSPClientState) (fileContent fileUri : string)
    (targetLine symbolPosition : Z) :
  ready st ->
  readFileWithUri files (frRoot request) (frFilePath request)
    = Normal (fileContent, fileUri) ->
  validateLineAndSymbol fileContent (frLine request) (frSymbolName request)
    (frFilePath request) = Normal (targetLine, symbolPosition) ->
  isDocumentOpen fileUri (fst (findReferencesWithLSP files request reply st))
  = true.
Proof.
  intros Hready Hread Hvalid.
  destruct (findReferencesWithLSP_state files request reply st fileContent
              fileUri targetLine symbolPosition Hready Hread Hvalid)
    as (_ & Hdocs).
  unfold isDocumentOpen. apply bool_decide_eq_true.
  rewrite Hdocs. apply elem_of_union_l, elem_of_singleton. reflexivity.
Qed.

(** [withLSPOperation] opens the document and never closes it either: with
    an operation that closes nothing itself, the document is open when the
    call returns, whether the operation or the timer settles first. *)
Lemma withLSPOperation_leaves_document_open {T : Type}
    (options : LSPOperationOptions T) (race : Race) (st : LSPClientState) :
  ready st ->
  (forall s, ready s ->
             fileUri options ∈ openDocuments s ->
             fileUri options ∈ openDocuments (fst (operation options s))) ->
  isDocumentOpen (fileUri options) (fst (withLSPOperation options race st))
  = true.
Proof.
  intros Hready Hkeeps.
  unfold withLSPOperation, gets. unfold bind at 1.
  match goal with
  | |- context [openDocument ?u ?t ?l] =>
      destruct (openDocument_ready st u t l Hready)
        as (st1 & Hopen & Hready1 & _ & Hdocs)
  end.
  rewrite (bind_normal _ _ _ _ _ Hopen).
  assert (Hin : fileUri options ∈ openDocuments st1)
    by (rewrite Hdocs; apply elem_of_union_l, elem_of_singleton; reflexivity).
  specialize (Hkeeps st1 Hready1 Hin).
  unfold isDocumentOpen. apply bool_decide_eq_true.
  destruct (operation options st1) as [st2 outcome]; simpl in Hkeeps.
  destruct race; exact Hkeeps.
Qed.




(** Opening the files of a batch goes through, file by file: every file of
    the batch is open afterwards, and so is what was open before. *)
Lemma openBatch_ready (files : list (string * string))
    (language : option string) (st : LSPClientState) :
  ready st ->
  exists st',
    forEach files (fun file => openDocument file.1 file.2 language) st
      = (st', Normal tt) /\
    ready st' /\
    (forall file, In file files -> file.1 ∈ openDocuments st') /\
    (forall uri, uri ∈ openDocuments st -> uri ∈ openDocuments st').
Proof.
  revert st. induction files as [|file files IH]; intros st Hready.
  - exists st. split; [reflexivity|]. split; [exact Hready|].
    split; [intros file [] | auto].
  - destruct (openDocument_ready st file.1 file.2 language Hready)
      as (st1 & Hopen & Hready1 & _ & Hdocs1).
    destruct (IH st1 Hready1) as (st2 & Hrest & Hready2 & Hfiles & Hkept).
    exists st2. cbn [forEach]. rewrite (bind_normal _ _ _ _ _ Hopen).
    split; [exact Hrest|]. split; [exact Hready2|]. split.
    + intros other [<- | Hother]; [|now apply Hfiles].
      apply Hkept. rewrite Hdocs1.
      apply elem_of_union_l, elem_of_singleton. reflexivity.
    + intros uri Huri. apply Hkept. rewrite Hdocs1.
      now apply elem_of_union_r.
Qed.

(** [withBatchLSPOperation] opens every file of the batch and closes none:
    on a started client, with an operation that closes nothing itself, all
    the files of the batch are open when the call returns.  Without a
    server process and with a file to open, the call fails with
    [LSP server not started] before the operation is run. *)
Theorem withBatchLSPOperation_leaves_documents_open {T : Type}
    (options : BatchLSPOperationOptions T) (st : LSPClientState) :
  (ready st ->
   (forall s uri, ready s -> uri ∈ openDocuments s ->
                  uri ∈ openDocuments (fst (batchOperation options s))) ->
   Forall (fun file =>
             isDocumentOpen file.1 (fst (withBatchLSPOperation options st))
             = true)
          (batchFiles options)) /\
  (process st = None ->
   batchFiles options <> [] ->
   withBatchLSPOperation options st
   = (st, Throw (newError "LSP server not started"))).
Proof.
  split.
  - intros Hready Hkeeps.
    unfold withBatchLSPOperation, gets. unfold bind at 1.
    match goal with
    | |- context [forEach ?files ?body] =>
        match body with
        | (fun file => openDocument _ _ ?language) =>
            destruct (openBatch_ready files language st Hready)
              as (st1 & Hopen & Hready1 & Hfiles & _)
        end
    end.
    rewrite (bind_normal _ _ _ _ _ Hopen).
    apply List.Forall_forall. intros file Hfile.
    unfold isDocumentOpen. apply bool_decide_eq_true.
    pose proof (Hkeeps st1 file.1 Hready1 (Hfiles file Hfile)) as Hopened.
    now destruct (batchOperation options st1).
  - intros Hp Hfiles.
    unfold withBatchLSPOperation, gets. unfold bind at 1.
    destruct (batchFiles options) as [|file files]; [contradiction|].
    cbn [forEach]. unfold bind.
    unfold openDocument, sendNotification, bind, gets.
    now rewrite sendMessage_detached by exact Hp.
Qed.

(** *** Renaming *)

(** The two tests for a server without rename are the same test. *)
Lemma renameUnsupported_isMethodNotFound (e : JsError) :
  renameUnsupported e = isMethodNotFound e.
Proof.
  unfold renameUnsupported, isMethodNotFound.
  destruct (bool_decide _), (Js.includes _ "Unhandled method"),
    (Js.includes _ "Method not found"); reflexivity.
Qed.

(** The error of a request the server refused carries no code. *)
Lemma responseFailure_has_no_code (languageId method : string)
    (e : ResponseError) :
  errorCode (responseFailure languageId method e) = None.
Proof. reflexivity. Qed.

Lemma prepareRename_accepted (uri : string) (position : Lsp.Position)
    (fields : list (string * Json)) (st : LSPClientState) :
  ready st ->
  exists st',
    prepareRename uri position (ReplyResult (JObj fields)) st =
      (st', Normal (default (JObj fields) (JsMap.get "range" fields))) /\
    ready st' /\ languageId st' = languageId st.
Proof.
  intros Hready.
  destruct (sendRequest_ready st "textDocument/prepareRename"
              (Some (textDocumentPosition uri position))
              (ReplyResult (JObj fields)) Hready)
    as (st1 & Hsend & Hready1 & Hlang1 & _).
  exists st1. split; [|split; assumption].
  unfold prepareRename. apply tryCatch_normal.
  rewrite (bind_normal _ _ _ _ _ Hsend); simpl.
  now destruct (JsMap.get "range" fields).
Qed.

(** What [client.rename] makes of an error response: null when the text of
    the error names the missing method, the error otherwise. *)
Lemma rename_refused (uri : string) (position : Lsp.Position)
    (newName : string) (e : ResponseError) (st : LSPClientState) :
  ready st ->
  let failure := responseFailure (languageId st) "textDocument/rename" e in
  exists st',
    rename uri position newName (ReplyError e) st =
      (st', if isMethodNotFound failure then Normal JNull else Throw failure)
    /\ ready st' /\ languageId st' = languageId st.
Proof.
  intros Hready failure.
  match goal with
  | |- context [rename ?u ?ps ?n ?r] =>
      unfold rename;
      match goal with
      | |- context [sendRequest ?m ?params r] =>
          destruct (sendRequest_ready st m params r Hready)
            as (st1 & Hsend & Hready1 & Hlang1 & _)
      end
  end.
  exists st1. split; [|split; assumption].
  rewrite (tryCatch_throw _ _ _ _ _ Hsend). fold failure.
  now destruct (isMethodNotFound failure).
Qed.

(** Opening the other files of the project goes through, file by file. *)
Lemma openProjectFiles_ready (files : Files) (target : string)
    (projectFiles : list string) (st : LSPClientState) :
  ready st ->
  exists st',
    forEach projectFiles
      (fun file =>
         if negb (bool_decide (file = target))
         then tryCatch
                (content <- lift (readFile files file) ;;
                 openDocument ("file://" +:+ file) content None)
                (fun _ => ret tt)
         else ret tt) st = (st', Normal tt) /\
    ready st' /\ languageId st' = languageId st.
Proof.
  revert st. induction projectFiles as [|file rest IH]; intros st Hready.
  - exists st. split; [reflexivity | split; [assumption | reflexivity]].
  - cbn [forEach].
    assert (Hstep : exists st1,
              (if negb (bool_decide (file = target))
               then tryCatch
                      (content <- lift (readFile files file) ;;
                       openDocument ("file://" +:+ file) content None)
                      (fun _ => ret tt)
               else ret tt) st = (st1, Normal tt)
              /\ ready st1 /\ languageId st1 = languageId st).
    { destruct (negb (bool_decide (file = target))).
      - unfold tryCatch, bind, lift.
        destruct (readFile files file) as [content|e].
        + destruct (openDocument_ready st ("file://" +:+ file) content None
                      Hready) as (st1 & Hopen & Hready1 & Hlang1 & _).
          exists st1. rewrite Hopen.
          split; [reflexivity | split; assumption].
        + exists st. split; [reflexivity | split; [assumption | reflexivity]].
      - exists st. split; [reflexivity | split; [assumption | reflexivity]]. }
    destruct Hstep as (st1 & Hstep & Hready1 & Hlang1).
    destruct (IH st1 Hready1) as (st2 & Hrest & Hready2 & Hlang2).
    exists st2. rewrite (bind_normal _ _ _ _ _ Hstep).
    split; [exact Hrest|]. split; [exact Hready2 | congruence].
Qed.

(** [performRenameAtPosition] against a server that accepts the position
    and refuses the rename. *)
Lemma performRenameAtPosition_refused (files : Files)
    (request : RenameSymbolRequest) (fileUri fileContent : string)
    (targetLine symbolPosition : Z) (fields : list (string * Json))
    (e : ResponseError) (st : LSPClientState) :
  ready st ->
  JsMap.get "range" fields <> Some JNull ->
  let failure := responseFailure (languageId st) "textDocument/rename" e in
  snd (performRenameAtPosition files request fileUri fileContent targetLine
         symbolPosition (ReplyResult (JObj fields)) (ReplyError e) st)
  = Normal (files,
            err (if isMethodNotFound failure
                 then "No changes from LSP rename operation"
                 else errorMessage failure)).
Proof.
  intros Hready Hrange failure.
  set (position := {| Lsp.line := targetLine;
                      Lsp.character := symbolPosition |}).
  destruct (openProjectFiles_ready files
              (resolve (rnRoot request) (rnFilePath request))
              (findProjectFiles files (rnRoot request)) st Hready)
    as (st1 & Hloop & Hready1 & Hlang1).
  destruct (openDocument_ready st1 fileUri fileContent None Hready1)
    as (st2 & Hopen & Hready2 & Hlang2 & _).
  destruct (prepareRename_accepted fileUri position fields st2 Hready2)
    as (st3 & Hprepare & Hready3 & Hlang3).
  destruct (rename_refused fileUri position (rnNewName request) e st3 Hready3)
    as (st4 & Hrename & _ & _).
  assert (Hlang : languageId st3 = languageId st) by congruence.
  rewrite Hlang in Hrename. fold failure in Hrename.
  unfold performRenameAtPosition. fold position.
  unfold tryCatch at 1.
  rewrite (bind_normal _ _ _ _ _ Hloop).
  rewrite (bind_normal _ _ _ _ _ Hopen).
  erewrite (bind_normal (tryCatch _ _)); cycle 1.
  { apply tryCatch_normal. rewrite (bind_normal _ _ _ _ _ Hprepare).
    reflexivity. }
  assert (Hprepared :
            forall (A : Type) (a b : A),
              match default (JObj fields) (JsMap.get "range" fields) with
              | JNull => a
              | _ => b
              end = b).
  { intros A a b. destruct (JsMap.get "range" fields) as [[]|]; simpl;
      try reflexivity. now contradict Hrange. }
  cbv beta iota. rewrite Hprepared.
  unfold tryCatch, bind. rewrite Hrename.
  destruct (isMethodNotFound failure) eqn:Htest; simpl.
  - reflexivity.
  - rewrite renameUnsupported_isMethodNotFound, Htest. reflexivity.
Qed.

(** C3, as the code has it.  When the server accepts the position and
    answers [textDocument/rename] with an error response (code -32601 or any
    other), the exception the tool sees carries no code, and [rename_symbol]
    fails with one of two messages: [No changes from LSP rename operation]
    when the formatted text of the error names the missing method, that
    formatted text otherwise.  The message of the branch written for a
    server without rename is not among them.  The files are as they
    were. *)
Theorem renameSymbolTool_refused_rename (files : Files)
    (request : RenameSymbolRequest) (content : string)
    (targetLine symbolPosition : Z) (fields : list (string * Json))
    (e : ResponseError) (st : LSPClientState) :
  ready st ->
  rnLine request = None ->
  files !! resolve (rnRoot request) (rnFilePath request) = Some content ->
  findTargetInFile (Js.splitLines content) (rnTarget request)
    = inr (targetLine, symbolPosition) ->
  JsMap.get "range" fields <> Some JNull ->
  let run :=
    renameSymbolTool files request (ReplyResult (JObj fields)) (ReplyError e)
      st in
  let failure := responseFailure (languageId st) "textDocument/rename" e in
  errorCode failure = None /\
  filesAfter run = files /\
  outcome run =
    Throw (newError (if Js.includes (errorMessage failure) "Unhandled method"
                        || Js.includes (errorMessage failure) "Method not found"
                     then "No changes from LSP rename operation"
                     else errorMessage failure)).
Proof.
  intros Hready Hline Hfile Htarget Hrange run failure.
  split; [reflexivity|].
  assert (Hrun := performRenameAtPosition_refused files request
                    ("file://" +:+ resolve (rnRoot request) (rnFilePath request))
                    content targetLine symbolPosition fields e st
                    Hready Hrange).
  cbn zeta in Hrun. fold failure in Hrun.
  replace (isMethodNotFound failure)
    with (Js.includes (errorMessage failure) "Unhandled method"
          || Js.includes (errorMessage failure) "Method not found") in Hrun
    by (unfold isMethodNotFound; simpl; now rewrite orb_false_r).
  unfold run, renameSymbolTool, handleRenameSymbol, performRenameWithoutLine.
  rewrite Hline. unfold readFile. rewrite Hfile, Htarget.
  destruct (performRenameAtPosition _ _ _ _ _ _ _ _ st) as [st' result].
  simpl in Hrun. rewrite Hrun. split; reflexivity.
Qed.

End Handlers.

(** *** On the sample project *)

Section OnSamples.
Import Samples.

#[local] Existing Instances sampleFormatter sampleDetection sampleParser
  posixPaths sampleHelpers sampleRendering.

Lemma tsClient_ready : ready tsClient.
Proof. split; [eexists; reflexivity | exact tsClient_fresh]. Qed.



(** The references tool on [a.ts]: the answer is rendered, two frames were
    written (the [didOpen] and the request), and [a.ts] is open. *)
Lemma findReferencesWithLSP_leaves_document_open_witness :
  let run :=
    findReferencesWithLSP sampleFiles referencesOfA (ReplyResult (JArr []))
      tsClient in
  snd run = Normal (ok {| frMessage := "Found 0 references to "
                                       +:+ Js.quoted "a";
                          references := [] |}) /\
  written (fst run) =
    [didOpenA;
     frameOf (request 1 "textDocument/references"
                (Some (JObj [("textDocument", JObj [("uri", JStr aUri)]);
                             ("position", positionJson (pos 0 6));
                             ("context",
                              JObj [("includeDeclaration", JBool true)])])))]
  /\
  isDocumentOpen aUri (fst run) = true.
Proof.
  cbn zeta. split; [vm_compute; reflexivity|].
  split; [vm_compute; reflexivity|].
  apply (findReferencesWithLSP_leaves_document_open sampleFiles referencesOfA
           (ReplyResult (JArr [])) tsClient "const a = 1;" aUri 0 6
           tsClient_ready);
    vm_compute; reflexivity.
Defined.

(** The same when the request fails or is never answered. *)
Example findReferencesWithLSP_failure_leaves_document_open :
  isDocumentOpen aUri
    (fst (findReferencesWithLSP sampleFiles referencesOfA
            (ReplyError methodNotFound) tsClient)) = true /\
  isDocumentOpen aUri
    (fst (findReferencesWithLSP sampleFiles referencesOfA NoReply tsClient))
  = true.
Proof. split; vm_compute; reflexivity. Qed.

(** A hover through [withLSPOperation] that the timer overtakes: the
    caller gets the timeout, and [a.ts] is open. *)
Lemma withLSPOperation_leaves_document_open_witness :
  snd (withLSPOperation hoverOnA TimerFirst tsClient)
  = Throw (newError "LSP operation timed out after 30000ms") /\
  isDocumentOpen aUri (fst (withLSPOperation hoverOnA TimerFirst tsClient))
  = true.
Proof.
  split; [vm_compute; reflexivity|].
  apply (withLSPOperation_leaves_document_open hoverOnA TimerFirst tsClient
           tsClient_ready).
  intros s Hready Hopen. unfold hoverOnA, operation, getHover.
  match goal with
  | |- context [sendRequest ?m ?ps ?r s] =>
      destruct (sendRequest_ready s m ps r Hready)
        as (s' & Hsend & _ & _ & Hdocs & _)
  end.
  rewrite Hsend; simpl. now rewrite Hdocs.
Defined.

(** The diagnostics of the two files of the project, in one batch. *)
Lemma withBatchLSPOperation_leaves_documents_open_witness :
  isDocumentOpen aUri (fst (withBatchLSPOperation diagnosticsOfProject tsClient))
  = true /\
  isDocumentOpen "file:///proj/b.ts"
    (fst (withBatchLSPOperation diagnosticsOfProject tsClient)) = true.
Proof.
  assert (Hopen := proj1 (withBatchLSPOperation_leaves_documents_open
                            diagnosticsOfProject tsClient)
                     tsClient_ready
                     ltac:(intros s uri _ Huri; exact Huri)).
  apply Forall_cons in Hopen as [Hfirst Hopen].
  apply Forall_cons in Hopen as [Hsecond _].
  split; [exact Hfirst | exact Hsecond].
Defined.


(** [rename_symbol] against a server that answers [textDocument/rename]
    with -32601 [Method not found]: the tool fails with the message for an
    empty edit. *)
Lemma renameSymbolTool_refused_rename_witness :
  let run :=
    renameSymbolTool sampleFiles renameAToB (ReplyResult (JObj renameRange))
      (ReplyError methodNotFound) tsClient in
  code methodNotFound = -32601 /\
  filesAfter run = sampleFiles /\
  outcome run = Throw (newError "No changes from LSP rename operation").
Proof.
  cbn zeta. split; [reflexivity|].
  assert (Hfile : sampleFiles !! resolve (rnRoot renameAToB)
                                 (rnFilePath renameAToB)
                  = Some "const a = 1;") by (vm_compute; reflexivity).
  assert (Htarget : findTargetInFile (Js.splitLines "const a = 1;")
                      (rnTarget renameAToB) = inr (0, 6))
    by (vm_compute; reflexivity).
  assert (Hrange : JsMap.get "range" renameRange <> Some JNull)
    by (vm_compute; discriminate).
  destruct (renameSymbolTool_refused_rename sampleFiles renameAToB
              "const a = 1;" 0 6 renameRange methodNotFound tsClient
              tsClient_ready eq_refl Hfile Htarget Hrange)
    as (_ & Hfiles & Houtcome).
  split; [exact Hfiles|]. rewrite Houtcome. vm_compute. reflexivity.
Defined.

End OnSamples.

End ToolsFacts.

(** ** The reader on several frames and several chunks *)
Module ReaderFacts.
Import Transport JsFacts TransportFacts.

#[local] Arguments String.append _ _ : simpl nomatch.

(** *** Strings *)

Lemma startsWith_prefix (needle a b : string) :
  (String.length needle <= String.length a)%nat ->
  Js.startsWith needle (a +:+ b) = Js.startsWith needle a.
Proof.
  revert a. induction needle as [|c needle IH]; intros [|d a] Hlen;
    simpl in *; try reflexivity; try lia.
  destruct (Ascii.eqb c d); [apply IH; lia | reflexivity].
Qed.

(** An occurrence found in a string is the one found in any extension. *)
Lemma find_prefix (needle a b : string) (i : nat) :
  Js.find needle a = Some i -> Js.find needle (a +:+ b) = Some i.
Proof.
  revert i. induction a as [|c a IH]; intros i.
  - simpl. destruct (Js.startsWith needle EmptyString) eqn:Hstart;
      [|discriminate].
    intros [= <-]. destruct needle; [|discriminate].
    now destruct b.
  - intros Hfind. pose proof (find_bound _ _ _ Hfind) as Hbound.
    cbn [Js.find] in Hfind.
    change (String c a +:+ b) with (String c (a +:+ b)). cbn [Js.find].
    change (String c (a +:+ b)) with (String c a +:+ b).
    rewrite startsWith_prefix by lia.
    destruct (Js.startsWith needle (String c a)); [exact Hfind|].
    destruct (Js.find needle a) as [j|]; [|discriminate].
    now rewrite (IH j eq_refl).
Qed.

Lemma append_split (p q a b : string) :
  a +:+ b = p +:+ q ->
  (String.length p <= String.length a)%nat ->
  exists a', a = p +:+ a' /\ q = a' +:+ b.
Proof.
  revert a. induction p as [|c p IH]; intros a Heq Hlen.
  - exists a. simpl in *. now split.
  - destruct a as [|d a]; [simpl in Hlen; lia|].
    simpl in Heq. injection Heq as -> Heq.
    destruct (IH a Heq) as (a' & -> & ->); [simpl in Hlen; lia|].
    exists a'. now split.
Qed.

Section Reader.
Context {Message : Type}.
Variable parse : string -> option Message.

(** More rounds than needed change nothing. *)
Lemma processBufferLoop_fuel (fuel : nat) :
  forall fuel' st,
    (roundsLeft st < fuel)%nat -> (roundsLeft st < fuel')%nat ->
    processBufferLoop parse fuel st = processBufferLoop parse fuel' st.
Proof.
  induction fuel as [|fuel IH]; intros fuel' st Hfuel Hfuel'; [lia|].
  destruct fuel' as [|fuel']; [lia|].
  simpl. destruct (Js.length (buffer st) >? 0); [|reflexivity].
  destruct (iteration parse st) as [st'|st' events] eqn:Hround; [reflexivity|].
  apply iteration_continues in Hround.
  now rewrite (IH fuel' st') by lia.
Qed.

Lemma processBuffer_fuel (fuel : nat) (st : ReaderState) :
  (roundsLeft st < fuel)%nat ->
  processBufferLoop parse fuel st = processBuffer parse st.
Proof.
  intros Hfuel. apply processBufferLoop_fuel; [exact Hfuel|].
  unfold roundsLeft. destruct (contentLength st =? -1); lia.
Qed.

(** The reader on a buffer that starts with a whole ASCII frame: the body
    is cut out and parsed, and the pass goes on with what follows. *)
Lemma processBuffer_frame (content tail : string) :
  byteLength content = Js.length content ->
  processBuffer parse
    {| buffer := encodeFrame content +:+ tail; contentLength := -1 |} =
  match processBuffer parse {| buffer := tail; contentLength := -1 |} with
  | Some (st, later) =>
      Some (st, match parse content with
                | Some message => Delivered message
                | None => ParseFailure content
                end :: later)
  | None => None
  end.
Proof.
  intros Hascii.
  unfold processBuffer at 1. cbn [buffer].
  replace (2 * String.length (encodeFrame content +:+ tail) + 2)%nat
    with (S (2 * String.length (encodeFrame content +:+ tail) + 1)) by lia.
  cbn [processBufferLoop buffer].
  assert (Hframe : encodeFrame content +:+ tail =
                   "Content-Length: " +:+ Js.numberToString (byteLength content)
                     +:+ headerTerminator +:+ (content +:+ tail)).
  { unfold encodeFrame. now rewrite !append_assoc. }
  replace (Js.length (encodeFrame content +:+ tail) >? 0) with true
    by (rewrite Hframe; symmetry; apply length_positive).
  rewrite Hframe at 1.
  rewrite iteration_on_header by (rewrite Hascii; unfold Js.length; lia).
  unfold readBody; cbn [buffer contentLength].
  rewrite Hascii. unfold Js.length at 1 2.
  replace (Z.of_nat (String.length (content +:+ tail))
           <? Z.of_nat (String.length content)) with false
    by (symmetry; apply Z.ltb_ge; rewrite length_append; lia).
  unfold Js.length.
  rewrite substring_prefix by (rewrite length_append; lia).
  rewrite substringFrom_suffix by (rewrite length_append; lia).
  rewrite take_append, drop_append.
  assert (Hrest : processBufferLoop parse
                    (2 * String.length (encodeFrame content +:+ tail) + 1)
                    {| buffer := tail; contentLength := -1 |}
                  = processBuffer parse {| buffer := tail; contentLength := -1 |}).
  { apply processBuffer_fuel. unfold roundsLeft; cbn [buffer contentLength].
    change (-1 =? -1) with true; cbv iota.
    rewrite Hframe, !length_append. lia. }
  destruct (parse content); rewrite Hrest;
    now destruct (processBuffer parse _) as [[st later]|].
Qed.

Lemma processBuffer_empty :
  processBuffer parse {| buffer := EmptyString; contentLength := -1 |}
  = Some (initialReader, []).
Proof. reflexivity. Qed.

(** Any number of frames in one chunk.  A reader that has read nothing is
    given the frames of ASCII contents one after the other, in one chunk:
    each content that parses is delivered, each other one is logged and
    dropped, in the order of the frames, and the reader ends as it
    started. *)
Theorem frames_in_one_chunk (contents : list string) :
  Forall (fun content => byteLength content = Js.length content) contents ->
  onData parse initialReader (encodeFrames contents) =
  Some (initialReader,
        map (fun content =>
               match parse content with
               | Some message => Delivered message
               | None => ParseFailure content
               end) contents).
Proof.
  intros Hascii. unfold onData; cbn [buffer contentLength initialReader].
  change (EmptyString +:+ encodeFrames contents) with (encodeFrames contents).
  induction Hascii as [|content contents Hcontent _ IH].
  - reflexivity.
  - cbn [encodeFrames fold_right map]. fold (encodeFrames contents).
    now rewrite processBuffer_frame, IH by exact Hcontent.
Qed.

(** A block of header lines without a content length is dropped, and the
    pass goes on behind its terminator. *)
Lemma processBuffer_invalid_header (header tail : string) :
  Js.find headerTerminator (header +:+ headerTerminator)
    = Some (String.length header) ->
  matchContentLength header = None ->
  processBuffer parse
    {| buffer := header +:+ headerTerminator +:+ tail; contentLength := -1 |} =
  match processBuffer parse {| buffer := tail; contentLength := -1 |} with
  | Some (st, later) => Some (st, InvalidHeader header :: later)
  | None => None
  end.
Proof.
  intros Hend Hmatch.
  assert (Hfind : Js.indexOf (header +:+ headerTerminator +:+ tail)
                    headerTerminator = Z.of_nat (String.length header)).
  { unfold Js.indexOf. rewrite <- append_assoc.
    now rewrite (find_prefix _ _ tail _ Hend). }
  unfold processBuffer at 1. cbn [buffer].
  replace (2 * String.length (header +:+ headerTerminator +:+ tail) + 2)%nat
    with (S (2 * String.length (header +:+ headerTerminator +:+ tail) + 1))
    by lia.
  cbn [processBufferLoop buffer].
  replace (Js.length (header +:+ headerTerminator +:+ tail) >? 0) with true
    by (symmetry; apply Z.gtb_lt; unfold Js.length;
        rewrite !length_append; simpl; lia).
  unfold iteration; cbn [buffer contentLength].
  change (-1 =? -1) with true; cbv iota.
  rewrite Hfind.
  destruct (Z.eqb_spec (Z.of_nat (String.length header)) (-1)); [lia|].
  destruct (header_cut header tail) as [-> ->]. rewrite Hmatch.
  rewrite processBuffer_fuel
    by (unfold roundsLeft; cbn [buffer contentLength];
        change (-1 =? -1) with true; cbv iota;
        rewrite !length_append; simpl; lia).
  now destruct (processBuffer parse _) as [[st later]|].
Qed.

(** Noise before a frame.  A block of header lines that names no content
    length, with its terminator, followed by the frame of an ASCII content:
    the block is logged and dropped, the frame behind it is read as
    usual. *)
Theorem invalid_header_skipped (header content : string) :
  Js.find headerTerminator (header +:+ headerTerminator)
    = Some (String.length header) ->
  matchContentLength header = None ->
  byteLength content = Js.length content ->
  onData parse initialReader
    (header +:+ headerTerminator +:+ encodeFrame content) =
  Some (initialReader,
        [InvalidHeader header;
         match parse content with
         | Some message => Delivered message
         | None => ParseFailure content
         end]).
Proof.
  intros Hend Hmatch Hascii.
  unfold onData; cbn [buffer contentLength initialReader].
  change (EmptyString +:+ ?x) with x.
  rewrite processBuffer_invalid_header by assumption.
  rewrite <- (append_nil_r (encodeFrame content)).
  now rewrite processBuffer_frame by exact Hascii.
Qed.

(** No terminator in what comes before the end of the header of a
    frame. *)
Lemma header_incomplete (content a b : string) :
  a +:+ b = encodeFrame content ->
  (String.length a <
   String.length ("Content-Length: "
                  +:+ Js.numberToString (byteLength content)) + 4)%nat ->
  Js.indexOf a headerTerminator = -1.
Proof.
  intros Hsplit Hshort. unfold Js.indexOf.
  destruct (Js.find headerTerminator a) as [i|] eqn:Hfind; [|reflexivity].
  exfalso.
  pose proof (find_bound _ _ _ Hfind) as Hbound.
  pose proof (find_prefix _ _ b _ Hfind) as Hwhole.
  rewrite Hsplit in Hwhole.
  pose proof (byteLength_bounds content) as Hb. unfold Js.length in Hb.
  destruct (numberToString_spec (byteLength content) ltac:(lia))
    as (Hall & _ & _).
  set (header := "Content-Length: "
                 +:+ Js.numberToString (byteLength content)) in *.
  assert (Hheader : Js.all (fun c => negb (Ascii.eqb "013" c)) header = true).
  { unfold header. rewrite all_append. apply andb_true_iff. split.
    - reflexivity.
    - now apply (all_impl Js.isDigit); [exact digit_not_CR|]. }
  pose proof (headerEnd_found header content Hheader) as Hend.
  unfold Js.indexOf in Hend.
  replace (header +:+ headerTerminator +:+ content)
    with (encodeFrame content) in Hend
    by (unfold encodeFrame, header; now rewrite !append_assoc).
  rewrite Hwhole in Hend. simpl in Hbound. lia.
Qed.

(** A frame in two chunks.  The frame of an ASCII content that parses
    arrives cut in two at any place, in the header or in the body: the
    message is delivered once, after the second chunk unless that chunk is
    empty, and the reader ends as it started. *)
Theorem frame_in_two_chunks (content a b : string) (message : Message) :
  byteLength content = Js.length content ->
  parse content = Some message ->
  a +:+ b = encodeFrame content ->
  exists st early late,
    onData parse initialReader a = Some (st, early) /\
    onData parse st b = Some (initialReader, late) /\
    early ++ late = [Delivered message] /\
    (b <> EmptyString -> early = []).
Proof.
  intros Hascii Hparse Hsplit.
  assert (Hwhole : processBuffer parse
                     {| buffer := a +:+ b; contentLength := -1 |}
                   = Some (initialReader, [Delivered message])).
  { rewrite Hsplit, <- (append_nil_r (encodeFrame content)).
    rewrite processBuffer_frame by exact Hascii.
    now rewrite Hparse. }
  set (header := "Content-Length: "
                 +:+ Js.numberToString (byteLength content)).
  destruct (Nat.lt_ge_cases (String.length a) (String.length header + 4))
    as [Hshort|Hlong].
  - (* the cut is in the header *)
    exists {| buffer := a; contentLength := -1 |}, [], [Delivered message].
    split; [|split; [exact Hwhole | split; [reflexivity | auto]]].
    unfold onData, processBuffer; cbn [buffer contentLength initialReader].
    change (EmptyString +:+ a) with a.
    destruct a as [|c a]; [reflexivity|].
    replace (2 * String.length (String c a) + 2)%nat
      with (S (2 * String.length (String c a) + 1)) by lia.
    cbn [processBufferLoop buffer]. rewrite length_positive.
    unfold iteration; cbn [buffer contentLength].
    change (-1 =? -1) with true; cbv iota.
    now rewrite (header_incomplete content (String c a) b Hsplit Hshort).
  - (* the cut is in the body *)
    assert (Hframe : encodeFrame content
                     = (header +:+ headerTerminator) +:+ content)
      by (unfold encodeFrame, header; now rewrite !append_assoc).
    destruct (append_split (header +:+ headerTerminator) content a b)
      as (body & Ha & Hcontent).
    { now rewrite Hsplit, Hframe. }
    { rewrite length_append.
      change (String.length headerTerminator) with 4%nat. lia. }
    destruct b as [|c b].
    + (* nothing is left for the second chunk *)
      exists initialReader, [Delivered message], [].
      rewrite append_nil_r in Hwhole.
      split; [exact Hwhole|]. split; [reflexivity|].
      split; [reflexivity | congruence].
    + exists {| buffer := body; contentLength := byteLength content |},
             [], [Delivered message].
      assert (Hbody : (String.length body < String.length content)%nat)
        by (rewrite Hcontent, length_append; simpl; lia).
      split; [|split; [|split; [reflexivity | auto]]].
      * unfold onData, processBuffer; cbn [buffer contentLength initialReader].
        change (EmptyString +:+ a) with a. rewrite Ha.
        replace (2 * String.length ((header +:+ headerTerminator) +:+ body) + 2)%nat
          with (S (2 * String.length ((header +:+ headerTerminator) +:+ body) + 1))
          by lia.
        cbn [processBufferLoop buffer].
        replace (Js.length ((header +:+ headerTerminator) +:+ body) >? 0)
          with true
          by (symmetry; apply Z.gtb_lt; unfold Js.length;
              rewrite !length_append; simpl; lia).
        unfold header. rewrite !append_assoc.
        rewrite iteration_on_header
          by (rewrite Hascii; unfold Js.length; lia).
        unfold readBody; cbn [buffer contentLength].
        rewrite Hascii. unfold Js.length.
        now replace (Z.of_nat (String.length body)
                     <? Z.of_nat (String.length content)) with true
          by (symmetry; apply Z.ltb_lt; lia).
      * unfold onData, processBuffer; cbn [buffer contentLength].
        rewrite <- Hcontent.
        destruct content as [|d content]; [simpl in Hbody; lia|].
        replace (2 * String.length (String d content) + 2)%nat
          with (S (2 * String.length (String d content) + 1)) by lia.
        cbn [processBufferLoop buffer]. rewrite length_positive.
        unfold iteration; cbn [buffer contentLength].
        replace (byteLength (String d content) =? -1) with false
          by (symmetry; apply Z.eqb_neq; rewrite Hascii;
              unfold Js.length; lia).
        unfold readBody; cbn [buffer contentLength].
        rewrite Hascii, Z.ltb_irrefl. unfold Js.length.
        rewrite substring_prefix, substringFrom_suffix, take_all, drop_all,
          Hparse by lia.
        destruct (String.length (String d content)); reflexivity.
Qed.

End Reader.

Section OnSamples.
Import Json Client Samples.

(** The [exit] notification and a body that is not JSON (an object left
    open), in one chunk. *)
Lemma frames_in_one_chunk_witness :
  Transport.onData (@JSON_parse sampleParser) initialReader
    (encodeFrames [stringify (messageToJson exitNotification); "{"])
  = Some (initialReader, [Delivered exitNotification; ParseFailure "{"]).
Proof.
  rewrite (frames_in_one_chunk (@JSON_parse sampleParser)
             [stringify (messageToJson exitNotification); "{"])
    by (repeat constructor).
  vm_compute. reflexivity.
Defined.

(** A [Content-Type] line alone, then the frame of [exit]. *)
Lemma invalid_header_skipped_witness :
  Transport.onData (@JSON_parse sampleParser) initialReader
    ("Content-Type: application/json" +:+ headerTerminator
       +:+ frameOf exitNotification)
  = Some (initialReader,
          [InvalidHeader "Content-Type: application/json";
           Delivered exitNotification]).
Proof.
  unfold frameOf.
  rewrite (invalid_header_skipped (@JSON_parse sampleParser)
             "Content-Type: application/json"
             (stringify (messageToJson exitNotification)))
    by (vm_compute; reflexivity).
  vm_compute. reflexivity.
Defined.

(** The frame of [exit], cut after [Content-Len]. *)
Lemma frame_in_two_chunks_witness :
  exists st early late,
    Transport.onData (@JSON_parse sampleParser) initialReader "Content-Len"
      = Some (st, early) /\
    Transport.onData (@JSON_parse sampleParser) st
      (Js.drop 11 (frameOf exitNotification))
      = Some (initialReader, late) /\
    early ++ late = [Delivered exitNotification] /\
    (Js.drop 11 (frameOf exitNotification) <> EmptyString -> early = []).
Proof.
  apply (frame_in_two_chunks (@JSON_parse sampleParser)
           (stringify (messageToJson exitNotification)));
    vm_compute; reflexivity.
Defined.

End OnSamples.
End ReaderFacts.

(** ** Sessions: answers, shutdown *)
Module SessionFacts.
Import Json Client ClientFacts RequestFacts.
Open Scope client_scope.

Section Session.
Context `{ErrorFormatter} `{LanguageDetection} `{JsonParser}.

(** A request touches the bookkeeping of requests and nothing else. *)
Lemma sendRequest_keeps (st : LSPClientState) (method : string)
    (params : option Json) (reply : ServerReply) :
  let st' := fst (sendRequest method params reply st) in
  openDocuments st' = openDocuments st /\
  diagnostics st' = diagnostics st /\
  languageId st' = languageId st.
Proof.
  cbn zeta.
  unfold sendRequest, sendRequestStart, sendMessage, handleMessage,
    responseHandler, onRequestTimeout, settle.
  cbn -[lookup insert delete].
  destruct (process st) as [p|]; cbn -[lookup insert delete];
    repeat (case_match; cbn -[lookup insert delete] in * );
    simplify_eq; cbn -[lookup insert delete]; auto.
Qed.

(** *** Requests without a server *)

(** Without a server process a request is rejected at once with
    [LSP server not started], whatever would have been answered.  The id is
    used up, and the handler and the timer of the request stay registered
    until the timer fires; the timer then removes them and leaves the
    rejection as it is. *)
Theorem sendRequest_detached (st : LSPClientState) (method : string)
    (params : option Json) (reply : ServerReply) :
  process st = None ->
  freshIds st ->
  let rid := messageId st + 1 in
  let st' := fst (sendRequest method params reply st) in
  let expired := onRequestTimeout rid st' in
  snd (sendRequest method params reply st)
    = Throw (newError "LSP server not started") /\
  messageId st' = rid /\
  is_Some (responseHandlers st' !! rid) /\
  is_Some (timers st' !! rid) /\
  responseHandlers expired !! rid = None /\
  timers expired !! rid = None /\
  settled expired !! rid = Some (Throw (newError "LSP server not started")).
Proof.
  intros Hp Hfresh rid st' expired.
  destruct (Hfresh rid ltac:(unfold rid; lia)) as (Hsettled & _ & _).
  assert (Hrun : sendRequest method params reply st =
                 (withSettled
                    (<[rid := Throw (newError "LSP server not started")]>
                       (settled st))
                    (withResponseHandlers
                       (<[rid := {| pendingMethod := method;
                                    pendingParams := params |}]>
                          (responseHandlers st))
                       (withTimers
                          (<[rid := {| delay := 30000;
                                       timerRequest :=
                                         {| pendingMethod := method;
                                            pendingParams := params |} |}]>
                             (timers st))
                          (withMessageId rid st))),
                  Throw (newError "LSP server not started"))).
  { unfold sendRequest, sendRequestStart. fold rid.
    rewrite sendMessage_detached by exact Hp.
    rewrite settle_fresh by exact Hsettled.
    cbn [settled withSettled]. now rewrite lookup_insert_eq. }
  unfold expired, st'. rewrite Hrun. cbn [fst snd].
  split; [reflexivity|]. split; [reflexivity|].
  split; [cbn; rewrite lookup_insert_eq; eauto|].
  split; [cbn; rewrite lookup_insert_eq; eauto|].
  unfold onRequestTimeout, settle; cbn -[lookup insert delete].
  rewrite !lookup_insert_eq; cbn -[lookup insert delete].
  rewrite !lookup_delete_eq, lookup_insert_eq. auto.
Qed.

(** *** Answers find their request *)

(** Two requests are out at once and the server answers the second one
    first.  Each promise is resolved with the result sent under its own id,
    no handler and no timer is left for either, and a response that repeats
    one of the two ids afterwards changes nothing. *)
Theorem responses_matched_by_id (st : LSPClientState)
    (method1 method2 : string) (params1 params2 : option Json)
    (r1 r2 : Json) :
  ready st ->
  let id1 := messageId st + 1 in
  let id2 := messageId st + 2 in
  let st1 := fst (sendRequestStart method1 params1 st) in
  let st2 := fst (sendRequestStart method2 params2 st1) in
  let st3 := fst (handleMessage (resultResponse id2 r2) st2) in
  let st4 := fst (handleMessage (resultResponse id1 r1) st3) in
  snd (sendRequestStart method1 params1 st) = Normal id1 /\
  snd (sendRequestStart method2 params2 st1) = Normal id2 /\
  settled st3 !! id1 = None /\
  settled st4 !! id1 = Some (Normal r1) /\
  settled st4 !! id2 = Some (Normal r2) /\
  responseHandlers st4 !! id1 = None /\
  responseHandlers st4 !! id2 = None /\
  timers st4 !! id1 = None /\
  timers st4 !! id2 = None /\
  (forall n r, n = id1 \/ n = id2 ->
     handleMessage (resultResponse n r) st4 = (st4, Normal tt)).
Proof.
  intros [[p Hp] Hfresh] id1 id2 st1 st2 st3 st4.
  destruct (Hfresh id1 ltac:(unfold id1; lia)) as (Hs1 & Hh1 & Ht1).
  destruct (Hfresh id2 ltac:(unfold id2; lia)) as (Hs2 & Hh2 & Ht2).
  assert (Hstart1 := sendRequestStart_attached method1 params1 st p Hp).
  cbn zeta in Hstart1. fold id1 in Hstart1.
  assert (Hp1 : process st1 =
                Some (afterWrite (frameOf (request id1 method1 params1)) p))
    by (unfold st1; now rewrite Hstart1).
  assert (Hid1 : messageId st1 + 1 = id2)
    by (unfold st1; rewrite Hstart1; cbn; unfold id1, id2; lia).
  assert (Hstart2 := sendRequestStart_attached method2 params2 st1 _ Hp1).
  cbn zeta in Hstart2. rewrite Hid1 in Hstart2.
  assert (Hne : id1 <> id2) by (unfold id1, id2; lia).
  assert (Hne' : id2 <> id1) by (unfold id1, id2; lia).
  assert (Hst3 : st3 =
                 withResponseHandlers
                   (delete id2 (delete id2 (responseHandlers st2)))
                   (withSettled (<[id2 := Normal r2]> (settled st2))
                      (withResponseHandlers (delete id2 (responseHandlers st2))
                         (withTimers (delete id2 (timers st2)) st2)))).
  { unfold st3, handleMessage, responseHandler, resultResponse.
    cbn -[lookup insert delete].
    replace (responseHandlers st2 !! id2)
      with (Some {| pendingMethod := method2; pendingParams := params2 |})
      by (unfold st2; rewrite Hstart2; cbn -[lookup insert delete];
          now rewrite lookup_insert_eq).
    cbn -[lookup insert delete].
    rewrite settle_fresh; [reflexivity|].
    cbn -[lookup insert delete].
    unfold st2; rewrite Hstart2; cbn -[lookup insert delete].
    unfold st1; rewrite Hstart1; cbn -[lookup insert delete]. exact Hs2. }
  assert (Hh3 : responseHandlers st3 !! id1
                = Some {| pendingMethod := method1; pendingParams := params1 |}).
  { rewrite Hst3; cbn -[lookup insert delete].
    rewrite !lookup_delete_ne by exact Hne'.
    unfold st2; rewrite Hstart2; cbn -[lookup insert delete].
    rewrite lookup_insert_ne by exact Hne'.
    unfold st1; rewrite Hstart1; cbn -[lookup insert delete].
    now rewrite lookup_insert_eq. }
  assert (Hs3 : settled st3 !! id1 = None).
  { rewrite Hst3; cbn -[lookup insert delete].
    rewrite lookup_insert_ne by exact Hne'.
    unfold st2; rewrite Hstart2; cbn -[lookup insert delete].
    unfold st1; rewrite Hstart1; cbn -[lookup insert delete]. exact Hs1. }
  assert (Hst4 : st4 =
                 withResponseHandlers
                   (delete id1 (delete id1 (responseHandlers st3)))
                   (withSettled (<[id1 := Normal r1]> (settled st3))
                      (withResponseHandlers (delete id1 (responseHandlers st3))
                         (withTimers (delete id1 (timers st3)) st3)))).
  { unfold st4, handleMessage, responseHandler, resultResponse.
    cbn -[lookup insert delete]. rewrite Hh3.
    cbn -[lookup insert delete].
    rewrite settle_fresh; [reflexivity|].
    cbn -[lookup insert delete]. exact Hs3. }
  split; [now rewrite Hstart1|]. split; [now rewrite Hstart2|].
  split; [exact Hs3|].
  assert (Hgone1 : responseHandlers st4 !! id1 = None)
    by (rewrite Hst4; cbn -[lookup insert delete]; apply lookup_delete_eq).
  assert (Hgone2 : responseHandlers st4 !! id2 = None).
  { rewrite Hst4; cbn -[lookup insert delete].
    rewrite !lookup_delete_ne by exact Hne.
    rewrite Hst3; cbn -[lookup insert delete]. apply lookup_delete_eq. }
  split; [rewrite Hst4; cbn -[lookup insert delete]; apply lookup_insert_eq|].
  split.
  { rewrite Hst4; cbn -[lookup insert delete].
    rewrite lookup_insert_ne by exact Hne.
    rewrite Hst3; cbn -[lookup insert delete]. apply lookup_insert_eq. }
  split; [exact Hgone1|]. split; [exact Hgone2|].
  split; [rewrite Hst4; cbn -[lookup insert delete]; apply lookup_delete_eq|].
  split.
  { rewrite Hst4; cbn -[lookup insert delete].
    rewrite lookup_delete_ne by exact Hne.
    rewrite Hst3; cbn -[lookup insert delete]. apply lookup_delete_eq. }
  intros n r [-> | ->]; unfold handleMessage, resultResponse;
    cbn -[lookup insert delete]; [rewrite Hgone1 | rewrite Hgone2]; reflexivity.
Qed.

(** *** Definitions and pulled diagnostics *)

(** Whenever [getDefinition] resolves, it resolves with an array.  On a
    started client a null result gives the empty array, an array is passed
    on, a single object with a [uri] is wrapped, a single object without
    one (a lone location link) is dropped, and a result that is a number,
    a string or [true] rejects the call. *)
Theorem getDefinition_gives_array (st : LSPClientState) (uri : string)
    (position : Lsp.Position) :
  (forall reply v,
     snd (getDefinition uri position reply st) = Normal v ->
     exists items, v = JArr items) /\
  (ready st ->
   snd (getDefinition uri position (ReplyResult JNull) st) = Normal (JArr [])
   /\
   (forall items,
      snd (getDefinition uri position (ReplyResult (JArr items)) st)
      = Normal (JArr items)) /\
   (forall fields,
      snd (getDefinition uri position (ReplyResult (JObj fields)) st)
      = Normal (JArr (if JsMap.has "uri" fields then [JObj fields] else [])))
   /\
   (forall r, truthy r = true ->
      (forall items, r <> JArr items) -> (forall fields, r <> JObj fields) ->
      snd (getDefinition uri position (ReplyResult r) st)
      = Throw (notAnObject "uri" r))).
Proof.
  split.
  - intros reply v. unfold getDefinition, bind.
    destruct (sendRequest _ _ reply st) as [st' [r|e]]; [|discriminate].
    destruct (negb (truthy r)); [intros [= <-]; eauto|].
    destruct r as [|b|n|s|items|fields]; try discriminate.
    + intros [= <-]; eauto.
    + destruct (JsMap.has "uri" fields); intros [= <-]; eauto.
  - intros Hready.
    assert (Hrun : forall r,
              snd (getDefinition uri position (ReplyResult r) st) =
              if negb (truthy r) then Normal (JArr [])
              else match r with
                   | JArr _ => Normal r
                   | JObj fields =>
                       Normal (JArr (if JsMap.has "uri" fields
                                     then [r] else []))
                   | _ => Throw (notAnObject "uri" r)
                   end).
    { intros r.
      destruct (sendRequest_ready st "textDocument/definition"
                  (Some (textDocumentPosition uri position)) (ReplyResult r)
                  Hready) as (st' & Hsend & _).
      unfold getDefinition. rewrite (bind_normal _ _ _ _ _ Hsend).
      destruct (negb (truthy r)); [reflexivity|].
      destruct r as [|b|n|s|items|fields]; try reflexivity.
      now destruct (JsMap.has "uri" fields). }
    split; [now rewrite Hrun|]. split; [intros; now rewrite Hrun|].
    split; [intros; now rewrite Hrun|].
    intros r Htruthy Harr Hobj. rewrite Hrun, Htruthy. simpl.
    destruct r as [|b|n|s|items|fields]; try reflexivity.
    + now destruct (Harr items).
    + now destruct (Hobj fields).
Qed.

(** [pullDiagnostics] never fails on a started client.  When the server
    refuses the request or does not answer, the caller gets the diagnostics
    stored for the document and the store is untouched; when it answers
    with a list of items, the caller gets the list, and the list replaces
    what was stored for the document. *)
Theorem pullDiagnostics_falls_back (st : LSPClientState) (uri : string) :
  ready st ->
  (forall reply, exists v, snd (pullDiagnostics uri reply st) = Normal v) /\
  (forall reply,
     reply = NoReply \/ (exists e, reply = ReplyError e) ->
     snd (pullDiagnostics uri reply st) = Normal (JArr (getDiagnostics uri st))
     /\ diagnostics (fst (pullDiagnostics uri reply st)) = diagnostics st) /\
  (forall fields items,
     JsMap.get "items" fields = Some (JArr items) ->
     snd (pullDiagnostics uri (ReplyResult (JObj fields)) st)
       = Normal (JArr items) /\
     getDiagnostics uri (fst (pullDiagnostics uri (ReplyResult (JObj fields)) st))
       = items).
Proof.
  intros Hready.
  assert (Hsend : forall reply, exists st',
            sendRequest "textDocument/diagnostic"
              (Some (JObj [("textDocument", JObj [("uri", JStr uri)])]))
              reply st =
            (st', replyOutcome (languageId st) "textDocument/diagnostic"
                    (Some (JObj [("textDocument", JObj [("uri", JStr uri)])]))
                    reply)
            /\ diagnostics st' = diagnostics st).
  { intros reply.
    destruct (sendRequest_ready st "textDocument/diagnostic"
                (Some (JObj [("textDocument", JObj [("uri", JStr uri)])]))
                reply Hready) as (st' & Hrun & _).
    exists st'. split; [exact Hrun|].
    pose proof (sendRequest_keeps st "textDocument/diagnostic"
                  (Some (JObj [("textDocument", JObj [("uri", JStr uri)])]))
                  reply) as Hkeeps.
    cbn zeta in Hkeeps. rewrite Hrun in Hkeeps. apply Hkeeps. }
  split; [|split].
  - intros reply. destruct (Hsend reply) as (st' & Hrun & _).
    unfold pullDiagnostics, bind, tryCatch. rewrite Hrun.
    destruct reply as [r|e|]; cbn [replyOutcome]; [|eauto..].
    destruct (if truthy r then prop r "items" else None) as [items|];
      [|eauto].
    destruct (truthy items); eauto.
  - intros reply Hreply. destruct (Hsend reply) as (st' & Hrun & Hdiag).
    unfold pullDiagnostics, bind, tryCatch. rewrite Hrun.
    destruct Hreply as [-> | [e ->]]; cbn; unfold getDiagnostics;
      now rewrite Hdiag.
  - intros fields items Hitems.
    destruct (Hsend (ReplyResult (JObj fields))) as (st' & Hrun & Hdiag).
    unfold pullDiagnostics, bind, tryCatch. rewrite Hrun.
    cbn -[lookup insert]. rewrite Hitems. cbn -[lookup insert].
    split; [reflexivity|]. unfold getDiagnostics. cbn -[lookup insert].
    now rewrite lookup_insert_eq.
Qed.

(** *** Opening and closing *)

(** A document that was not open is opened and closed again, with a server
    attached.  Both calls return; the set of open documents is what it was;
    nothing is stored as diagnostics of the document, and what is stored
    for other documents is untouched; the server was sent the [didOpen] and
    then the [didClose], and nothing else. *)
Theorem open_then_close (st : LSPClientState) (p : ChildProcess)
    (uri text : string) (language : option string) :
  process st = Some p ->
  uri ∉ openDocuments st ->
  let opened := openDocument uri text language st in
  let closed := closeDocument uri opened.1 in
  opened.2 = Normal tt /\
  closed.2 = Normal tt /\
  openDocuments closed.1 = openDocuments st /\
  getDiagnostics uri closed.1 = [] /\
  (forall other, other <> uri ->
     getDiagnostics other closed.1 = getDiagnostics other st) /\
  process closed.1 =
    Some (afterWrite
            (frameOf (notification "textDocument/didClose"
                        (Some (didCloseParams uri))))
            (afterWrite
               (frameOf (notification "textDocument/didOpen"
                           (Some (didOpenParams uri
                                    (actualLanguageId uri language st)
                                    text))))
               p)).
Proof.
  intros Hp Hclosed opened closed.
  assert (Hopened : opened =
            (withOpenDocuments ({[uri]} ∪ openDocuments st)
               (withProcess
                  (Some (afterWrite
                           (frameOf
                              (notification "textDocument/didOpen"
                                 (Some (didOpenParams uri
                                          (actualLanguageId uri language st)
                                          text)))) p)) st),
             Normal tt)).
  { unfold opened, openDocument, sendNotification, bind, gets, modify.
    now rewrite (sendMessage_attached _ _ p Hp). }
  assert (Hrun : closed = closeDocument uri opened.1) by reflexivity.
  rewrite Hopened in Hrun. cbn [fst] in Hrun.
  erewrite closeDocument_attached in Hrun by reflexivity.
  rewrite Hrun, Hopened. cbn [fst snd].
  split; [reflexivity|]. split; [reflexivity|]. split.
  - cbn. apply set_eq. intros x.
    rewrite elem_of_difference, elem_of_union, elem_of_singleton.
    split; [intros [[->|Hx] Hne]; [contradiction | exact Hx]|].
    intros Hx. split; [now right|]. now intros ->.
  - split; [|split].
    + unfold getDiagnostics. cbn. now rewrite lookup_delete_eq.
    + intros other Hother. unfold getDiagnostics. cbn.
      now rewrite lookup_delete_ne by congruence.
    + reflexivity.
Qed.

(** *** Shutdown *)

(** [stop] never fails and detaches the server, whatever the server makes
    of the shutdown request; a second [stop] does nothing.  It does not
    forget the documents: those that were open are still reported open, and
    the stored diagnostics stay.  From then on opening a document fails. *)
Theorem stop_detaches (st : LSPClientState) (reply again : ServerReply) :
  let st' := fst (stop reply st) in
  snd (stop reply st) = Normal tt /\
  process st' = None /\
  openDocuments st' = openDocuments st /\
  diagnostics st' = diagnostics st /\
  stop again st' = (st', Normal tt) /\
  (forall uri text language,
     openDocument uri text language st' =
     (st', Throw (newError "LSP server not started"))).
Proof.
  cbn zeta.
  assert (Hgone : process (fst (stop reply st)) = None).
  { unfold stop. destruct (process st) eqn:Hp; [reflexivity | exact Hp]. }
  split; [unfold stop; now destruct (process st)|].
  split; [exact Hgone|].
  assert (Hkeeps : openDocuments (fst (stop reply st)) = openDocuments st /\
                   diagnostics (fst (stop reply st)) = diagnostics st).
  { unfold stop. destruct (process st) as [p|]; [|now split].
    cbn [fst withProcess openDocuments diagnostics].
    destruct (sendRequest_keeps st "shutdown" None reply) as (Hdocs & Hdiag & _).
    unfold tryCatch, bind, sendNotification.
    destruct (sendRequest "shutdown" None reply st) as [st1 [r|e]];
      cbn [fst] in *; [|now split].
    destruct (sendMessage_frame (notification "exit" None) st1)
      as (_ & _ & Hdiag' & Hdocs' & _).
    destruct (sendMessage (notification "exit" None) st1) as [st2 [[]|e]];
      cbn [fst ret] in *; split; congruence. }
  split; [apply Hkeeps|]. split; [apply Hkeeps|]. split.
  - unfold stop at 1. now rewrite Hgone.
  - intros uri text language.
    unfold openDocument, sendNotification, bind, gets.
    now rewrite sendMessage_detached by exact Hgone.
Qed.

End Session.

Section OnSamples.
Import Samples.

#[local] Existing Instances sampleFormatter sampleDetection sampleParser.

(** A hover asked after the server has exited. *)
Lemma sendRequest_detached_witness :
  snd (sendRequest "textDocument/hover" None (ReplyResult JNull)
         (fst (onExit (Some 0) tsClient)))
  = Throw (newError "LSP server not started").
Proof.
  exact (proj1 (sendRequest_detached (fst (onExit (Some 0) tsClient))
                  "textDocument/hover" None (ReplyResult JNull)
                  eq_refl tsClient_fresh)).
Defined.

(** A hover and a definition request, answered in the opposite order. *)
Lemma responses_matched_by_id_witness :
  let st1 := fst (sendRequestStart "textDocument/hover" None tsClient) in
  let st2 := fst (sendRequestStart "textDocument/definition" None st1) in
  let st3 := fst (handleMessage (resultResponse 2 (JArr [])) st2) in
  let st4 := fst (handleMessage (resultResponse 1 (JStr "const a: 1")) st3) in
  settled st4 !! 1 = Some (Normal (JStr "const a: 1")) /\
  settled st4 !! 2 = Some (Normal (JArr [])).
Proof.
  assert (Hready : ready tsClient)
    by (split; [eexists; reflexivity | exact tsClient_fresh]).
  destruct (responses_matched_by_id tsClient "textDocument/hover"
              "textDocument/definition" None None (JStr "const a: 1")
              (JArr []) Hready)
    as (_ & _ & _ & Hfirst & Hsecond & _).
  split; [exact Hfirst | exact Hsecond].
Defined.

(** [a.ts] opened and closed on a fresh client. *)
Lemma open_then_close_witness :
  openDocuments (closeDocument aUri (openA tsClient).1).1 = ∅ /\
  written (closeDocument aUri (openA tsClient).1).1
  = [didOpenA;
     frameOf (notification "textDocument/didClose"
                (Some (didCloseParams aUri)))].
Proof.
  destruct (open_then_close tsClient sampleProcess aUri "const a = 1;" None
              eq_refl (not_elem_of_empty aUri))
    as (_ & _ & Hdocs & _ & _ & Hprocess).
  split; [exact Hdocs|].
  unfold written, openA. now rewrite Hprocess.
Defined.

(** Diagnostics pulled from a server that does not answer. *)
Lemma pullDiagnostics_falls_back_witness :
  snd (pullDiagnostics aUri NoReply tsClient) = Normal (JArr []).
Proof.
  assert (Hready : ready tsClient)
    by (split; [eexists; reflexivity | exact tsClient_fresh]).
  destruct (pullDiagnostics_falls_back tsClient aUri Hready)
    as (_ & Hback & _).
  exact (proj1 (Hback NoReply (or_introl eq_refl))).
Defined.

End OnSamples.
End SessionFacts.

(** ** Text edits *)
Module EditsFacts.
Import Lsp Client Tools Edits JsFacts.

#[local] Arguments String.append _ _ : simpl nomatch.

(** *** Strings and lines *)

Lemma take_append_le (n : nat) (a b : string) :
  (n <= String.length a)%nat -> Js.take n (a +:+ b) = Js.take n a.
Proof.
  revert n. induction a as [|c a IH]; intros [|n] Hn; simpl in *;
    try lia.
  - now destruct b.
  - reflexivity.
  - rewrite IH by lia. reflexivity.
Qed.

Lemma drop_append_le (n : nat) (a b : string) :
  (n <= String.length a)%nat -> Js.drop n (a +:+ b) = Js.drop n a +:+ b.
Proof.
  revert n. induction a as [|c a IH]; intros [|n] Hn; simpl in *;
    try reflexivity; try lia.
  apply IH. lia.
Qed.

Lemma take_drop (n : nat) (s : string) : Js.take n s +:+ Js.drop n s = s.
Proof.
  revert n. induction s as [|c s IH]; intros [|n]; simpl; try reflexivity.
  now rewrite IH.
Qed.

Lemma substring_inside (s : string) (a b : Z) :
  0 <= a <= b -> b <= Js.length s ->
  Js.substring s a b = Js.take (Z.to_nat (b - a)) (Js.drop (Z.to_nat a) s).
Proof.
  intros Ha Hb. unfold Js.substring, Js.length in *.
  replace (Z.to_nat (Z.max 0 (Z.min a (Z.of_nat (String.length s)))))
    with (Z.to_nat a) by lia.
  replace (Z.to_nat (Z.max 0 (Z.min b (Z.of_nat (String.length s)))))
    with (Z.to_nat b) by lia.
  f_equal; [|f_equal]; lia.
Qed.

Lemma substring_head (s : string) (b : Z) :
  0 <= b <= Js.length s -> Js.substring s 0 b = Js.take (Z.to_nat b) s.
Proof.
  intros Hb. rewrite substring_inside by lia.
  now rewrite Z.sub_0_r.
Qed.

Lemma substringFrom_tail (s : string) (a : Z) :
  0 <= a <= Js.length s -> Js.substringFrom s a = Js.drop (Z.to_nat a) s.
Proof.
  intros Ha. unfold Js.substringFrom. rewrite substring_inside by lia.
  apply take_all. rewrite length_drop. unfold Js.length in *. lia.
Qed.

(** A string cut in three at two columns. *)
Lemma substring_three (s : string) (a b : Z) :
  0 <= a <= b -> b <= Js.length s ->
  Js.substring s 0 a +:+ Js.substring s a b +:+ Js.substringFrom s b = s.
Proof.
  intros Ha Hb.
  rewrite substring_head, substring_inside, substringFrom_tail by lia.
  rewrite <- (take_drop (Z.to_nat a) s) at 4. f_equal.
  rewrite <- (take_drop (Z.to_nat (b - a)) (Js.drop (Z.to_nat a) s)) at 2.
  f_equal.
  assert (Hdrop : forall n m t, Js.drop n (Js.drop m t) = Js.drop (m + n) t).
  { intros n m. revert n. induction m as [|m IH]; intros n t; [reflexivity|].
    destruct t as [|c t]; simpl; [now destruct n | apply IH]. }
  rewrite Hdrop. f_equal. lia.
Qed.

Lemma splitLines_cons (s : string) :
  exists text rest, Js.splitLines s = text :: rest.
Proof.
  induction s as [|c s (text & rest & IH)]; simpl; [eauto|].
  destruct (Ascii.eqb c "010"); [eauto|]. rewrite IH. eauto.
Qed.

(** Joining the lines of a text gives the text. *)
Lemma joinLines_splitLines (s : string) : joinLines (Js.splitLines s) = s.
Proof.
  induction s as [|c s IH]; [reflexivity|].
  cbn [Js.splitLines].
  destruct (splitLines_cons s) as (text & rest & Hsplit).
  destruct (Ascii.eqb_spec c "010") as [->|_].
  - rewrite Hsplit in *.
    change (joinLines (EmptyString :: text :: rest))
      with (EmptyString +:+ LF +:+ joinLines (text :: rest)).
    now rewrite IH.
  - rewrite Hsplit in *. destruct rest as [|next rest].
    + simpl in *. now rewrite IH.
    + change (joinLines (String c text :: next :: rest))
        with (String c text +:+ LF +:+ joinLines (next :: rest)).
      change (joinLines (text :: next :: rest))
        with (text +:+ LF +:+ joinLines (next :: rest)) in IH.
      now rewrite <- IH.
Qed.

Lemma lineAt_Some (lines : list string) (l : Z) (text : string) :
  lineAt lines l = Some text ->
  0 <= l /\ lines !! Z.to_nat l = Some text.
Proof.
  unfold lineAt. destruct (Z.ltb_spec l 0); [discriminate|]. now split.
Qed.

(** *** Edits that change nothing *)

(** Without edits the content comes back as it was.  So it does when one
    edit puts back the text it replaces: for a range inside one line of the
    content, the old text [processTextEdits] reports for it is the text
    between the two columns, and the edit that writes this text over the
    range leaves the content unchanged. *)
Theorem edit_with_old_text_changes_nothing (content : string) :
  applyTextEditsToContent content [] = Normal content /\
  (forall (l c1 c2 : Z) (text new : string),
     lineAt (Js.splitLines content) l = Some text ->
     0 <= c1 <= c2 -> c2 <= Js.length text ->
     processTextEdits (Js.splitLines content) [textEdit l c1 l c2 new] =
       Normal [{| changeLine := l + 1; changeColumn := c1 + 1;
                  oldText := Js.substring text c1 c2;
                  Tools.newText := new |}] /\
     applyTextEditsToContent content
       [textEdit l c1 l c2 (Js.substring text c1 c2)] = Normal content).
Proof.
  split.
  - unfold applyTextEditsToContent; simpl. now rewrite joinLines_splitLines.
  - intros l c1 c2 text new Hline Hc1 Hc2. split.
    + cbn [processTextEdits]. unfold oldTextOf, textEdit; cbn.
      now rewrite Z.eqb_refl, Hline.
    + unfold applyTextEditsToContent; cbn [sortEdits fold_right insertEdit
        applyTextEdits].
      unfold applyTextEdit, textEdit; cbn [editRange start end_ line character Edits.newText].
      rewrite Z.eqb_refl, Hline, substring_three by assumption.
      apply lineAt_Some in Hline as [_ Hline].
      now rewrite list_insert_id, joinLines_splitLines by exact Hline.
Qed.

(** *** Two edits on one line *)

Lemma take_take (n m : nat) (s : string) :
  (n <= m)%nat -> Js.take n (Js.take m s) = Js.take n s.
Proof.
  revert n m. induction s as [|c s IH]; intros [|n] [|m] Hnm; simpl;
    try reflexivity; try lia.
  rewrite IH by lia. reflexivity.
Qed.

Lemma drop_take (a b : nat) (s : string) :
  Js.drop a (Js.take b s) = Js.take (b - a) (Js.drop a s).
Proof.
  revert a b. induction s as [|c s IH]; intros [|a] [|b]; simpl;
    try reflexivity.
  - now destruct (b - a)%nat.
  - apply IH.
Qed.

(** One edit inside a line. *)
Lemma applyTextEdit_on_line (lines : list string) (l c1 c2 : Z)
    (text new : string) :
  lineAt lines l = Some text ->
  applyTextEdit lines (textEdit l c1 l c2 new) =
  Normal (<[Z.to_nat l := Js.substring text 0 c1 +:+ new
                           +:+ Js.substringFrom text c2]> lines).
Proof.
  intros Hline. unfold applyTextEdit, textEdit;
    cbn [editRange start end_ line character Edits.newText].
  now rewrite Z.eqb_refl, Hline.
Qed.

Lemma lineAt_insert (lines : list string) (l : Z) (text text' : string) :
  lineAt lines l = Some text ->
  lineAt (<[Z.to_nat l := text']> lines) l = Some text'.
Proof.
  unfold lineAt. destruct (Z.ltb_spec l 0); [discriminate|].
  intros Hline. apply list_lookup_insert_eq.
  now apply lookup_lt_Some in Hline.
Qed.

(** Two edits on one line, the first ending before the second starts, as
    a rename produces them.  The edit further right is applied first, so
    the columns of the other one still mean what they meant: the line
    becomes what is left of the first range, the first text, what lies
    between the ranges, the second text, and what is right of the second
    range.  The order of the two edits in the list does not matter. *)
Theorem two_edits_on_one_line (content : string) (l c1 c2 c3 c4 : Z)
    (text new1 new2 : string) :
  lineAt (Js.splitLines content) l = Some text ->
  0 <= c1 <= c2 -> c2 <= c3 -> c1 < c3 -> c3 <= c4 -> c4 <= Js.length text ->
  let first := textEdit l c1 l c2 new1 in
  let second := textEdit l c3 l c4 new2 in
  let edited :=
    joinLines
      (<[Z.to_nat l :=
           Js.substring text 0 c1 +:+ new1 +:+ Js.substring text c2 c3
             +:+ new2 +:+ Js.substringFrom text c4]>
         (Js.splitLines content)) in
  applyTextEditsToContent content [first; second] = Normal edited /\
  applyTextEditsToContent content [second; first] = Normal edited.
Proof.
  intros Hline Hc1 Hc2 Hlt Hc3 Hc4 first second edited.
  assert (Hsorted : sortEdits [first; second] = [second; first] /\
                    sortEdits [second; first] = [second; first]).
  { unfold sortEdits, first, second, textEdit; cbn [fold_right insertEdit].
    unfold compareEdits; cbn [editRange start end_ line character].
    rewrite Z.eqb_refl; cbn [negb].
    destruct (Z.leb_spec (c3 - c1) 0); [lia|].
    destruct (Z.leb_spec (c1 - c3) 0); [|lia]. now split. }
  assert (Hrun : applyTextEdits (Js.splitLines content) [second; first]
                 = Normal (<[Z.to_nat l :=
                               Js.substring text 0 c1 +:+ new1
                                 +:+ Js.substring text c2 c3 +:+ new2
                                 +:+ Js.substringFrom text c4]>
                             (Js.splitLines content))).
  { cbn [applyTextEdits]. unfold second at 1.
    rewrite (applyTextEdit_on_line _ _ _ _ text) by exact Hline.
    set (text2 := Js.substring text 0 c3 +:+ new2
                  +:+ Js.substringFrom text c4).
    unfold first.
    rewrite (applyTextEdit_on_line _ _ _ _ text2)
      by (eapply lineAt_insert; exact Hline).
    rewrite list_insert_insert_eq. do 2 f_equal.
    assert (Hhead : String.length (Js.take (Z.to_nat c3) text) = Z.to_nat c3)
      by (rewrite length_take; unfold Js.length in *; lia).
    assert (Hlen2 : (Z.to_nat c3 <= String.length text2)%nat).
    { unfold text2. rewrite substring_head by lia.
      rewrite length_append, Hhead. lia. }
    rewrite (substring_head text2) by (unfold Js.length; lia).
    rewrite (substringFrom_tail text2) by (unfold Js.length; lia).
    unfold text2. rewrite (substring_head text c3) by lia.
    rewrite take_append_le by (rewrite Hhead; lia).
    rewrite drop_append_le by (rewrite Hhead; lia).
    rewrite take_take by lia. rewrite drop_take.
    rewrite (substring_head text c1), (substring_inside text c2 c3) by lia.
    replace (Z.to_nat c3 - Z.to_nat c2)%nat with (Z.to_nat (c3 - c2)) by lia.
    reflexivity. }
  unfold applyTextEditsToContent.
  destruct Hsorted as [-> ->]. rewrite Hrun. now split.
Qed.

(** *** The order of the edits *)

Lemma compareEdits_lt (a b : TextEdit) :
  compareEdits a b < 0 <->
  line (start (editRange b)) < line (start (editRange a)) \/
  (line (start (editRange b)) = line (start (editRange a)) /\
   character (start (editRange b)) < character (start (editRange a))).
Proof.
  unfold compareEdits.
  destruct (Z.eqb_spec (line (start (editRange a)))
              (line (start (editRange b)))); simpl; lia.
Qed.

Lemma compareEdits_zero (a b : TextEdit) :
  compareEdits a b = 0 -> start (editRange a) = start (editRange b).
Proof.
  unfold compareEdits.
  destruct (Z.eqb_spec (line (start (editRange a)))
              (line (start (editRange b)))) as [Hline|Hline]; simpl;
    [|lia].
  intros Hchar.
  destruct (start (editRange a)), (start (editRange b)); simpl in *.
  f_equal; lia.
Qed.

Lemma insertEdit_Permutation (edit : TextEdit) (sorted : list TextEdit) :
  insertEdit edit sorted ≡ₚ edit :: sorted.
Proof.
  induction sorted as [|next rest IH]; simpl; [reflexivity|].
  destruct (compareEdits edit next <=? 0); [reflexivity|].
  rewrite IH. apply Permutation_swap.
Qed.

Lemma sortEdits_Permutation (edits : list TextEdit) :
  sortEdits edits ≡ₚ edits.
Proof.
  induction edits as [|edit edits IH]; simpl; [reflexivity|].
  now rewrite insertEdit_Permutation, IH.
Qed.

(** With starts that differ, the sorted edits go strictly from the last
    start to the first. *)
Lemma insertEdit_sorted (edit : TextEdit) (sorted : list TextEdit) :
  StronglySorted (fun a b => compareEdits a b < 0) sorted ->
  Forall (fun x => start (editRange x) <> start (editRange edit)) sorted ->
  StronglySorted (fun a b => compareEdits a b < 0) (insertEdit edit sorted).
Proof.
  intros Hsorted. induction Hsorted as [|next rest Hrest IH Hnext];
    intros Hfresh; simpl.
  - repeat constructor.
  - apply Forall_cons in Hfresh as [Hne Hfresh].
    destruct (Z.leb_spec (compareEdits edit next) 0) as [Hle|Hgt].
    + assert (Hlt : compareEdits edit next < 0).
      { destruct (Z.eq_dec (compareEdits edit next) 0) as [Hzero|]; [|lia].
        apply compareEdits_zero in Hzero. now destruct Hne. }
      constructor; [now constructor|]. constructor; [exact Hlt|].
      eapply Forall_impl; [exact Hnext|]. intros x Hx. simpl in Hx.
      apply compareEdits_lt. apply compareEdits_lt in Hlt, Hx. lia.
    + constructor; [now apply IH|].
      rewrite insertEdit_Permutation. constructor; [|exact Hnext].
      apply compareEdits_lt. unfold compareEdits in Hgt.
      destruct (Z.eqb_spec (line (start (editRange edit)))
                  (line (start (editRange next)))); simpl in Hgt; lia.
Qed.

Lemma sortEdits_sorted (edits : list TextEdit) :
  NoDup (map (fun e => start (editRange e)) edits) ->
  StronglySorted (fun a b => compareEdits a b < 0) (sortEdits edits).
Proof.
  induction edits as [|edit edits IH]; simpl; intros Hnodup.
  - constructor.
  - apply NoDup_cons in Hnodup as [Hnotin Hnodup].
    apply insertEdit_sorted; [now apply IH|].
    rewrite sortEdits_Permutation. apply Forall_forall. intros x Hx Heq.
    apply Hnotin. rewrite <- Heq.
    apply list_elem_of_fmap. eauto.
Qed.

(** Edits that start at different positions can be listed in any order:
    the content they give, or the exception, is the same. *)
Theorem edits_in_any_order (content : string) (edits edits' : list TextEdit) :
  edits ≡ₚ edits' ->
  NoDup (map (fun e => start (editRange e)) edits) ->
  applyTextEditsToContent content edits =
  applyTextEditsToContent content edits'.
Proof.
  intros Hperm Hnodup.
  assert (Hnodup' : NoDup (map (fun e => start (editRange e)) edits'))
    by now rewrite <- Hperm.
  unfold applyTextEditsToContent.
  replace (sortEdits edits') with (sortEdits edits); [reflexivity|].
  apply (StronglySorted_unique_strong (fun a b => compareEdits a b < 0)).
  - intros a b _ _ Hab Hba.
    apply compareEdits_lt in Hab, Hba. lia.
  - now apply sortEdits_sorted.
  - now apply sortEdits_sorted.
  - now rewrite !sortEdits_Permutation.
Qed.

(** *** Edits outside the text *)

(** The loop fails in one way only. *)
Lemma applyTextEdits_throws (sorted : list TextEdit) :
  forall lines e,
    applyTextEdits lines sorted = Throw e -> e = undefinedLine.
Proof.
  induction sorted as [|edit rest IH]; intros lines e; simpl; [discriminate|].
  destruct (applyTextEdit lines edit) as [lines'|e'] eqn:Hedit.
  - apply IH.
  - intros [= <-]. unfold applyTextEdit in Hedit.
    repeat case_match; congruence.
Qed.

Lemma applyTextEdit_no_line (lines : list string) (edit : TextEdit) :
  lineAt lines (line (start (editRange edit))) = None ->
  applyTextEdit lines edit = Throw undefinedLine.
Proof.
  intros Hline. unfold applyTextEdit.
  destruct (_ =? _); now rewrite Hline.
Qed.

Lemma sortEdits_head (edits : list TextEdit) (edit : TextEdit) :
  In edit edits ->
  exists first rest,
    sortEdits edits = first :: rest /\
    line (start (editRange edit)) <= line (start (editRange first)).
Proof.
  induction edits as [|next edits IH]; [intros []|].
  intros Hin. cbn [sortEdits fold_right]. fold (sortEdits edits).
  assert (Hcases :
            forall sorted,
              (sorted = [] /\ insertEdit next sorted = [next]) \/
              (exists first rest first' rest',
                  sorted = first :: rest /\
                  insertEdit next sorted = first' :: rest' /\
                  line (start (editRange first))
                    <= line (start (editRange first')) /\
                  line (start (editRange next))
                    <= line (start (editRange first')))).
  { intros [|first rest]; [now left | right]. simpl.
    destruct (Z.leb_spec (compareEdits next first) 0) as [Hle|Hgt].
    - exists first, rest, next, (first :: rest).
      repeat split; [|lia]. unfold compareEdits in Hle.
      destruct (Z.eqb_spec (line (start (editRange next)))
                  (line (start (editRange first)))); simpl in Hle; lia.
    - exists first, rest, first, (insertEdit next rest).
      repeat split; [lia|]. unfold compareEdits in Hgt.
      destruct (Z.eqb_spec (line (start (editRange next)))
                  (line (start (editRange first)))); simpl in Hgt; lia. }
  destruct Hin as [<- | Hin].
  - destruct (Hcases (sortEdits edits))
      as [[_ ->] | (first & rest & first' & rest' & _ & -> & _ & Hle)].
    + exists next, []. split; [reflexivity | lia].
    + eauto.
  - destruct (IH Hin) as (first & rest & Hsorted & Hle).
    destruct (Hcases (sortEdits edits))
      as [[Hnil _] | (f & r & first' & rest' & Heq & -> & Hle' & _)];
      [congruence|].
    rewrite Hsorted in Heq. injection Heq as <- <-.
    exists first', rest'. split; [reflexivity | lia].
Qed.

(** One edit that starts on a line the content does not have, before the
    first line or behind the last, makes the whole call fail with the
    [TypeError] of reading a line that is not there; no content is
    returned, whatever the other edits are. *)
Theorem edit_outside_the_text_throws (content : string)
    (edits : list TextEdit) (edit : TextEdit) :
  In edit edits ->
  line (start (editRange edit)) < 0 \/
  Z.of_nat (length (Js.splitLines content)) <= line (start (editRange edit)) ->
  applyTextEditsToContent content edits = Throw undefinedLine.
Proof.
  intros Hin Hout.
  assert (Hloop : applyTextEdits (Js.splitLines content) (sortEdits edits)
                  = Throw undefinedLine).
  { destruct Hout as [Hneg | Hbig].
    - assert (Hsorted : In edit (sortEdits edits)).
      { apply list_elem_of_In. rewrite sortEdits_Permutation.
        now apply list_elem_of_In. }
      revert Hsorted. generalize (Js.splitLines content).
      induction (sortEdits edits) as [|next rest IH]; intros lines [];
        cbn [applyTextEdits].
      + subst next. rewrite applyTextEdit_no_line; [reflexivity|].
        unfold lineAt.
        destruct (Z.ltb_spec (line (start (editRange edit))) 0);
          [reflexivity | lia].
      + destruct (applyTextEdit lines next) as [lines'|e] eqn:Hnext.
        * now apply IH.
        * f_equal. apply (applyTextEdits_throws [next] lines).
          cbn [applyTextEdits]. now rewrite Hnext.
    - destruct (sortEdits_head edits edit Hin) as (first & rest & -> & Hle).
      cbn [applyTextEdits]. rewrite applyTextEdit_no_line; [reflexivity|].
      unfold lineAt. destruct (Z.ltb_spec (line (start (editRange first))) 0);
        [reflexivity|].
      apply lookup_ge_None. lia. }
  unfold applyTextEditsToContent. now rewrite Hloop.
Qed.

Section OnSamples.
Import Samples.

Lemma two_edits_on_one_line_witness :
  applyTextEditsToContent incrementText [renameFirst; renameSecond]
  = Normal "const n = n + 1;".
Proof.
  unfold renameFirst, renameSecond.
  rewrite (proj1 (two_edits_on_one_line incrementText 0 6 7 10 11
                    incrementText "n" "n" eq_refl
                    ltac:(lia) ltac:(lia) ltac:(lia) ltac:(lia)
                    ltac:(vm_compute; discriminate))).
  vm_compute. reflexivity.
Defined.

Lemma edits_in_any_order_witness :
  applyTextEditsToContent incrementText [renameFirst; renameSecond] =
  applyTextEditsToContent incrementText [renameSecond; renameFirst].
Proof.
  apply edits_in_any_order.
  - apply Permutation_swap.
  - apply NoDup_cons. split; [|apply NoDup_singleton].
    intros Hin. apply list_elem_of_singleton in Hin. discriminate Hin.
Defined.

(** An edit on line 3 of a text of one line. *)
Lemma edit_outside_the_text_throws_witness :
  applyTextEditsToContent incrementText [renameFirst; textEdit 2 0 2 1 "x"]
  = Throw undefinedLine.
Proof.
  apply (edit_outside_the_text_throws incrementText _ (textEdit 2 0 2 1 "x")).
  - right. now left.
  - right. vm_compute. discriminate.
Defined.

End OnSamples.

End EditsFacts.

(** ** The symbol index: what is stored is what is found *)
Module IndexQueryFacts.
Import Lsp SymbolIndex JsMapFacts SymbolIndexFacts.

(** *** Symbols with their descendants *)

(** [addSymbols] of [querySymbols] for one symbol, as the source writes
    it. *)
Lemma addSymbol_unfold (withChildren : bool) (s : SymbolEntry) :
  addSymbol withChildren s =
  s :: match children s with
       | Some cs => if withChildren then addSymbols withChildren cs else []
       | None => []
       end.
Proof.
  destruct s as [nm kd loc ct dp dt kids ex sl]; simpl.
  destruct kids as [cs|]; [|reflexivity].
  destruct withChildren; reflexivity.
Qed.

Lemma addSymbols_cons (withChildren : bool) (s : SymbolEntry)
    (rest : list SymbolEntry) :
  addSymbols withChildren (s :: rest) =
  addSymbol withChildren s ++ addSymbols withChildren rest.
Proof. reflexivity. Qed.

(** *** The symbol at a position *)

(** What [findSymbol] returns is one of the symbols, or one of their
    descendants. *)
Lemma findSymbol_member (position : Position) :
  forall syms r,
    findSymbol position syms = Some r -> In r (addSymbols true syms).
Proof.
  assert (Hone : forall s rest r,
             findSymbol position (s :: rest) = Some r ->
             (forall r', findSymbol position rest = Some r' ->
                         In r' (addSymbols true rest)) ->
             In r (addSymbols true (s :: rest))).
  { intros s. induction s as [s IHkids] using SymbolEntry_tree_ind.
    intros rest r. rewrite findSymbol_cons, addSymbols_cons, addSymbol_unfold.
    destruct (positionInRange position (range (location s))).
    - intros Hfound _. apply in_or_app. left.
      destruct (children s) as [cs|].
      + destruct (findSymbol position cs) as [child|] eqn:Hcs.
        * injection Hfound as <-. right.
          clear -IHkids Hcs. revert child Hcs.
          induction IHkids as [|c cs Hc _ IHcs]; intros child Hcs.
          -- discriminate.
          -- apply (Hc cs child Hcs). exact IHcs.
        * injection Hfound as <-. now left.
      + injection Hfound as <-. now left.
    - intros Hfound Hrest. apply in_or_app. right. now apply Hrest. }
  induction syms as [|s syms IH]; intros r; [discriminate|].
  intros Hfound. now apply (Hone s syms r Hfound).
Qed.

(** [getSymbolAtPosition] answers with a symbol of the file, top-level or
    nested, whose range holds the position; it answers null exactly when no
    top-level symbol of the file holds the position, and so for a file that
    is not indexed. *)
Theorem getSymbolAtPosition_sound `{PathApi} (state : SymbolIndexState)
    (filePath : string) (position : Position) :
  (forall r, getSymbolAtPosition state filePath position = Some r ->
     positionInRange position (range (location r)) = true /\
     In r (addSymbols true (getFileSymbols state filePath))) /\
  (getSymbolAtPosition state filePath position = None <->
   Forall (outside position) (getFileSymbols state filePath)) /\
  (JsMap.get (pathToFileURL (resolve (rootPath state) filePath))
     (fileIndex state) = None ->
   getSymbolAtPosition state filePath position = None).
Proof.
  unfold getSymbolAtPosition. split; [|split].
  - intros r Hfound. split.
    + exact (findSymbol_inside position _ r Hfound).
    + exact (findSymbol_member position _ r Hfound).
  - split.
    + intros Hnone. apply List.Forall_forall. intros s Hs.
      destruct (positionInRange position (range (location s))) eqn:Hin;
        [|exact Hin].
      destruct (findSymbol_finds position _ s Hs Hin) as [r Hr].
      congruence.
    + apply findSymbol_outside.
  - intros Hfile. unfold getFileSymbols. now rewrite Hfile.
Qed.

(** *** Stored symbols are found *)

Section Pushing.
Context {K : Type} `{EqDecision K}.
Implicit Types (m : list (K * list SymbolEntry)).

Lemma pushEntry_keeps (k k' : K) (s e : SymbolEntry) m :
  In e (default [] (JsMap.get k' m)) ->
  In e (default [] (JsMap.get k' (pushEntry k s m))).
Proof.
  unfold pushEntry. destruct (decide (k = k')) as [->|Hne].
  - rewrite get_set_eq. simpl. intros He. apply in_or_app. now left.
  - now rewrite get_set_ne by exact Hne.
Qed.

Lemma pushEntry_adds (k : K) (s : SymbolEntry) m :
  In s (default [] (JsMap.get k (pushEntry k s m))).
Proof.
  unfold pushEntry. rewrite get_set_eq. simpl.
  apply in_or_app. right. now left.
Qed.

End Pushing.

(** [addToIndex] as the source writes it. *)
Lemma addToIndex_unfold (symbol : SymbolEntry) (ix : Indices) :
  addToIndex symbol ix =
  let ix1 :=
    {| byName := pushEntry (name symbol) symbol (byName ix);
       byKind := pushEntry (kind symbol) symbol (byKind ix);
       byContainer :=
         match containerName symbol with
         | Some c =>
             if Js.truthy (Some c)
             then pushEntry c symbol (byContainer ix)
             else byContainer ix
         | None => byContainer ix
         end |} in
  match children symbol with
  | Some cs => fold_left (fun acc child => addToIndex child acc) cs ix1
  | None => ix1
  end.
Proof. now destruct symbol as [nm kd loc ct dp dt [cs|] ex sl]. Qed.

(** Adding a symbol takes nothing out of the name index or the kind
    index. *)
Lemma addToIndex_keeps (symbol : SymbolEntry) :
  forall (ix : Indices) (e : SymbolEntry),
    (forall nm, In e (default [] (JsMap.get nm (byName ix))) ->
       In e (default [] (JsMap.get nm (byName (addToIndex symbol ix))))) /\
    (forall kd, In e (default [] (JsMap.get kd (byKind ix))) ->
       In e (default [] (JsMap.get kd (byKind (addToIndex symbol ix))))).
Proof.
  induction symbol as [symbol IHkids] using SymbolEntry_tree_ind.
  intros ix e. rewrite addToIndex_unfold. cbn zeta.
  set (ix1 := {| byName := _; byKind := _; byContainer := _ |}).
  assert (Hfirst :
            (forall nm, In e (default [] (JsMap.get nm (byName ix))) ->
               In e (default [] (JsMap.get nm (byName ix1)))) /\
            (forall kd, In e (default [] (JsMap.get kd (byKind ix))) ->
               In e (default [] (JsMap.get kd (byKind ix1))))).
  { split; intros k He; apply pushEntry_keeps; exact He. }
  destruct (children symbol) as [cs|]; [|exact Hfirst].
  clearbody ix1. revert ix1 Hfirst.
  induction IHkids as [|c cs Hc _ IHcs]; intros ix1 Hfirst; [exact Hfirst|].
  simpl. apply IHcs. destruct Hfirst as [Hnames Hkinds].
  destruct (Hc ix1 e) as [Hnames' Hkinds']. split; auto.
Qed.

Lemma addToIndex_fold_keeps (syms : list SymbolEntry) :
  forall (ix : Indices) (e : SymbolEntry),
    (forall nm, In e (default [] (JsMap.get nm (byName ix))) ->
       In e (default [] (JsMap.get nm
               (byName (fold_left (fun acc s => addToIndex s acc) syms ix)))))
    /\
    (forall kd, In e (default [] (JsMap.get kd (byKind ix))) ->
       In e (default [] (JsMap.get kd
               (byKind (fold_left (fun acc s => addToIndex s acc) syms ix))))).
Proof.
  induction syms as [|s syms IH]; intros ix e; [now split|].
  simpl. destruct (IH (addToIndex s ix) e) as [Hnames Hkinds].
  destruct (addToIndex_keeps s ix e) as [Hnames' Hkinds']. split; auto.
Qed.

(** Adding a symbol puts it and each of its descendants under its name and
    under its kind. *)
Lemma addToIndex_adds (symbol : SymbolEntry) :
  forall (ix : Indices) (e : SymbolEntry),
    In e (addSymbol true symbol) ->
    In e (default [] (JsMap.get (name e) (byName (addToIndex symbol ix)))) /\
    In e (default [] (JsMap.get (kind e) (byKind (addToIndex symbol ix)))).
Proof.
  induction symbol as [symbol IHkids] using SymbolEntry_tree_ind.
  intros ix e. rewrite addSymbol_unfold, addToIndex_unfold. cbn zeta.
  set (ix1 := {| byName := _; byKind := _; byContainer := _ |}).
  intros [<- | He].
  - assert (Hfirst :
              In symbol (default [] (JsMap.get (name symbol) (byName ix1))) /\
              In symbol (default [] (JsMap.get (kind symbol) (byKind ix1))))
      by (split; apply pushEntry_adds).
    destruct (children symbol) as [cs|]; [|exact Hfirst].
    destruct (addToIndex_fold_keeps cs ix1 symbol) as [Hnames Hkinds].
    destruct Hfirst. split; auto.
  - destruct (children symbol) as [cs|]; [|destruct He].
    clearbody ix1. revert ix1 He.
    induction IHkids as [|c cs Hc _ IHcs]; intros ix1 He; [destruct He|].
    rewrite addSymbols_cons in He. simpl.
    apply in_app_or in He as [He | He].
    + destruct (Hc ix1 e He) as [Hname Hkind].
      destruct (addToIndex_fold_keeps cs (addToIndex c ix1) e)
        as [Hnames Hkinds]. split; auto.
    + now apply IHcs.
Qed.

Lemma addToIndex_fold_adds (syms : list SymbolEntry) :
  forall (ix : Indices) (e : SymbolEntry),
    In e (addSymbols true syms) ->
    In e (default [] (JsMap.get (name e)
            (byName (fold_left (fun acc s => addToIndex s acc) syms ix)))) /\
    In e (default [] (JsMap.get (kind e)
            (byKind (fold_left (fun acc s => addToIndex s acc) syms ix)))).
Proof.
  induction syms as [|s syms IH]; intros ix e; [intros []|].
  rewrite addSymbols_cons. simpl. intros He.
  apply in_app_or in He as [He | He].
  - destruct (addToIndex_adds s ix e He) as [Hname Hkind].
    destruct (addToIndex_fold_keeps syms (addToIndex s ix) e)
      as [Hnames Hkinds]. split; auto.
  - now apply IH.
Qed.

(** Once the symbols of a file are stored, each of them, nested ones
    included, is among the answers to the query for its name (when the
    name is not empty), to the query for its kind (when the kind is not 0)
    and to the query for everything; and the file's symbols are those that
    were stored. *)
Theorem stored_symbols_are_found `{PathApi} (state : SymbolIndexState)
    (filePath : string) (now : Z) (entries : list SymbolEntry)
    (e : SymbolEntry) :
  let uri := pathToFileURL (resolve (rootPath state) filePath) in
  let state' := storeFileSymbols state uri now entries in
  In e (addSymbols true entries) ->
  getFileSymbols state' filePath = entries /\
  (name e <> "" -> In e (querySymbols state' (nameQuery (name e)))) /\
  (kind e <> 0 -> In e (querySymbols state' (kindQuery (kind e)))) /\
  In e (querySymbols state' everything).
Proof.
  intros uri state' He.
  destruct (addToIndex_fold_adds entries
              {| byName := clearFromMap uri (symbolIndex state);
                 byKind := clearFromMap uri (kindIndex state);
                 byContainer := clearFromMap uri (containerIndex state) |}
              e He) as [Hname Hkind].
  assert (Hfile : JsMap.get uri (fileIndex state')
                  = Some {| fs_uri := uri; lastModified := now;
                            symbols := entries |})
    by (unfold state', storeFileSymbols, updateIndices; simpl;
        apply get_set_eq).
  split; [|split; [|split]].
  - unfold getFileSymbols.
    replace (rootPath state') with (rootPath state) by reflexivity.
    fold uri. now rewrite Hfile.
  - intros Hnm. unfold querySymbols, candidates, nameQuery; simpl.
    rewrite bool_decide_eq_false_2 by exact Hnm. simpl.
    unfold state', storeFileSymbols, updateIndices, clearFileFromIndices;
      simpl.
    destruct (default [] (JsMap.get (name e) _)) as [|x xs] eqn:Hfound;
      [destruct Hname | exact Hname].
  - intros Hkd. unfold querySymbols, candidates, kindQuery; simpl.
    destruct (Z.eqb_spec (kind e) 0) as [|_]; [contradiction|]. simpl.
    rewrite app_nil_r. exact Hkind.
  - unfold querySymbols, candidates, everything; simpl.
    apply in_flat_map.
    exists {| fs_uri := uri; lastModified := now; symbols := entries |}.
    split; [|exact He].
    apply get_Some_In in Hfile. unfold JsMap.values.
    now apply (in_map snd) in Hfile.
Qed.

(** *** Statistics *)

Lemma countSymbol_length (s : SymbolEntry) :
  countSymbol s = Z.of_nat (length (addSymbol true s)).
Proof.
  induction s as [s IHkids] using SymbolEntry_tree_ind.
  rewrite addSymbol_unfold.
  destruct s as [nm kd loc ct dp dt kids ex sl]; simpl in *.
  destruct kids as [cs|]; [|reflexivity].
  match goal with
  | |- 1 + ?sum cs = _ =>
      assert (Hsum : sum cs = Z.of_nat (length (addSymbols true cs)))
  end.
  { induction IHkids as [|c cs Hc _ IHcs]; [reflexivity|].
    rewrite addSymbols_cons, length_app, Hc, IHcs. lia. }
  rewrite Hsum. lia.
Qed.

Lemma countSymbols_length (syms : list SymbolEntry) :
  countSymbols syms = Z.of_nat (length (addSymbols true syms)).
Proof.
  unfold countSymbols.
  induction syms as [|s syms IH]; [reflexivity|].
  rewrite addSymbols_cons, length_app. simpl.
  rewrite IH, countSymbol_length. lia.
Qed.

Lemma totalSymbols_length (files : list FileSymbols) (acc : Z) :
  fold_left (fun acc fs => acc + countSymbols (symbols fs)) files acc =
  acc + Z.of_nat (length (flat_map (fun fs => addSymbols true (symbols fs))
                            files)).
Proof.
  revert acc. induction files as [|fs files IH]; intros acc; simpl; [lia|].
  rewrite IH, length_app, countSymbols_length. lia.
Qed.

(** The statistics count what a query finds.  After [updateStats], and so
    after a file was removed, the number of symbols in the statistics is
    the number of symbols the query for everything returns, nested symbols
    counted, and the number of files is the size of the file index. *)
Theorem stats_count_what_is_found `{PathApi} (state : SymbolIndexState)
    (filePath : string) :
  totalSymbols (getIndexStats (updateStats state))
    = Z.of_nat (length (querySymbols state everything)) /\
  totalFiles (getIndexStats (updateStats state))
    = Z.of_nat (length (fileIndex state)) /\
  (let state' := removeFileFromIndex state filePath in
   totalSymbols (getIndexStats state')
     = Z.of_nat (length (querySymbols state' everything)) /\
   totalFiles (getIndexStats state')
     = Z.of_nat (length (fileIndex state'))).
Proof.
  assert (Hcount : forall st,
            totalSymbols (stats (updateStats st))
            = Z.of_nat (length (querySymbols st everything))).
  { intros st. unfold updateStats, querySymbols, candidates, everything;
      simpl.
    now rewrite totalSymbols_length. }
  split; [apply Hcount|]. split; [reflexivity|].
  cbn zeta. split; [|reflexivity].
  unfold removeFileFromIndex, getIndexStats.
  cbn [stats fileIndex]. rewrite Hcount.
  reflexivity.
Qed.

(** *** External libraries *)

Lemma markSymbolAsExternal_unfold (lib : string) (s : SymbolEntry) :
  markSymbolAsExternal lib s =
  mkSymbolEntry (name s) (kind s) (location s) (containerName s)
    (deprecated s) (detail s)
    (match children s with
     | Some cs => Some (markSymbolsAsExternal cs lib)
     | None => None
     end)
    (Some true) (Some lib).
Proof. now destruct s as [nm kd loc ct dp dt [cs|] ex sl]. Qed.

(** The symbols of a marked tree are the marked symbols of the tree. *)
Lemma addSymbols_marked (lib : string) (syms : list SymbolEntry) :
  addSymbols true (markSymbolsAsExternal syms lib) =
  map (markSymbolAsExternal lib) (addSymbols true syms).
Proof.
  assert (Hone : forall s,
             addSymbol true (markSymbolAsExternal lib s) =
             map (markSymbolAsExternal lib) (addSymbol true s)).
  { intros s. induction s as [s IHkids] using SymbolEntry_tree_ind.
    rewrite (addSymbol_unfold true s), addSymbol_unfold.
    rewrite (markSymbolAsExternal_unfold lib s) at 2. cbn [children map].
    f_equal.
    destruct (children s) as [cs|]; [|reflexivity].
    unfold markSymbolsAsExternal.
    induction IHkids as [|c cs Hc _ IHcs]; [reflexivity|].
    cbn [map]. rewrite !addSymbols_cons, map_app, Hc. f_equal. exact IHcs. }
  unfold markSymbolsAsExternal.
  induction syms as [|s syms IH]; [reflexivity|].
  cbn [map]. rewrite !addSymbols_cons, map_app, Hone. f_equal. exact IH.
Qed.

(** Marking reaches every level.  Each symbol of the marked symbols, nested
    ones included, carries the external flag and the name of the library;
    names, kinds and locations are those of the symbols that were marked,
    in the same order.  Once the file is added to the index, the query for
    external symbols only returns every one of them. *)
Theorem external_symbols_are_marked `{PathApi} (state : SymbolIndexState)
    (fileSymbols : FileSymbols) (lib : string) :
  let marked := markSymbolsAsExternal (symbols fileSymbols) lib in
  Forall (fun e => isExternal e = Some true /\ sourceLibrary e = Some lib)
         (addSymbols true marked) /\
  map (fun e => (name e, kind e, location e)) (addSymbols true marked) =
  map (fun e => (name e, kind e, location e))
      (addSymbols true (symbols fileSymbols)) /\
  (forall e, In e (addSymbols true marked) ->
     In e (querySymbols (addExternalFile state fileSymbols lib)
             onlyExternalQuery)).
Proof.
  cbn zeta. rewrite addSymbols_marked. split; [|split].
  - apply List.Forall_forall. intros e He.
    apply in_map_iff in He as (e0 & <- & _).
    now rewrite markSymbolAsExternal_unfold.
  - rewrite map_map. apply map_ext. intros e.
    now rewrite markSymbolAsExternal_unfold.
  - intros e He.
    unfold querySymbols, candidates, onlyExternalQuery; simpl.
    unfold externalFilter; simpl.
    apply filter_In. split.
    + apply in_flat_map.
      exists {| fs_uri := fs_uri fileSymbols;
                lastModified := lastModified fileSymbols;
                symbols := markSymbolsAsExternal (symbols fileSymbols) lib |}.
      split.
      * pose proof (get_set_eq (fs_uri fileSymbols)
                      {| fs_uri := fs_uri fileSymbols;
                         lastModified := lastModified fileSymbols;
                         symbols :=
                           markSymbolsAsExternal (symbols fileSymbols) lib |}
                      (fileIndex state)) as Hget.
        apply get_Some_In in Hget. unfold JsMap.values.
        now apply (in_map snd) in Hget.
      * cbn [symbols]. now rewrite addSymbols_marked.
    + apply in_map_iff in He as (e0 & <- & _).
      now rewrite markSymbolAsExternal_unfold.
Qed.

(** *** Removing a file *)

(** Removing a file leaves the symbols of every other file as they were.
    The watcher of the file, if it has one, is closed and forgotten, and no
    other watcher is; one [fileRemoved] event is emitted. *)
Theorem removeFileFromIndex_elsewhere `{PathApi} (state : SymbolIndexState)
    (filePath : string) :
  let uri := pathToFileURL (resolve (rootPath state) filePath) in
  let absolutePath := resolve (rootPath state) filePath in
  let state' := removeFileFromIndex state filePath in
  getFileSymbols state' filePath = [] /\
  (forall other,
     pathToFileURL (resolve (rootPath state) other) <> uri ->
     getFileSymbols state' other = getFileSymbols state other) /\
  JsMap.get absolutePath (fileWatchers state') = None /\
  (forall other, other <> absolutePath ->
     JsMap.get other (fileWatchers state')
     = JsMap.get other (fileWatchers state)) /\
  closedWatchers state' =
    closedWatchers state
    ++ match JsMap.get absolutePath (fileWatchers state) with
       | Some watcher => [watcher]
       | None => []
       end /\
  emitted state' = emitted state ++ [fileRemoved uri].
Proof.
  cbn zeta. unfold removeFileFromIndex, getFileSymbols; simpl.
  split; [now rewrite get_delete_eq|].
  split; [intros other Hother; now rewrite get_delete_ne by congruence|].
  split.
  { destruct (JsMap.get _ (fileWatchers state)) eqn:Hwatch;
      [apply get_delete_eq | exact Hwatch]. }
  split.
  { intros other Hother.
    destruct (JsMap.get (resolve _ _) (fileWatchers state));
      [now rewrite get_delete_ne by congruence | reflexivity]. }
  split; [|reflexivity].
  destruct (JsMap.get _ (fileWatchers state)); [reflexivity|].
  now rewrite app_nil_r.
Qed.

Section OnSamples.
Import Samples.

(** [first] is found by its name once [a.ts] is indexed. *)
Lemma stored_symbols_are_found_witness :
  In first (@querySymbols posixPaths indexWithA (nameQuery "first")).
Proof.
  destruct (@stored_symbols_are_found posixPaths emptyIndex "a.ts" 0
              [first; second] first (or_introl eq_refl))
    as (_ & Hname & _).
  apply Hname. discriminate.
Defined.

End OnSamples.

End IndexQueryFacts.

(** ** Applying a workspace edit *)
Module WorkspaceEditFacts.
Import Lsp Client Tools Edits JsMapFacts EditsFacts.

(** *** Reading comes first *)

(** The files whose lines were collected are files of the disk. *)
Lemma collectFileContents_reads (files : Files) (always : bool)
    (targets : list (string * list TextEdit)) :
  forall contents contents',
    (forall path, JsMap.has path contents = true -> is_Some (files !! path)) ->
    collectFileContents files always targets contents = Normal contents' ->
    (forall path, JsMap.has path contents' = true -> is_Some (files !! path))
    /\
    (forall uri edits, In (uri, edits) targets ->
       is_Some (files !! stripFileScheme uri)).
Proof.
  induction targets as [|[uri edits] targets IH]; intros contents contents'
    Hknown; cbn [collectFileContents].
  - intros [= <-]. split; [exact Hknown | intros ? ? []].
  - assert (Hstep : forall content,
              files !! stripFileScheme uri = Some content ->
              forall path,
                JsMap.has path
                  (JsMap.set (stripFileScheme uri) (Js.splitLines content)
                     contents) = true ->
                is_Some (files !! path)).
    { intros content Hfile path. unfold JsMap.has.
      destruct (decide (stripFileScheme uri = path)) as [<-|Hne].
      - intros _. eauto.
      - rewrite get_set_ne by exact Hne. apply Hknown. }
    destruct (always || negb (JsMap.has (stripFileScheme uri) contents))
      eqn:Hread.
    + unfold readFile.
      destruct (files !! stripFileScheme uri) as [content|] eqn:Hfile;
        [|discriminate].
      intros Hrest.
      destruct (IH _ _ (Hstep content eq_refl) Hrest) as [Hall Htargets].
      split; [exact Hall|].
      intros uri' edits' [[= <- <-] | Hin]; [rewrite Hfile; eauto|].
      now apply (Htargets uri' edits').
    + intros Hrest. destruct (IH _ _ Hknown Hrest) as [Hall Htargets].
      split; [exact Hall|].
      intros uri' edits' [[= <- <-] | Hin]; [|now apply (Htargets uri' edits')].
      apply Hknown. apply orb_false_iff in Hread as [_ Hhas].
      now apply negb_false_iff in Hhas.
Qed.

(** Writing touches the files of the targets only. *)
Lemma applyTargets_elsewhere (contents : list (string * list string))
    (merge : bool) (targets : list (string * list TextEdit)) (path : string) :
  (forall uri edits, In (uri, edits) targets -> stripFileScheme uri <> path) ->
  forall files changedFiles,
    (applyTargets contents merge targets files changedFiles).1 !! path
    = files !! path.
Proof.
  induction targets as [|[uri edits] targets IH]; intros Hother files
    changedFiles; cbn [applyTargets]; [reflexivity|].
  assert (Hrest : forall uri' edits',
            In (uri', edits') targets -> stripFileScheme uri' <> path)
    by (intros uri' edits' Hin; apply (Hother uri' edits'); now right).
  destruct (JsMap.get (stripFileScheme uri) contents) as [lines|];
    [|now apply IH].
  destruct (processTextEdits lines edits) as [[|change more]|e];
    [now apply IH | | reflexivity].
  destruct (applyTextEditsToContent (joinLines lines) edits)
    as [newContent|e]; [|reflexivity].
  rewrite IH by exact Hrest.
  apply lookup_insert_ne. apply (Hother uri edits). now left.
Qed.

(** Every file is read before any file is written.  When one of the files
    the edit names is not on the disk, the call fails and the disk is as it
    was.  In every case, also when an edit fails half way, a file the edit
    does not name is as it was. *)
Theorem applyWorkspaceEdit_reads_first (files : Files) (root : string)
    (edit : WorkspaceEdit) :
  (forall uri edits,
     In (uri, edits) (changeTargets edit ++ documentChangeTargets edit) ->
     files !! stripFileScheme uri = None ->
     exists e, applyWorkspaceEdit files root edit = (files, Throw e)) /\
  (forall path,
     (forall uri edits,
        In (uri, edits) (changeTargets edit ++ documentChangeTargets edit) ->
        stripFileScheme uri <> path) ->
     (applyWorkspaceEdit files root edit).1 !! path = files !! path).
Proof.
  split.
  - intros uri edits Hin Hmissing. unfold applyWorkspaceEdit.
    destruct (collectFileContents files true (changeTargets edit) [])
      as [contents1|e] eqn:Hfirst; [|eauto].
    assert (Hnone : forall path,
              JsMap.has path (@nil (string * list string)) = true ->
              is_Some (files !! path)) by (intros path; discriminate).
    destruct (collectFileContents_reads files true _ _ _ Hnone Hfirst)
      as [Hknown Hread1].
    destruct (collectFileContents files false (documentChangeTargets edit)
                contents1) as [contents|e] eqn:Hsecond; [|eauto].
    destruct (collectFileContents_reads files false _ _ _ Hknown Hsecond)
      as [_ Hread2].
    apply in_app_or in Hin as [Hin | Hin];
      [apply Hread1 in Hin | apply Hread2 in Hin];
      rewrite Hmissing in Hin; now destruct Hin.
  - intros path Hother. unfold applyWorkspaceEdit.
    destruct (collectFileContents files true (changeTargets edit) [])
      as [contents1|e]; [|reflexivity].
    destruct (collectFileContents files false (documentChangeTargets edit)
                contents1) as [contents|e]; [|reflexivity].
    pose proof (applyTargets_elsewhere contents false (changeTargets edit)
                  path
                  ltac:(intros u es Hu; apply (Hother u es), in_or_app;
                        now left) files []) as Hfirst.
    destruct (applyTargets contents false (changeTargets edit) files [])
      as [files1 [changed1|e]]; [|exact Hfirst].
    pose proof (applyTargets_elsewhere contents true
                  (documentChangeTargets edit) path
                  ltac:(intros u es Hu; apply (Hother u es), in_or_app;
                        now right) files1 changed1) as Hsecond.
    destruct (applyTargets contents true (documentChangeTargets edit) files1
                changed1) as [files2 [changedFiles|e]];
      cbn [fst] in *; congruence.
Qed.

(** *** One file *)

(** An edit that names one file under [changes].  When the edits of the
    file apply to its content, the file holds the edited content
    afterwards, the other files are as they were, and the result counts one
    file and one change for each edit, in the order of the edits. *)
Theorem applyWorkspaceEdit_one_file (files : Files)
    (root uri content : string)
    (edits : list TextEdit) (fileChanges : list FileChange)
    (newContent : string) :
  uri <> "" ->
  edits <> [] ->
  files !! stripFileScheme uri = Some content ->
  processTextEdits (Js.splitLines content) edits = Normal fileChanges ->
  applyTextEditsToContent content edits = Normal newContent ->
  applyWorkspaceEdit files root
    {| changes := Some [(uri, edits)]; documentChanges := None |} =
  (<[stripFileScheme uri := newContent]> files,
   Normal {| successMessage :=
               "Successfully renamed symbol in 1 file(s) with "
               +:+ Js.numberToString (Z.of_nat (length edits))
               +:+ " change(s)";
             Tools.changedFiles := [(stripFileScheme uri, fileChanges)] |}).
Proof.
  intros Huri Hedits Hfile Hchanges Hcontent.
  assert (Hcount : length fileChanges = length edits).
  { clear -Hchanges. revert fileChanges Hchanges.
    induction edits as [|edit edits IH]; intros fileChanges; simpl.
    - now intros [= <-].
    - destruct (oldTextOf _ edit); [|discriminate].
      destruct (processTextEdits _ edits) as [changes'|]; [|discriminate].
      intros [= <-]. simpl. now rewrite (IH changes' eq_refl). }
  assert (Htargets : changeTargets {| changes := Some [(uri, edits)];
                                      documentChanges := None |}
                     = [(uri, edits)]).
  { unfold changeTargets. simpl.
    now rewrite bool_decide_eq_false_2 by exact Huri. }
  unfold applyWorkspaceEdit. rewrite Htargets.
  change (documentChangeTargets _) with (@nil (string * list TextEdit)).
  cbn [negb collectFileContents orb]. unfold readFile. rewrite Hfile.
  cbn [collectFileContents applyTargets].
  unfold JsMap.set at 1. cbn [JsMap.has JsMap.get app].
  cbn [applyTargets JsMap.get]. rewrite decide_True by reflexivity.
  rewrite Hchanges, joinLines_splitLines, Hcontent.
  destruct fileChanges as [|change more];
    [destruct edits; [contradiction | discriminate Hcount]|].
  cbn [applyTargets recordChanges andb app fold_left length].
  rewrite <- Hcount. reflexivity.
Qed.

Section OnSamples.
Import Samples.

(** The rename of [a] in [inc.ts]. *)
Lemma applyWorkspaceEdit_one_file_witness :
  applyWorkspaceEdit incrementFiles "/proj" renameInIncrement =
  (<["/proj/inc.ts" := "const n = n + 1;"]> incrementFiles,
   Normal {| successMessage :=
               "Successfully renamed symbol in 1 file(s) with 2 change(s)";
             Tools.changedFiles :=
               [("/proj/inc.ts",
                 [{| changeLine := 1; changeColumn := 7; oldText := "a";
                     Tools.newText := "n" |};
                  {| changeLine := 1; changeColumn := 11; oldText := "a";
                     Tools.newText := "n" |}])] |}).
Proof.
  unfold renameInIncrement.
  rewrite (applyWorkspaceEdit_one_file incrementFiles "/proj"
             "file:///proj/inc.ts"
             incrementText [renameFirst; renameSecond]
             [{| changeLine := 1; changeColumn := 7; oldText := "a";
                 Tools.newText := "n" |};
              {| changeLine := 1; changeColumn := 11; oldText := "a";
                 Tools.newText := "n" |}]
             "const n = n + 1;");
    [reflexivity | discriminate | discriminate | | | ];
    vm_compute; reflexivity.
Defined.

End OnSamples.

End WorkspaceEditFacts.

(** ** The pool of language server processes *)
Module PoolFacts.
Import Client Pool JsMapFacts.

(** *** Single calls *)

Lemma acquire_pooled (root : string) (created : Completion Z)
    (st : LSPProcessPoolState) (pooled : PooledLSPClient) :
  JsMap.get root (pool st) = Some pooled ->
  acquire root created st =
  ({| pool := JsMap.set root {| client := client pooled;
                                refCount := refCount pooled + 1 |} (pool st);
      initPromises := initPromises st;
      stopped := stopped st |},
   Normal {| client := client pooled; refCount := refCount pooled + 1 |}).
Proof. intros Hget. unfold acquire, acquireStart. now rewrite Hget. Qed.

Lemma acquire_created (root : string) (handle : Z)
    (st : LSPProcessPoolState) :
  JsMap.get root (pool st) = None ->
  root ∉ initPromises st ->
  acquire root (Normal handle) st =
  ({| pool := JsMap.set root {| client := handle; refCount := 1 |} (pool st);
      initPromises := initPromises st;
      stopped := stopped st |},
   Normal {| client := handle; refCount := 1 |}).
Proof.
  intros Hget Hinit. unfold acquire, acquireStart. rewrite Hget.
  rewrite bool_decide_eq_false_2 by exact Hinit.
  unfold creationSettled; cbn [pool initPromises stopped].
  do 2 f_equal. apply set_eq. intros x.
  rewrite elem_of_difference, elem_of_union, elem_of_singleton.
  split; [tauto|]. intros Hx. split; [now right|]. now intros ->.
Qed.

Lemma release_held (root : string) (st : LSPProcessPoolState)
    (pooled : PooledLSPClient) :
  JsMap.get root (pool st) = Some pooled ->
  1 < refCount pooled ->
  release root st =
  {| pool := JsMap.set root {| client := client pooled;
                               refCount := refCount pooled - 1 |} (pool st);
     initPromises := initPromises st;
     stopped := stopped st |}.
Proof.
  intros Hget Hcount. unfold release. rewrite Hget. cbn [refCount].
  now destruct (Z.leb_spec (refCount pooled - 1) 0); [lia|].
Qed.

Lemma release_last (root : string) (st : LSPProcessPoolState)
    (pooled : PooledLSPClient) :
  JsMap.get root (pool st) = Some pooled ->
  refCount pooled <= 1 ->
  release root st =
  {| pool := JsMap.delete root (pool st);
     initPromises := initPromises st;
     stopped := stopped st ++ [client pooled] |}.
Proof.
  intros Hget Hcount. unfold release. rewrite Hget. cbn [refCount].
  now destruct (Z.leb_spec (refCount pooled - 1) 0); [|lia].
Qed.

(** *** Holders are counted *)

(** Every client of the pool has at least one holder counted: so it is in
    the empty pool, and every step of the pool keeps it so. *)
Theorem pool_counts_holders (root : string) (created : Completion Z)
    (st : LSPProcessPoolState) :
  counted emptyPool /\
  (counted st ->
   counted (acquireStart root st).1 /\
   counted (creationSettled root created st).1 /\
   counted (release root st)).
Proof.
  split; [intros r p; discriminate|].
  intros Hcounted. split; [|split]; intros r p.
  - unfold acquireStart.
    destruct (JsMap.get root (pool st)) as [existing|] eqn:Hget;
      cbn [fst pool].
    + destruct (decide (root = r)) as [<-|Hne].
      * rewrite get_set_eq. intros [= <-]. cbn.
        pose proof (Hcounted _ _ Hget). lia.
      * rewrite get_set_ne by exact Hne. apply Hcounted.
    + destruct (bool_decide _); apply Hcounted.
  - unfold creationSettled. destruct created as [handle|e]; cbn [fst pool];
      [|apply Hcounted].
    destruct (decide (root = r)) as [<-|Hne].
    + rewrite get_set_eq. intros [= <-]. cbn. lia.
    + rewrite get_set_ne by exact Hne. apply Hcounted.
  - unfold release.
    destruct (JsMap.get root (pool st)) as [pooled|] eqn:Hget;
      [|apply Hcounted].
    cbn [refCount].
    destruct (Z.leb_spec (refCount pooled - 1) 0); cbn [cleanup pool].
    + destruct (decide (root = r)) as [<-|Hne].
      * now rewrite get_delete_eq.
      * rewrite get_delete_ne by exact Hne. apply Hcounted.
    + destruct (decide (root = r)) as [<-|Hne].
      * rewrite get_set_eq. intros [= <-]. cbn. lia.
      * rewrite get_set_ne by exact Hne. apply Hcounted.
Qed.

(** *** As many releases as acquires *)

Lemma acquires_count (root : string) (created : Completion Z) (n : nat) :
  forall (st : LSPProcessPoolState) (pooled : PooledLSPClient),
    JsMap.get root (pool st) = Some pooled ->
    let held := Nat.iter n (fun s => (acquire root created s).1) st in
    JsMap.get root (pool held)
      = Some {| client := client pooled;
                refCount := refCount pooled + Z.of_nat n |} /\
    stopped held = stopped st.
Proof.
  induction n as [|n IH]; intros st pooled Hget; cbn zeta.
  - cbn [Nat.iter nat_rect]. rewrite Hget. split; [|reflexivity].
    destruct pooled; cbn. do 2 f_equal. lia.
  - rewrite Nat.iter_succ. destruct (IH st pooled Hget) as [Hheld Hstopped].
    cbn zeta in Hheld, Hstopped.
    rewrite (acquire_pooled _ _ _ _ Hheld). cbn [fst pool stopped client refCount].
    rewrite get_set_eq. split; [|exact Hstopped]. do 2 f_equal. lia.
Qed.

Lemma releases_count (root : string) (k : nat) :
  forall (st : LSPProcessPoolState) (pooled : PooledLSPClient),
    JsMap.get root (pool st) = Some pooled ->
    Z.of_nat k < refCount pooled ->
    let left := Nat.iter k (release root) st in
    JsMap.get root (pool left)
      = Some {| client := client pooled;
                refCount := refCount pooled - Z.of_nat k |} /\
    stopped left = stopped st.
Proof.
  induction k as [|k IH]; intros st pooled Hget Hk; cbn zeta.
  - cbn [Nat.iter nat_rect]. rewrite Hget. split; [|reflexivity].
    destruct pooled; cbn. do 2 f_equal. lia.
  - rewrite Nat.iter_succ.
    destruct (IH st pooled Hget ltac:(lia)) as [Hleft Hstopped].
    cbn zeta in Hleft, Hstopped.
    rewrite (release_held _ _ _ Hleft) by (cbn; lia).
    cbn [pool stopped client refCount].
    rewrite get_set_eq. split; [|exact Hstopped]. do 2 f_equal. lia.
Qed.

(** A root that is not in the pool is acquired, which creates its client,
    and then acquired [n] times more.  As long as fewer releases than
    acquires have been made the client stays in the pool, counted for the
    holders that are left, and is not stopped; the release that makes them
    as many takes it out of the pool and stops it, once. *)
Theorem releases_match_acquires (root : string) (handle : Z)
    (created : Completion Z) (st : LSPProcessPoolState) (n k : nat) :
  JsMap.get root (pool st) = None ->
  root ∉ initPromises st ->
  (k <= n)%nat ->
  let held :=
    Nat.iter n (fun s => (acquire root created s).1)
      (acquire root (Normal handle) st).1 in
  let left := Nat.iter k (release root) held in
  let done := Nat.iter (S n) (release root) held in
  JsMap.get root (pool left)
    = Some {| client := handle;
              refCount := Z.of_nat n + 1 - Z.of_nat k |} /\
  stopped left = stopped st /\
  JsMap.get root (pool done) = None /\
  stopped done = stopped st ++ [handle].
Proof.
  intros Hget Hinit Hk held left done.
  assert (Hfirst : JsMap.get root (pool (acquire root (Normal handle) st).1)
                   = Some {| client := handle; refCount := 1 |}).
  { rewrite acquire_created by assumption. cbn [fst pool].
    apply get_set_eq. }
  destruct (acquires_count root created n _ _ Hfirst) as [Hheld Hstopped].
  cbn zeta in Hheld, Hstopped. fold held in Hheld, Hstopped.
  cbn [client refCount] in Hheld.
  assert (Hstopped0 : stopped held = stopped st).
  { rewrite Hstopped. now rewrite acquire_created by assumption. }
  assert (Hreleases : forall j, (j <= n)%nat ->
            JsMap.get root (pool (Nat.iter j (release root) held))
              = Some {| client := handle;
                        refCount := Z.of_nat n + 1 - Z.of_nat j |} /\
            stopped (Nat.iter j (release root) held) = stopped st).
  { intros j Hj.
    destruct (releases_count root j held _ Hheld ltac:(cbn; lia))
      as [Hleft Hsame].
    cbn zeta in Hleft, Hsame. cbn [client refCount] in Hleft.
    rewrite Hleft, Hsame. split; [|exact Hstopped0]. do 2 f_equal. lia. }
  split; [apply Hreleases; exact Hk|]. split; [apply Hreleases; exact Hk|].
  destruct (Hreleases n (le_n n)) as [Hlast Hsame].
  unfold done. rewrite Nat.iter_succ.
  rewrite (release_last _ _ _ Hlast) by (cbn; lia).
  cbn [pool stopped client]. rewrite get_delete_eq, Hsame. now split.
Qed.

(** *** Two calls at once *)

(** Two calls of [acquire] for a root that is not in the pool, the second
    made while the client of the first is being created.  The second call
    gets the promise of the first, the client is created once, and the pool
    counts one holder for it: the first release takes the client out of the
    pool and stops it. *)
Theorem overlapping_acquires_count_once (root : string) (handle : Z)
    (st : LSPProcessPoolState) :
  JsMap.get root (pool st) = None ->
  root ∉ initPromises st ->
  let first := acquireStart root st in
  let second := acquireStart root first.1 in
  let settled := creationSettled root (Normal handle) second.1 in
  let released := release root settled.1 in
  first.2 = Creating /\
  second = (first.1, Joined) /\
  JsMap.get root (pool settled.1)
    = Some {| client := handle; refCount := 1 |} /\
  initPromises settled.1 = initPromises st /\
  JsMap.get root (pool released) = None /\
  stopped released = stopped st ++ [handle].
Proof.
  intros Hget Hinit first second settled released.
  assert (Hfirst : first =
                   ({| pool := pool st;
                       initPromises := {[root]} ∪ initPromises st;
                       stopped := stopped st |}, Creating)).
  { unfold first, acquireStart. rewrite Hget.
    now rewrite bool_decide_eq_false_2 by exact Hinit. }
  assert (Hsecond : second = (first.1, Joined)).
  { unfold second, acquireStart. rewrite Hfirst; cbn [fst pool initPromises].
    rewrite Hget. rewrite bool_decide_eq_true_2; [reflexivity|].
    apply elem_of_union_l, elem_of_singleton. reflexivity. }
  assert (Hsettled : JsMap.get root (pool settled.1)
                     = Some {| client := handle; refCount := 1 |})
    by (unfold settled, creationSettled; cbn [fst pool]; apply get_set_eq).
  split; [now rewrite Hfirst|]. split; [exact Hsecond|].
  split; [exact Hsettled|]. split.
  - unfold settled, creationSettled. rewrite Hsecond, Hfirst.
    cbn [fst initPromises]. apply set_eq. intros x.
    rewrite elem_of_difference, elem_of_union, elem_of_singleton.
    split; [tauto|]. intros Hx. split; [now right|]. now intros ->.
  - unfold released. rewrite (release_last _ _ _ Hsettled) by (cbn; lia).
    cbn [pool stopped client]. rewrite get_delete_eq. split; [reflexivity|].
    unfold settled, creationSettled. rewrite Hsecond, Hfirst. reflexivity.
Qed.

(** *** Shutdown *)

Lemma delete_all {V : Type} (entries : list (string * V)) :
  forall m : list (string * V),
    (forall kv, In kv m -> In kv.1 (map fst entries)) ->
    fold_left (fun acc entry => JsMap.delete entry.1 acc) entries m = [].
Proof.
  induction entries as [|entry entries IH]; intros m Hkeys; simpl.
  - destruct m as [|kv m]; [reflexivity|]. destruct (Hkeys kv). now left.
  - apply IH. intros kv Hkv. unfold JsMap.delete in Hkv.
    apply filter_In in Hkv as [Hkv Hne].
    destruct (Hkeys kv Hkv) as [Heq | Hin]; [|exact Hin].
    apply negb_true_iff, bool_decide_eq_false in Hne. now destruct Hne.
Qed.

Lemma shutdown_fold (entries : list (string * PooledLSPClient)) :
  forall acc : LSPProcessPoolState,
    let result :=
      fold_left
        (fun acc entry =>
           cleanup entry.2
             {| pool := JsMap.delete entry.1 (pool acc);
                initPromises := initPromises acc;
                stopped := stopped acc |})
        entries acc in
    pool result
      = fold_left (fun m entry => JsMap.delete entry.1 m) entries (pool acc) /\
    stopped result = stopped acc ++ map (fun entry => client entry.2) entries /\
    initPromises result = initPromises acc.
Proof.
  induction entries as [|entry entries IH]; intros acc; cbn zeta.
  - simpl. now rewrite app_nil_r.
  - cbn [fold_left map]. destruct (IH (cleanup entry.2
                {| pool := JsMap.delete entry.1 (pool acc);
                   initPromises := initPromises acc;
                   stopped := stopped acc |})) as (Hpool & Hstopped & Hinit).
    cbn zeta in *. rewrite Hpool, Hstopped, Hinit.
    cbn [cleanup pool stopped initPromises].
    now rewrite <- app_assoc.
Qed.

(** [shutdown] empties the pool and stops every client that was in it, once
    each and in the order of the pool, however many holders were counted;
    after it the holders are counted again. *)
Theorem shutdown_stops_every_client (st : LSPProcessPoolState) :
  pool (shutdown st) = [] /\
  stopped (shutdown st)
    = stopped st ++ map (fun entry => client entry.2) (pool st) /\
  counted (shutdown st) /\
  forall root, release root (shutdown st) = shutdown st.
Proof.
  destruct (shutdown_fold (pool st) st) as (Hpool & Hstopped & _).
  cbn zeta in Hpool, Hstopped. fold (shutdown st) in Hpool, Hstopped.
  assert (Hempty : pool (shutdown st) = []).
  { rewrite Hpool. apply delete_all. intros kv Hkv. now apply in_map. }
  split; [exact Hempty|]. split; [exact Hstopped|]. split.
  - intros root pooled. now rewrite Hempty.
  - intros root. unfold release. now rewrite Hempty.
Qed.

Section OnSamples.

(** Three holders of the client of [/proj], one of which lets go. *)
Lemma releases_match_acquires_witness :
  let held :=
    Nat.iter 2 (fun s => (acquire "/proj" (Normal 2) s).1)
      (acquire "/proj" (Normal 1) emptyPool).1 in
  JsMap.get "/proj" (pool (release "/proj" held))
  = Some {| client := 1; refCount := 2 |}.
Proof.
  exact (proj1 (releases_match_acquires "/proj" 1 (Normal 2) emptyPool 2 1
                  eq_refl (not_elem_of_empty _) (le_S _ _ (le_n 1)))).
Defined.

(** Two calls for [/proj] at once, then one release. *)
Lemma overlapping_acquires_count_once_witness :
  let first := acquireStart "/proj" emptyPool in
  let second := acquireStart "/proj" first.1 in
  let settled := creationSettled "/proj" (Normal 1) second.1 in
  second.2 = Joined /\
  stopped (release "/proj" settled.1) = [1].
Proof.
  destruct (overlapping_acquires_count_once "/proj" 1 emptyPool eq_refl
              (not_elem_of_empty _))
    as (_ & Hsecond & _ & _ & _ & Hstopped).
  split; [now rewrite Hsecond | exact Hstopped].
Defined.

End OnSamples.

End PoolFacts.

(** ** Display helpers *)
Module FormatFacts.
Import Format JsFacts.

#[local] Arguments String.append _ _ : simpl nomatch.

(** A path made of a root and a relative path is shown as the relative
    path: with a root that ends in a slash, and with a root that does not
    and a slash between the two.  The same cut is made when the root is
    only a prefix of a directory name: what is shown then lacks the first
    character behind the prefix. *)
Theorem formatFilePath_under_root (root relative : string) :
  (endsWith root "/" = true ->
   formatFilePath (root +:+ relative) root = relative) /\
  (endsWith root "/" = false ->
   formatFilePath (root +:+ "/" +:+ relative) root = relative /\
   forall c, formatFilePath (root +:+ String c relative) root = relative).
Proof.
  unfold formatFilePath, sliceFrom, Js.length. split.
  - intros ->. rewrite startsWith_append, Nat2Z.id. apply drop_append.
  - intros ->. split; [|intros c]; rewrite startsWith_append.
    + replace (Z.to_nat (Z.of_nat (String.length root) + 1))
        with (String.length (root +:+ "/"))
        by (rewrite length_append; simpl; lia).
      rewrite <- append_assoc. apply drop_append.
    + replace (Z.to_nat (Z.of_nat (String.length root) + 1))
        with (String.length (root +:+ String c EmptyString))
        by (rewrite length_append; simpl; lia).
      replace (root +:+ String c relative)
        with ((root +:+ String c EmptyString) +:+ relative)
        by (now rewrite append_assoc).
      apply drop_append.
Qed.

End FormatFacts.

